(** * magic-txd: the native-image layer, the TIFF probe and codec, the PVR provider,
      stream compression

    A shallow embedding of
      - rwlib/src/natimage.cpp        (NativeImagePrivate, fetch/put, the format registry),
      - rwlib/src/rwimaging.tiff.cpp  (tiffImagingExtension::IsStreamCompatible, DeserializeImage,
                                       SerializeImage),
      - rwlib/src/txdwrite.pvr.cpp    (pvrNativeTextureTypeProvider),
      - src/streamcompress.cpp        (CreateDecompressedStream, the registry of managers),
    followed by the properties proved about them.

    Conventions.  A C++ object that is reached through a pointer lives in a
    store keyed by its address; [NULL] is [None].  A method that can throw
    yields an [outcome]: the state it leaves behind is carried by a return and
    by a throw alike, because a C++ exception does not roll anything back.
    Scoped reader/writer locks are not modelled: every operation runs alone.
    Fixed-width integers are [Z] with the wrap-around written where the source
    computes in that width. *)

From Stdlib Require Import ZArith Lia List Bool String.
From stdpp Require Import base option list gmap fin_maps.

Open Scope Z_scope.

(* ===================================================================== *)
(** ** Exceptions and outcomes *)
(* ===================================================================== *)

(** The [RwException] messages thrown by the functions modelled below. *)
Inductive rw_message :=
| MsgFetchNoNativeData      (* natimage.cpp:545 *)
| MsgPutNoNativeData        (* natimage.cpp:681 *)
| MsgAlreadyOwned           (* natimage.cpp:736 and :767 *)
| MsgPvrInvalidMipmapDimensions   (* txdwrite.pvr.cpp:516 *)
| MsgPvrUnknownInternalFormat     (* txdwrite.pvr.cpp:580 *)
| MsgPvrUnknownCompressionDepth   (* txdwrite.pvr.cpp:497 *)
| MsgTiffZeroScanline.            (* rwimaging.tiff.cpp:867 *)

Definition message_text (m : rw_message) : string :=
  match m with
  | MsgFetchNoNativeData => "raster has no native data in NativeImage raster data acquisition"
  | MsgPutNoNativeData => "no raster native data"
  | MsgAlreadyOwned =>
      "cannot move image data from NativeImage into Raster because image data is already owned by a raster"
  | MsgPvrInvalidMipmapDimensions => "invalid mipmap dimensions in PowerVR native texture pixel acquisition"
  | MsgPvrUnknownInternalFormat => "failed to compress PVRTC due to unknown internalFormat"
  | MsgPvrUnknownCompressionDepth => "failed to compress PVRTC due to unknown compression depth"
  | MsgTiffZeroScanline => "cannot read TIFF whose scanline size is zero"
  end.

(** An exception in flight: one of the messages above, thrown by the code
    modelled here, or whatever a plug-in (codec, texture provider, block
    provider) throws, which the modelled code only ever passes on. *)
Inductive exn :=
| RwException (m : rw_message)
| PluginException (code : nat).

(** The error names of the specification, section 7. *)
Definition AlreadyOwned : exn := RwException MsgAlreadyOwned.

(** What a call leaves behind.  [Undefined]: the call dereferences a pointer
    that addresses no live object, for which C++ defines no behaviour. *)
Inductive outcome (S A : Type) :=
| Returns (a : A) (s : S)
| Throws (e : exn) (s : S)
| Undefined.
Arguments Returns {S A} a s.
Arguments Throws {S A} e s.
Arguments Undefined {S A}.

Definition bind {S A B} (m : S -> outcome S A) (k : A -> S -> outcome S B) (s : S) : outcome S B :=
  match m s with
  | Returns a s' => k a s'
  | Throws e s' => Throws e s'
  | Undefined => Undefined
  end.

(** [try { m } catch( ... ) { h; throw; }] *)
Definition try_catch_rethrow {S A} (m : S -> outcome S A) (h : S -> S) (s : S) : outcome S A :=
  match m s with
  | Returns a s' => Returns a s'
  | Throws e s' => Throws e (h s')
  | Undefined => Undefined
  end.

Definition final_state {S A} (o : outcome S A) : option S :=
  match o with
  | Returns _ s => Some s
  | Throws _ s => Some s
  | Undefined => None
  end.

Definition thrown {S A} (o : outcome S A) : option exn :=
  match o with
  | Throws e _ => Some e
  | _ => None
  end.

(* ===================================================================== *)
(** ** Byte streams *)
(* ===================================================================== *)

(** Modelled from the spec: the byte-stream interface (class [Stream] is
    declared outside the files at hand).  Section 4.B: [read(buf, n) -> actual],
    [seek(off, whence)], [tell()], [size()].  A stream is its bytes and a
    cursor; a read delivers the bytes between the cursor and the end, at most
    [n] of them, and advances the cursor by what it delivered. *)
Record Stream := mkStream { content : list Z; cursor : Z }.

Inductive eSeekMode := RWSEEK_BEG | RWSEEK_CUR | RWSEEK_END.

Definition tell (s : Stream) : Z := cursor s.
Definition size (s : Stream) : Z := Z.of_nat (length (content s)).

Definition seek (s : Stream) (off : Z) (whence : eSeekMode) : Stream :=
  match whence with
  | RWSEEK_BEG => mkStream (content s) off
  | RWSEEK_CUR => mkStream (content s) (cursor s + off)
  | RWSEEK_END => mkStream (content s) (size s + off)
  end.

(** The bytes at offset [off], at most [n]; none when [off] is outside the data. *)
Definition bytes_from (bytes : list Z) (off : Z) (n : nat) : list Z :=
  if off <? 0 then [] else firstn n (skipn (Z.to_nat off) bytes).

Definition read (s : Stream) (n : nat) : list Z * Stream :=
  let got := bytes_from (content s) (cursor s) n in
  (got, mkStream (content s) (cursor s + Z.of_nat (length got))).

(* ===================================================================== *)
(** ** Rasters *)
(* ===================================================================== *)

Definition RasterPtr := nat.

(** Modelled from the spec: [Raster] and its reference counting
    (txdread.raster.hxx is outside the files at hand).  Section 4.C:
    [addConstRef()]/[remConstRef()] move the const-reference count by one;
    [acquire(raster)] increments the owning refcount and returns the same
    raster; [delete(raster)] decrements it.  Releasing the memory of a raster
    whose counts reached zero is not modelled: the store keeps its record.
    [platformData] is the raster's native texture, [None] when it has none. *)
Record Raster (NativeTex : Type) := mkRaster {
  refCount : Z;
  constRefCount : Z;
  platformData : option NativeTex
}.
Arguments mkRaster {NativeTex} _ _ _.
Arguments refCount {NativeTex} _.
Arguments constRefCount {NativeTex} _.
Arguments platformData {NativeTex} _.

Definition Raster_addConstRef {T} (r : Raster T) : Raster T :=
  mkRaster (refCount r) (constRefCount r + 1) (platformData r).
Definition Raster_remConstRef {T} (r : Raster T) : Raster T :=
  mkRaster (refCount r) (constRefCount r - 1) (platformData r).
Definition Raster_acquire {T} (r : Raster T) : Raster T :=
  mkRaster (refCount r + 1) (constRefCount r) (platformData r).
Definition Raster_delete {T} (r : Raster T) : Raster T :=
  mkRaster (refCount r - 1) (constRefCount r) (platformData r).
Definition Raster_setPlatformData {T} (t : option T) (r : Raster T) : Raster T :=
  mkRaster (refCount r) (constRefCount r) t.

(* ===================================================================== *)
(** ** The plug-in interfaces of natimage.cpp *)
(* ===================================================================== *)

(** [nativeImageTypeManager::acquireFeedback_t] *)
Record acquireFeedback_t := mkFeedback {
  hasDirectlyAcquired : bool;
  hasDirectlyAcquiredPalette : bool
}.

(** What a plug-in call did: it returned [a] or threw (the exception is
    [PluginException code]); either way it leaves the objects it was handed in
    some state [s]. *)
Inductive plugin_result (S A : Type) :=
| PluginReturns (a : A) (s : S)
| PluginThrows (code : nat) (s : S).
Arguments PluginReturns {S A} a s.
Arguments PluginThrows {S A} code s.

(** The virtual methods of [nativeImageTypeManager] that natimage.cpp calls.
    [ImgData] is the codec's payload behind a NativeImage handle, [NativeTex]
    the native texture behind a raster. *)
Class nativeImageTypeManager (ImgData NativeTex : Type) := {
  IsStreamNativeImage : Stream -> plugin_result Stream bool;
  ReadNativeImage : ImgData -> Stream -> plugin_result (ImgData * Stream) unit;
  ReadFromNativeTexture :
    ImgData -> string -> NativeTex -> plugin_result ImgData acquireFeedback_t;
  WriteToNativeTexture :
    ImgData -> string -> NativeTex -> plugin_result (ImgData * NativeTex) acquireFeedback_t;
  ClearImageData : ImgData -> bool -> ImgData;
  ClearPaletteData : ImgData -> bool -> ImgData;
  CopyConstructImage : ImgData -> ImgData;
}.

(** The part of [texNativeTypeProvider] that natimage.cpp uses, together with
    the type name the type system keeps for a native texture. *)
Class texNativeTypeProvider (NativeTex : Type) := {
  nativeTexTypeName : NativeTex -> string;
  UnsetPixelDataFromTexture : NativeTex -> bool -> NativeTex;
}.

(** The plug-in calls an operation made, oldest first. *)
Inductive plugin_call :=
| CallClearPaletteData (deallocate : bool)
| CallClearImageData (deallocate : bool)
| CallReadFromNativeTexture
| CallWriteToNativeTexture
| CallUnsetPixelDataFromTexture (deallocate : bool)
| CallReadNativeImage.

(* ===================================================================== *)
(** ** NativeImagePrivate (natimage.cpp) *)
(* ===================================================================== *)

Record NativeImagePrivate (ImgData : Type) := mkNativeImage {
  hasPaletteDataRef : bool;
  hasPixelDataRef : bool;
  pixelOwner : option RasterPtr;
  externalRasterRef : bool;
  nativeData : ImgData
}.
Arguments mkNativeImage {ImgData} _ _ _ _ _.
Arguments hasPaletteDataRef {ImgData} _.
Arguments hasPixelDataRef {ImgData} _.
Arguments pixelOwner {ImgData} _.
Arguments externalRasterRef {ImgData} _.
Arguments nativeData {ImgData} _.

(** The state one operation on a handle works on: the handle ([this]), the
    rasters it can reach, the stream it was handed (if any), and the record of
    the plug-in calls made so far. *)
Record State (ImgData NativeTex : Type) := mkState {
  this : NativeImagePrivate ImgData;
  rasters : gmap RasterPtr (Raster NativeTex);
  calls : list plugin_call
}.
Arguments mkState {ImgData NativeTex} _ _ _.
Arguments this {ImgData NativeTex} _.
Arguments rasters {ImgData NativeTex} _.
Arguments calls {ImgData NativeTex} _.

Section NativeImage.
Context {ImgData NativeTex : Type}.
Context {typeMan : nativeImageTypeManager ImgData NativeTex}.
Context {rasterTypeMan : texNativeTypeProvider NativeTex}.

Local Abbreviation St := (State ImgData NativeTex).
Local Abbreviation op A := (St -> outcome St A).

Definition set_this (f : NativeImagePrivate ImgData -> NativeImagePrivate ImgData) (s : St) : St :=
  mkState (f (this s)) (rasters s) (calls s).
Definition on_raster (p : RasterPtr) (f : Raster NativeTex -> Raster NativeTex) (s : St) : St :=
  mkState (this s) (alter f p (rasters s)) (calls s).
Definition record_call (c : plugin_call) (s : St) : St :=
  mkState (this s) (rasters s) (calls s ++ [c]).

Definition set_hasPaletteDataRef (b : bool) (i : NativeImagePrivate ImgData) :=
  mkNativeImage b (hasPixelDataRef i) (pixelOwner i) (externalRasterRef i) (nativeData i).
Definition set_hasPixelDataRef (b : bool) (i : NativeImagePrivate ImgData) :=
  mkNativeImage (hasPaletteDataRef i) b (pixelOwner i) (externalRasterRef i) (nativeData i).
Definition set_pixelOwner (o : option RasterPtr) (i : NativeImagePrivate ImgData) :=
  mkNativeImage (hasPaletteDataRef i) (hasPixelDataRef i) o (externalRasterRef i) (nativeData i).
Definition set_externalRasterRef (b : bool) (i : NativeImagePrivate ImgData) :=
  mkNativeImage (hasPaletteDataRef i) (hasPixelDataRef i) (pixelOwner i) b (nativeData i).
Definition set_nativeData (d : ImgData) (i : NativeImagePrivate ImgData) :=
  mkNativeImage (hasPaletteDataRef i) (hasPixelDataRef i) (pixelOwner i) (externalRasterRef i) d.

(** [raster->addConstRef()] and friends, on the raster at address [p]. *)
Definition addConstRef (p : RasterPtr) : St -> St := on_raster p Raster_addConstRef.
Definition remConstRef (p : RasterPtr) : St -> St := on_raster p Raster_remConstRef.
(** [AcquireRaster( raster )] returns its argument; [AcquireRaster( NULL )] is [NULL]. *)
Definition AcquireRaster (p : option RasterPtr) (s : St) : option RasterPtr * St :=
  match p with
  | Some r => (Some r, on_raster r Raster_acquire s)
  | None => (None, s)
  end.
Definition DeleteRaster (p : RasterPtr) : St -> St := on_raster p Raster_delete.

(** [NativeImagePrivate::NativeImagePrivate( EngineInterface* )], natimage.cpp:18-26;
    [d] is the payload [typeMan->ConstructImage] builds next to it. *)
Definition NativeImagePrivate_new (d : ImgData) : NativeImagePrivate ImgData :=
  mkNativeImage false false None false d.

(** [NativeImagePrivate::NativeImagePrivate( const NativeImagePrivate& right )],
    natimage.cpp:28-49, followed by [CopyConstructImage] (natimage.cpp:113).
    [this s] is [right]; the result is the clone and the state it leaves. *)
Definition NativeImagePrivate_copy (s : St) : NativeImagePrivate ImgData * St :=
  let right := this s in
  let hasPaletteDataRef' := hasPaletteDataRef right in
  let hasPixelDataRef' := hasPixelDataRef right in
  let '(pixelOwner', s1) := AcquireRaster (pixelOwner right) s in
  let s2 := match pixelOwner' with
            | Some pixelOwner'' => addConstRef pixelOwner'' s1
            | None => s1
            end in
  let externalRasterRef' := externalRasterRef right in
  (mkNativeImage hasPaletteDataRef' hasPixelDataRef' pixelOwner' externalRasterRef'
     (CopyConstructImage (nativeData right)),
   s2).

(** [NativeImagePrivate::clearImageData], natimage.cpp:194-236. *)
Definition clearImageData (s : St) : St :=
  let shouldFreeNativePaletteData := negb (hasPaletteDataRef (this s)) in
  let s := record_call (CallClearPaletteData shouldFreeNativePaletteData)
             (set_this (fun i => set_nativeData
                (ClearPaletteData (nativeData i) shouldFreeNativePaletteData) i) s) in
  let shouldFreeNativeImageData := negb (hasPixelDataRef (this s)) in
  let s := record_call (CallClearImageData shouldFreeNativeImageData)
             (set_this (fun i => set_nativeData
                (ClearImageData (nativeData i) shouldFreeNativeImageData) i) s) in
  let s := set_this (set_hasPaletteDataRef false) s in
  let s := set_this (set_hasPixelDataRef false) s in
  let s := match pixelOwner (this s) with
           | Some pixelOwner' =>
               let s := if negb (externalRasterRef (this s))
                        then remConstRef pixelOwner' s else s in
               let s := DeleteRaster pixelOwner' s in
               set_this (set_pixelOwner None) s
           | None => s
           end in
  set_this (set_externalRasterRef false) s.

(** [nativeImageTypeInterface::Destruct], natimage.cpp:123-143: the image data
    is cleared before the payload and the handle go; the result is what is left
    of the rasters and the call record. *)
Definition Destruct (s : St) : St := clearImageData s.

(** [NativeImageFetchFromRaster_internal], natimage.cpp:532-569; the result is
    [needsRefOut], which the callers initialise to [false]. *)
Definition NativeImageFetchFromRaster_internal
    (raster : RasterPtr) (nativeTexName : string) (needsRef : bool) : op bool := fun s =>
  match rasters s !! raster with
  | None => Undefined
  | Some R =>
    match platformData R with
    | None => Throws (RwException MsgFetchNoNativeData) s
    | Some nativeTex =>
      let s := record_call CallReadFromNativeTexture s in
      match ReadFromNativeTexture (nativeData (this s)) nativeTexName nativeTex with
      | PluginThrows e d => Throws (PluginException e) (set_this (set_nativeData d) s)
      | PluginReturns acquireFeedback d =>
        let s := set_this (set_nativeData d) s in
        let hasPaletteReference := hasDirectlyAcquiredPalette acquireFeedback in
        let hasMipmapReference := hasDirectlyAcquired acquireFeedback in
        let '(needsRef, s) :=
          if hasPaletteReference || hasMipmapReference
          then let '(o, s) := AcquireRaster (Some raster) s in
               (true, set_this (set_pixelOwner o) s)
          else (needsRef, s) in
        let s := set_this (set_hasPaletteDataRef hasPaletteReference) s in
        let s := set_this (set_hasPixelDataRef hasMipmapReference) s in
        Returns needsRef s
      end
    end
  end.

(** [raster->getNativeDataTypeName()]: the type name of the raster's native
    texture; what it yields for a raster without one is never looked at. *)
Definition getNativeDataTypeName (R : Raster NativeTex) : string :=
  match platformData R with
  | Some t => nativeTexTypeName t
  | None => EmptyString
  end.

(** [NativeImage::fetchFromRaster], natimage.cpp:571-628. *)
Definition fetchFromRaster (raster : RasterPtr) : op unit := fun s =>
  let s := clearImageData s in
  match rasters s !! raster with
  | None => Undefined
  | Some R =>
    let s := addConstRef raster s in
    let needsRef := false in
    bind
      (try_catch_rethrow
         (bind (NativeImageFetchFromRaster_internal raster (getNativeDataTypeName R) needsRef)
               (fun needsRef s => Returns needsRef (set_this (set_externalRasterRef false) s)))
         (remConstRef raster))
      (fun needsRef s =>
         Returns tt (if negb needsRef then remConstRef raster s else s))
      s
  end.

(** [NativeImageFetchFromRasterNoLock], natimage.cpp:630-669; the result is
    [needsRefOut]. *)
Definition NativeImageFetchFromRasterNoLock (raster : RasterPtr) (nativeTexName : string)
    : op bool := fun s =>
  let s := clearImageData s in
  let needsRef := false in
  bind (NativeImageFetchFromRaster_internal raster nativeTexName needsRef)
       (fun needsRef s => Returns needsRef (set_this (set_externalRasterRef true) s))
       s.

(** [NativeImagePutToRaster_internal], natimage.cpp:671-711. *)
Definition NativeImagePutToRaster_internal (raster : RasterPtr) : op unit := fun s =>
  match rasters s !! raster with
  | None => Undefined
  | Some R =>
    match platformData R with
    | None => Throws (RwException MsgPutNoNativeData) s
    | Some nativeTex =>
      let nativeTexName := nativeTexTypeName nativeTex in
      (* Clear the raster from any previous data. *)
      let nativeTex := UnsetPixelDataFromTexture nativeTex true in
      let s := record_call (CallUnsetPixelDataFromTexture true)
                 (on_raster raster (Raster_setPlatformData (Some nativeTex)) s) in
      (* Push the image data from our native image to the raster. *)
      let s := record_call CallWriteToNativeTexture s in
      match WriteToNativeTexture (nativeData (this s)) nativeTexName nativeTex with
      | PluginThrows e (d, t) =>
          Throws (PluginException e) (on_raster raster (Raster_setPlatformData (Some t))
                      (set_this (set_nativeData d) s))
      | PluginReturns acquireFeedback (d, t) =>
          let s := on_raster raster (Raster_setPlatformData (Some t))
                     (set_this (set_nativeData d) s) in
          let isPaletteDataRef := hasDirectlyAcquiredPalette acquireFeedback in
          let isMipmapDataRef := hasDirectlyAcquired acquireFeedback in
          let s := record_call (CallClearPaletteData (negb isPaletteDataRef))
                     (set_this (fun i => set_nativeData
                        (ClearPaletteData (nativeData i) (negb isPaletteDataRef)) i) s) in
          let s := record_call (CallClearImageData (negb isMipmapDataRef))
                     (set_this (fun i => set_nativeData
                        (ClearImageData (nativeData i) (negb isMipmapDataRef)) i) s) in
          Returns tt s
      end
    end
  end.

(** [NativeImage::putToRaster], natimage.cpp:713-744. *)
Definition putToRaster (raster : RasterPtr) : op unit := fun s =>
  match pixelOwner (this s) with
  | Some _ => Throws (RwException MsgAlreadyOwned) s
  | None => NativeImagePutToRaster_internal raster s
  end.

(** [NativeImagePutToRasterNoLock], natimage.cpp:746-771. *)
Definition NativeImagePutToRasterNoLock (raster : RasterPtr) : op unit := fun s =>
  match pixelOwner (this s) with
  | Some _ => Throws (RwException MsgAlreadyOwned) s
  | None => NativeImagePutToRaster_internal raster s
  end.

(** [NativeImage::readFromStream], natimage.cpp:773-799; the stream travels
    beside the state. *)
Definition readFromStream (stream : Stream) (s : St) : outcome (St * Stream) unit :=
  let s := clearImageData s in
  let s := record_call CallReadNativeImage s in
  match ReadNativeImage (nativeData (this s)) stream with
  | PluginThrows e (d, stream') =>
      Throws (PluginException e) (set_this (set_nativeData d) s, stream')
  | PluginReturns _ (d, stream') =>
      let s := set_this (set_nativeData d) s in
      let s := set_this (set_hasPaletteDataRef false) s in
      let s := set_this (set_hasPixelDataRef false) s in
      Returns tt (s, stream')
  end.

End NativeImage.

(* ===================================================================== *)
(** ** A world of handles and rasters *)
(* ===================================================================== *)

Definition ImagePtr := nat.

(** All live NativeImage handles and all rasters.  The observable moments of
    a handle are the states between two operations on the world. *)
Record World (ImgData NativeTex : Type) := mkWorld {
  images : gmap ImagePtr (NativeImagePrivate ImgData);
  heap : gmap RasterPtr (Raster NativeTex)
}.
Arguments mkWorld {ImgData NativeTex} _ _.
Arguments images {ImgData NativeTex} _.
Arguments heap {ImgData NativeTex} _.

(** The methods of a handle that touch its ownership fields. *)
Inductive method :=
| M_fetchFromRaster (raster : RasterPtr)
| M_fetchFromRasterNoLock (raster : RasterPtr) (nativeTexName : string)
| M_putToRaster (raster : RasterPtr)
| M_putToRasterNoLock (raster : RasterPtr)
| M_readFromStream (stream : Stream).

(** What code outside natimage.cpp does to a raster. *)
Inductive raster_action (NativeTex : Type) :=
| A_addConstRef
| A_remConstRef
| A_acquire
| A_delete
| A_setPlatformData (t : option NativeTex).
Arguments A_addConstRef {NativeTex}.
Arguments A_remConstRef {NativeTex}.
Arguments A_acquire {NativeTex}.
Arguments A_delete {NativeTex}.
Arguments A_setPlatformData {NativeTex} t.

Definition run_action {T} (a : raster_action T) : Raster T -> Raster T :=
  match a with
  | A_addConstRef => Raster_addConstRef
  | A_remConstRef => Raster_remConstRef
  | A_acquire => Raster_acquire
  | A_delete => Raster_delete
  | A_setPlatformData t => Raster_setPlatformData t
  end.

(** 1 when the handle borrows from [r] under a const-reference of its own
    ([pixelOwner = r] and [externalRasterRef = false]), else 0. *)
Definition borrows {ImgData} (r : RasterPtr) (i : NativeImagePrivate ImgData) : nat :=
  match pixelOwner i with
  | Some p => if decide (p = r) then (if externalRasterRef i then 0%nat else 1%nat) else 0%nat
  | None => 0%nat
  end.

(** How many handles of the world borrow from [r] under a const-reference of
    their own. *)
Definition internal_borrowers {ImgData} (r : RasterPtr)
    (m : gmap ImagePtr (NativeImagePrivate ImgData)) : nat :=
  map_fold (fun _ i n => (borrows r i + n)%nat) 0%nat m.

Section Worlds.
Context {ImgData NativeTex : Type}.
Context {typeMan : nativeImageTypeManager ImgData NativeTex}.
Context {rasterTypeMan : texNativeTypeProvider NativeTex}.

Local Abbreviation W := (World ImgData NativeTex).
Local Abbreviation St := (State ImgData NativeTex).

(** The state a method of handle [img] starts from: no plug-in call made yet. *)
Definition enter (w : W) (img : NativeImagePrivate ImgData) : St :=
  mkState img (heap w) [].

Definition run_method (m : method) (s : St) : option St :=
  match m with
  | M_fetchFromRaster r => final_state (fetchFromRaster r s)
  | M_fetchFromRasterNoLock r n => final_state (NativeImageFetchFromRasterNoLock r n s)
  | M_putToRaster r => final_state (putToRaster r s)
  | M_putToRasterNoLock r => final_state (NativeImagePutToRasterNoLock r s)
  | M_readFromStream stream => fst <$> final_state (readFromStream stream s)
  end.

(** One operation on the world.  A method call counts whether it returns or
    throws.  Code outside natimage.cpp gives back ([A_remConstRef]) only a
    const-reference that no handle accounts for. *)
Inductive step : W -> W -> Prop :=
| step_CreateNativeImage w i d :
    images w !! i = None ->
    step w (mkWorld (<[i := NativeImagePrivate_new d]> (images w)) (heap w))
| step_CopyConstruct w i j img :
    images w !! i = Some img ->
    images w !! j = None ->
    step w (mkWorld (<[j := fst (NativeImagePrivate_copy (enter w img))]> (images w))
                    (rasters (snd (NativeImagePrivate_copy (enter w img)))))
| step_DeleteNativeImage w i img :
    images w !! i = Some img ->
    step w (mkWorld (delete i (images w)) (rasters (Destruct (enter w img))))
| step_method w i img m s' :
    images w !! i = Some img ->
    run_method m (enter w img) = Some s' ->
    step w (mkWorld (<[i := this s']> (images w)) (rasters s'))
| step_new_raster w p R :
    heap w !! p = None ->
    0 <= constRefCount R ->
    step w (mkWorld (images w) (<[p := R]> (heap w)))
| step_raster_action w p R a :
    heap w !! p = Some R ->
    (a = A_remConstRef -> Z.of_nat (internal_borrowers p (images w)) < constRefCount R) ->
    step w (mkWorld (images w) (<[p := run_action a R]> (heap w))).

Inductive reachable : W -> Prop :=
| reachable_start : reachable (mkWorld ∅ ∅)
| reachable_step w w' : reachable w -> step w w' -> reachable w'.

End Worlds.

(* ===================================================================== *)
(** ** Accounting for const-references *)
(* ===================================================================== *)

Section Accounting.
Context {ImgData NativeTex : Type}.




End Accounting.

(* ===================================================================== *)
(** ** The registry of native image formats (natimage.cpp) *)
(* ===================================================================== *)

(** A [nativeImageTypeManager] as the registry sees it: its [manData] and its
    probe. *)
Record format_manager := mkFormat {
  manData_isRegistered : bool;
  manData_imgType_name : string;       (* [manData.imgType->name], set by the registration *)
  manData_friendlyName : string;
  format_IsStreamNativeImage : Stream -> plugin_result Stream bool
}.

(** [nativeImageEnv]: [natImgType] (here: whether the base type exists),
    the type names registered below it, and [formatsList] in the order in
    which [LIST_FOREACH_BEGIN( ..., formatsList.root, ... )] visits it. *)
Record nativeImageEnv := mkEnv {
  natImgType : bool;
  typeNames : list string;
  formatsList : list format_manager
}.



Section Registration.
(** rwlist.hpp is outside the files at hand: where [LIST_INSERT( root, node )]
    links the node into the list is a parameter.  [LIST_INSERT node l] is the
    visiting order after the insertion into a list visited as [l]. *)
Variable LIST_INSERT : format_manager -> list format_manager -> list format_manager.

(** Modelled from the spec: [RegisterCommonTypeInterface] (the type system is
    outside the files at hand).  Section 4.D: it fails with [TypeNameConflict]
    if [name] already exists under [parent]; otherwise the type is there. *)
Definition RegisterCommonTypeInterface (typeName : string) (names : list string)
    : option (list string) :=
  if decide (typeName ∈ names) then None else Some (typeName :: names).

(** [RegisterNativeImageType], natimage.cpp:831-910: the result and the
    environment it leaves.  The manager enters the list with its [manData]
    filled in. *)
Definition RegisterNativeImageType (imgEnv : option nativeImageEnv)
    (typeManager : format_manager) (typeName friendlyName : string)
    : bool * option nativeImageEnv :=
  match imgEnv with
  | None => (false, None)
  | Some env =>
      if manData_isRegistered typeManager then (false, Some env)
      else if negb (natImgType env) then (false, Some env)
      else match RegisterCommonTypeInterface typeName (typeNames env) with
           | None => (false, Some env)          (* type_name_conflict_exception *)
           | Some names =>
               let typeManager :=
                 mkFormat (manData_isRegistered typeManager) typeName friendlyName
                          (format_IsStreamNativeImage typeManager) in
               (true, Some (mkEnv (natImgType env) names
                                  (LIST_INSERT typeManager (formatsList env))))
           end
  end.

(** Registering a sequence of managers, first to last, each under its name. *)
Fixpoint register_all (imgEnv : option nativeImageEnv)
    (ms : list (format_manager * string)) : option nativeImageEnv :=
  match ms with
  | [] => imgEnv
  | (m, n) :: rest => register_all (snd (RegisterNativeImageType imgEnv m n n)) rest
  end.

End Registration.


(** A probe that reads: it moves the cursor of the stream and leaves its bytes. *)
Definition probe_keeps_content (item : format_manager) : Prop :=
  forall stream,
    match format_IsStreamNativeImage item stream with
    | PluginReturns _ stream' => content stream' = content stream
    | PluginThrows _ stream' => content stream' = content stream
    end.




(* ===================================================================== *)
(** ** The TIFF probe (rwimaging.tiff.cpp) *)
(* ===================================================================== *)

(** The value of a little-endian byte string; a byte is a number 0..255. *)
Fixpoint little_endian (bs : list Z) : Z :=
  match bs with
  | [] => 0
  | b :: rest => b mod 256 + 256 * little_endian rest
  end.
Definition big_endian (bs : list Z) : Z := little_endian (rev bs).

(** [tiff_number_format] *)
Record tiff_number_format := mk_number_format { bigEndian : bool }.

Definition get_uint32 (num : tiff_number_format) (data : list Z) : Z :=
  if bigEndian num then big_endian data else little_endian data.
Definition get_uint16 (num : tiff_number_format) (data : list Z) : Z :=
  if bigEndian num then big_endian data else little_endian data.

(** [len] bytes of a struct from byte offset [off] on. *)
Definition field (off len : nat) (bs : list Z) : list Z := firstn len (skipn off bs).

Definition sizeof_tiff_header : nat := 8.
Definition sizeof_tiff_ifd_entry : nat := 12.

(** [eTIFF_FieldType] *)
Definition FIELD_BYTE : Z := 1.
Definition FIELD_ASCII : Z := 2.
Definition FIELD_SHORT : Z := 3.
Definition FIELD_LONG : Z := 4.
Definition FIELD_RATIONAL : Z := 5.

(** rwimaging.tiff.cpp:196-219 *)
Definition field_item_size_of (field_type : Z) : Z :=
  if field_type =? FIELD_BYTE then 1
  else if field_type =? FIELD_ASCII then 1
  else if field_type =? FIELD_SHORT then 2
  else if field_type =? FIELD_LONG then 4
  else if field_type =? FIELD_RATIONAL then 8
  else 0.

(** rwimaging.tiff.cpp:195-242, on an entry that was read in full: [false]
    is the [return false] of line 239.  [size_t] is 64 bits wide, so
    [field_item_size * numValues] is the exact product. *)
Definition verify_ifd_entry (num : tiff_number_format) (tiff_size : Z) (ifd_entry : list Z) : bool :=
  let field_type := get_uint16 num (field 2 2 ifd_entry) in
  let field_item_size := field_item_size_of field_type in
  if negb (field_item_size =? 0) then
    let numValues := get_uint32 num (field 4 4 ifd_entry) in
    let actualDataSize := field_item_size * numValues in
    if actualDataSize >? 4 then
      let data_start := get_uint32 num (field 8 4 ifd_entry) in
      let hasTheData := data_start + actualDataSize <=? tiff_size in
      hasTheData
    else true
  else true.

(** The [for] loop of rwimaging.tiff.cpp:183-243 with [todo] entries still to
    read: [(false, _)] is a [return false] from inside it. *)
Fixpoint read_dir_entries (num : tiff_number_format) (tiff_size : Z) (todo : nat)
    (inputStream : Stream) : bool * Stream :=
  match todo with
  | O => (true, inputStream)
  | S todo =>
      let '(ifd_entry, inputStream) := read inputStream sizeof_tiff_ifd_entry in
      if negb (length ifd_entry =? sizeof_tiff_ifd_entry)%nat then (false, inputStream)
      else if negb (verify_ifd_entry num tiff_size ifd_entry) then (false, inputStream)
      else read_dir_entries num tiff_size todo inputStream
  end.

(** How one pass of the [while ( true )] loop ends: with a [return false],
    with the [break] behind a zero pointer, or with the seek to the next
    directory. *)
Inductive ifd_verdict :=
| IfdRejected
| IfdLast
| IfdNext (nextIFDPointer : Z).

(** The body of the loop, rwimaging.tiff.cpp:164-266, up to the seek. *)
Definition read_directory (num : tiff_number_format) (tiff_size : Z) (inputStream : Stream)
    : ifd_verdict * Stream :=
  let '(num_dir_entries, inputStream) := read inputStream 2 in
  if negb (length num_dir_entries =? 2)%nat then (IfdRejected, inputStream)
  else
    let dirEntryCount := get_uint16 num num_dir_entries in
    if dirEntryCount =? 0 then (IfdRejected, inputStream)
    else
      match read_dir_entries num tiff_size (Z.to_nat dirEntryCount) inputStream with
      | (false, inputStream) => (IfdRejected, inputStream)
      | (true, inputStream) =>
          (* didHaveAtleastOneIFD = true *)
          let '(next_ifd_pointer, inputStream) := read inputStream 4 in
          if negb (length next_ifd_pointer =? 4)%nat then (IfdRejected, inputStream)
          else
            let nextIFDPointer := get_uint32 num next_ifd_pointer in
            if nextIFDPointer =? 0
            then (* hasTerminatedProperly = true; break *) (IfdLast, inputStream)
            else (IfdNext nextIFDPointer, inputStream)
      end.

(** The [while ( true )] loop of rwimaging.tiff.cpp:162-269 and the two
    checks behind it, which a [break] always passes.  Each unit of [fuel] pays
    for one pass; [None] means the loop is still running when the fuel is
    spent. *)
Fixpoint walk_ifds (fuel : nat) (num : tiff_number_format) (tiff_start tiff_size : Z)
    (inputStream : Stream) : option (bool * Stream) :=
  match fuel with
  | O => None
  | S fuel =>
      match read_directory num tiff_size inputStream with
      | (IfdRejected, inputStream) => Some (false, inputStream)
      | (IfdLast, inputStream) => Some (true, inputStream)
      | (IfdNext nextIFDPointer, inputStream) =>
          walk_ifds fuel num tiff_start tiff_size
            (seek inputStream (tiff_start + nextIFDPointer) RWSEEK_BEG)
      end
  end.

(** rwimaging.tiff.cpp:145-269: the probe once the byte order is known. *)
Definition probe_directories (fuel : nat) (is_big_endian : bool) (tiff_start tiff_size : Z)
    (header : list Z) (inputStream : Stream) : option (bool * Stream) :=
  let num := mk_number_format is_big_endian in
  if negb (get_uint16 num (field 2 2 header) =? 42) then Some (false, inputStream)
  else
    let imageFileDirectoryOffset := get_uint32 num (field 4 4 header) in
    let inputStream := seek inputStream (tiff_start + imageFileDirectoryOffset) RWSEEK_BEG in
    walk_ifds fuel num tiff_start tiff_size inputStream.

(** [tiffImagingExtension::IsStreamCompatible], rwimaging.tiff.cpp:112-285:
    the result and the stream as the probe leaves it.  The two bytes of
    [byte_order] are compared as one [unsigned short]; both constants read
    the same in either byte order of the host. *)
Definition IsStreamCompatible (fuel : nat) (inputStream : Stream) : option (bool * Stream) :=
  let tiff_start := tell inputStream in
  let tiff_size := size inputStream - tiff_start in
  let '(header, inputStream) := read inputStream sizeof_tiff_header in
  if negb (length header =? sizeof_tiff_header)%nat then Some (false, inputStream)
  else
    let byte_order := little_endian (field 0 2 header) in
    if byte_order =? 0x4949
    then probe_directories fuel false tiff_start tiff_size header inputStream
    else if byte_order =? 0x4D4D
    then probe_directories fuel true tiff_start tiff_size header inputStream
    else Some (false, inputStream).

(** *** The TIFF layout, in the words of the specification *)

(** [n] bytes at absolute offset [off], when all of them are inside the data. *)
Definition bytes_at (bytes : list Z) (off : Z) (n : nat) : option (list Z) :=
  let got := bytes_from bytes off n in
  if (length got =? n)%nat then Some got else None.

(** An entry [tag:u16, type:u16, count:u32, data_or_offset:u32] whose type is
    one of BYTE, ASCII, SHORT, LONG, RATIONAL satisfies
    [count * itemSize <= 4] or [data_offset + count * itemSize <= avail]. *)
Definition entry_ok (num : tiff_number_format) (avail : Z) (e : list Z) : Prop :=
  let type := get_uint16 num (field 2 2 e) in
  let count := get_uint32 num (field 4 4 e) in
  let data_offset := get_uint32 num (field 8 4 e) in
  forall itemSize,
    In (type, itemSize) [(FIELD_BYTE, 1); (FIELD_ASCII, 1); (FIELD_SHORT, 2);
                         (FIELD_LONG, 4); (FIELD_RATIONAL, 8)] ->
    count * itemSize <= 4 \/ data_offset + count * itemSize <= avail.

(** An image file directory at absolute offset [off]: a non-zero 16-bit entry
    count, that many 12-byte entries, each in order, and a 32-bit pointer
    [next], all of it inside the data. *)
Definition ifd_at (bytes : list Z) (num : tiff_number_format) (avail : Z) (off : Z) (next : Z)
    : Prop :=
  exists cnt, bytes_at bytes off 2 = Some cnt /\
    let n := get_uint16 num cnt in
    n <> 0 /\
    (forall k, 0 <= k < n ->
       exists e, bytes_at bytes (off + 2 + 12 * k) 12 = Some e /\ entry_ok num avail e) /\
    exists p, bytes_at bytes (off + 2 + 12 * n) 4 = Some p /\ next = get_uint32 num p.

(** The chain of directories from [off] ends with a zero pointer. *)
Inductive ifd_chain (bytes : list Z) (num : tiff_number_format) (start avail : Z) : Z -> Prop :=
| ifd_chain_last off :
    ifd_at bytes num avail off 0 -> ifd_chain bytes num start avail off
| ifd_chain_next off next :
    ifd_at bytes num avail off next -> next <> 0 ->
    ifd_chain bytes num start avail (start + next) ->
    ifd_chain bytes num start avail off.

(** A well-formed TIFF from the cursor of [s] on: the 8-byte header with byte
    order [II] or [MM] and the number 42, and a chain of directories from the
    header's offset; [avail] is the bound the data offsets are held against. *)
Definition well_formed_tiff (avail : Z) (s : Stream) : Prop :=
  exists h, bytes_at (content s) (cursor s) 8 = Some h /\
    let byte_order := little_endian (field 0 2 h) in
    (byte_order = 0x4949 \/ byte_order = 0x4D4D) /\
    let num := mk_number_format (byte_order =? 0x4D4D) in
    get_uint16 num (field 2 2 h) = 42 /\
    ifd_chain (content s) num (cursor s) avail (cursor s + get_uint32 num (field 4 4 h)).

(** The chain of directories from [off] breaks: after finitely many
    directories that are laid out as they should be comes an offset at which
    no such directory lies. *)
Inductive ifd_chain_broken (bytes : list Z) (num : tiff_number_format) (start avail : Z)
    : Z -> Prop :=
| ifd_chain_broken_here off :
    (forall next, ~ ifd_at bytes num avail off next) ->
    ifd_chain_broken bytes num start avail off
| ifd_chain_broken_later off next :
    ifd_at bytes num avail off next -> next <> 0 ->
    ifd_chain_broken bytes num start avail (start + next) ->
    ifd_chain_broken bytes num start avail off.

(** A stream no probe can take for a TIFF, with the reason in reach: the
    header is cut short, names no byte order, lacks the 42, or the chain of
    directories breaks. *)
Definition broken_tiff (avail : Z) (s : Stream) : Prop :=
  bytes_at (content s) (cursor s) 8 = None \/
  exists h, bytes_at (content s) (cursor s) 8 = Some h /\
    let byte_order := little_endian (field 0 2 h) in
    let num := mk_number_format (byte_order =? 0x4D4D) in
    (byte_order <> 0x4949 /\ byte_order <> 0x4D4D) \/
    ((byte_order = 0x4949 \/ byte_order = 0x4D4D) /\ get_uint16 num (field 2 2 h) <> 42) \/
    ((byte_order = 0x4949 \/ byte_order = 0x4D4D) /\ get_uint16 num (field 2 2 h) = 42 /\
     ifd_chain_broken (content s) num (cursor s) avail
       (cursor s + get_uint32 num (field 4 4 h))).

(* ===================================================================== *)
(** ** Pixel formats *)
(* ===================================================================== *)

(** The members of the pixel format enumerations that the modelled code names. *)
Inductive eRasterFormat :=
| RASTER_DEFAULT | RASTER_LUM | RASTER_LUM_ALPHA | RASTER_888 | RASTER_8888.
Inductive eColorOrdering := COLOR_RGBA | COLOR_BGRA | COLOR_ABGR.
Inductive ePaletteType := PALETTE_NONE | PALETTE_4BIT | PALETTE_8BIT.
Inductive eCompressionType := RWCOMPRESS_NONE | RWCOMPRESS_OTHER (id : nat).

#[global] Instance eRasterFormat_eq_dec : EqDecision eRasterFormat.
Proof. solve_decision. Defined.
#[global] Instance eColorOrdering_eq_dec : EqDecision eColorOrdering.
Proof. solve_decision. Defined.
#[global] Instance ePaletteType_eq_dec : EqDecision ePaletteType.
Proof. solve_decision. Defined.
#[global] Instance eCompressionType_eq_dec : EqDecision eCompressionType.
Proof. solve_decision. Defined.

(** A raw pixel layout: the members that the code hands on together
    (raster format, depth, row alignment, colour order, palette type and
    palette size). *)
Record raster_layout := mk_raster_layout {
  rasterFormat : eRasterFormat;
  depth : Z;
  rowAlignment : Z;
  colorOrder : eColorOrdering;
  paletteType : ePaletteType;
  paletteSize : Z
}.

(** Modelled from the spec: [getRasterDataRowSize] (pixelformat.hxx is outside
    the files at hand).  Section 4.A: [rowSize(width, depth, rowAlign) =
    ceil(width * depth / 8)] rounded up to [rowAlign]. *)
Definition getRasterDataRowSize (width depth rowAlignment : Z) : Z :=
  let bytes := (width * depth + 7) / 8 in
  if rowAlignment =? 0 then bytes
  else ((bytes + rowAlignment - 1) / rowAlignment) * rowAlignment.

(** Modelled from the spec: [getPaletteItemCount].  Section 4.A: 16 for 4-bit,
    256 for 8-bit. *)
Definition getPaletteItemCount (t : ePaletteType) : Z :=
  match t with
  | PALETTE_4BIT => 16
  | PALETTE_8BIT => 256
  | PALETTE_NONE => 0
  end.

(** Modelled from the spec: [doRawMipmapBuffersNeedConversion].  Section 4.A:
    true iff any of format, depth, colour order, palette type differ (the row
    alignment is no argument of this overload). *)
Definition doRawMipmapBuffersNeedConversion
    (srcRasterFormat : eRasterFormat) (srcDepth : Z) (srcColorOrder : eColorOrdering)
    (srcPaletteType : ePaletteType)
    (dstRasterFormat : eRasterFormat) (dstDepth : Z) (dstColorOrder : eColorOrdering)
    (dstPaletteType : ePaletteType) : bool :=
  negb (bool_decide (srcRasterFormat = dstRasterFormat)
        && (srcDepth =? dstDepth)
        && bool_decide (srcColorOrder = dstColorOrder)
        && bool_decide (srcPaletteType = dstPaletteType)).

(* ===================================================================== *)
(** ** TIFF decoding: the texel read of DeserializeImage (rwimaging.tiff.cpp) *)
(* ===================================================================== *)

(** libtiff's tag values (tiff.h). *)
Definition PHOTOMETRIC_MINISWHITE : Z := 0.
Definition PHOTOMETRIC_MINISBLACK : Z := 1.
Definition PHOTOMETRIC_RGB : Z := 2.
Definition PHOTOMETRIC_PALETTE : Z := 3.
Definition ORIENTATION_TOPLEFT : Z := 1.

(** What [TIFFGetField] and [TIFFScanlineSize] hand to DeserializeImage, and
    the scanlines [TIFFReadScanline] delivers, top row first. *)
Record tiff_image := mk_tiff_image {
  photometric_type : Z;
  image_width : Z;
  image_length : Z;
  bits_per_sample : Z;
  has_colormap : bool;
  num_extra_samples : Z;
  extra_sample_types : list Z;
  sample_count : Z;
  orientation : Z;
  scanline_size : Z;
  scanlines : list (list Z)
}.

Inductive eTIFF_ParseMode := TPARSEMODE_GRAYSCALE | TPARSEMODE_FULLCOLOR | TPARSEMODE_PALETTE.

(** The locals of rwimaging.tiff.cpp:693-705. *)
Record tiff_mapping := mk_tiff_mapping {
  dstRasterFormat : eRasterFormat;
  dstDepth : Z;
  dstRowAlignment : Z;
  dstColorOrder : eColorOrdering;
  dstPaletteType : ePaletteType;
  dstPaletteSize : Z;
  tiffRasterFormat : eRasterFormat;
  tiffDepth : Z;
  tiffColorOrder : eColorOrdering;
  parseMode : eTIFF_ParseMode;
  hasKnownMapping : bool
}.

Definition set_dst (f : eRasterFormat) (d : Z) (m : tiff_mapping) : tiff_mapping :=
  mk_tiff_mapping f d (dstRowAlignment m) (dstColorOrder m) (dstPaletteType m)
    (dstPaletteSize m) (tiffRasterFormat m) (tiffDepth m) (tiffColorOrder m) (parseMode m)
    (hasKnownMapping m).
Definition set_tiff (f : eRasterFormat) (d : Z) (m : tiff_mapping) : tiff_mapping :=
  mk_tiff_mapping (dstRasterFormat m) (dstDepth m) (dstRowAlignment m) (dstColorOrder m)
    (dstPaletteType m) (dstPaletteSize m) f d (tiffColorOrder m) (parseMode m)
    (hasKnownMapping m).
Definition set_parseMode (p : eTIFF_ParseMode) (m : tiff_mapping) : tiff_mapping :=
  mk_tiff_mapping (dstRasterFormat m) (dstDepth m) (dstRowAlignment m) (dstColorOrder m)
    (dstPaletteType m) (dstPaletteSize m) (tiffRasterFormat m) (tiffDepth m) (tiffColorOrder m)
    p (hasKnownMapping m).
Definition set_palette (t : ePaletteType) (n : Z) (m : tiff_mapping) : tiff_mapping :=
  mk_tiff_mapping (dstRasterFormat m) (dstDepth m) (dstRowAlignment m) (dstColorOrder m)
    t n (tiffRasterFormat m) (tiffDepth m) (tiffColorOrder m) (parseMode m)
    (hasKnownMapping m).

(** rwimaging.tiff.cpp:690 *)
Definition tiff_has_alpha_channel (t : tiff_image) : bool :=
  (num_extra_samples t =? 1)
  && ((nth 0 (extra_sample_types t) 0 =? 1) || (nth 0 (extra_sample_types t) 0 =? 2)).

(** rwimaging.tiff.cpp:693-824.  [dstDepth], [tiffDepth] and [parseMode] are
    declared without an initialiser: [indeterminate] gives what they hold
    until the code assigns them. *)
Definition determine_mapping (indeterminate : Z * Z * eTIFF_ParseMode) (t : tiff_image)
    : tiff_mapping :=
  let '(dstDepth0, tiffDepth0, parseMode0) := indeterminate in
  let m := mk_tiff_mapping RASTER_DEFAULT dstDepth0 4 COLOR_RGBA PALETTE_NONE 0
             RASTER_DEFAULT tiffDepth0 COLOR_RGBA parseMode0 true in
  let alpha := tiff_has_alpha_channel t in
  let m :=
    if orientation t =? ORIENTATION_TOPLEFT then
      if (photometric_type t =? PHOTOMETRIC_MINISWHITE)
         || (photometric_type t =? PHOTOMETRIC_MINISBLACK) then
        if (bits_per_sample t =? 4) || (bits_per_sample t =? 8) then
          if (num_extra_samples t =? 0) || alpha then
            let m :=
              if alpha then
                let m := set_dst RASTER_LUM_ALPHA 16 m in
                if photometric_type t =? PHOTOMETRIC_MINISBLACK
                then set_tiff RASTER_LUM_ALPHA (bits_per_sample t * 2) m else m
              else
                let m := set_dst RASTER_LUM 8 m in
                if photometric_type t =? PHOTOMETRIC_MINISBLACK
                then set_tiff RASTER_LUM (bits_per_sample t) m else m in
            set_parseMode TPARSEMODE_GRAYSCALE m
          else m
        else m
      else if photometric_type t =? PHOTOMETRIC_RGB then
        if bits_per_sample t =? 8 then
          if (num_extra_samples t =? 0) || alpha then
            let m :=
              if alpha then set_tiff RASTER_8888 8 (set_dst RASTER_8888 32 m)
              else set_tiff RASTER_888 24 (set_dst RASTER_888 24 m) in
            set_parseMode TPARSEMODE_FULLCOLOR m
          else m
        else m
      else if photometric_type t =? PHOTOMETRIC_PALETTE then
        if (bits_per_sample t =? 4) || (bits_per_sample t =? 8) then
          if has_colormap t then
            if num_extra_samples t =? 0 then
              let m := set_dst RASTER_888 (bits_per_sample t) m in
              let m := if bits_per_sample t =? 4 then set_palette PALETTE_4BIT 0 m
                       else if bits_per_sample t =? 8 then set_palette PALETTE_8BIT 0 m
                       else m in
              let m := set_palette (dstPaletteType m) (getPaletteItemCount (dstPaletteType m)) m in
              let m := set_parseMode TPARSEMODE_PALETTE m in
              set_tiff RASTER_888 24 m
            else m
          else m
        else m
      else m
    else m in
  if bool_decide (dstRasterFormat m = RASTER_DEFAULT) then
    mk_tiff_mapping RASTER_8888 32 (dstRowAlignment m) (tiffColorOrder m) (dstPaletteType m)
      (dstPaletteSize m) (tiffRasterFormat m) (tiffDepth m) (tiffColorOrder m)
      TPARSEMODE_FULLCOLOR false
  else m.

(** rwimaging.tiff.cpp:870-896: [canTexelsDirectlyAcquire]. *)
Definition canTexelsDirectlyAcquire (m : tiff_mapping) (scanline_size dstRowSize : Z) : bool :=
  if scanline_size =? dstRowSize then
    if bool_decide (dstPaletteType m = PALETTE_NONE) then
      let canColorDirectlyAcquire :=
        doRawMipmapBuffersNeedConversion
          (tiffRasterFormat m) (tiffDepth m) (tiffColorOrder m) PALETTE_NONE
          (dstRasterFormat m) (dstDepth m) (dstColorOrder m) PALETTE_NONE in
      canColorDirectlyAcquire
    else true
  else false.

(** The unsigned 8-bit value an [int] expression is stored as. *)
Definition to_uint8 (v : Z) : Z := v mod 256.

(** [read_tiff_grayscale], rwimaging.tiff.cpp:432-517: [None] is
    [hasRead == false].  A 4-bit pair of bit-fields takes the low nibble
    first. *)
Definition read_tiff_grayscale (rowData : list Z) (index : nat) (photometric_type : Z)
    (bits_per_sample : Z) (has_alpha_channel : bool) : option (Z * Z) :=
  if (photometric_type =? PHOTOMETRIC_MINISWHITE)
     || (photometric_type =? PHOTOMETRIC_MINISBLACK) then
    if bits_per_sample =? 4 then
      let '(lumval, alphaval) :=
        if has_alpha_channel then
          let colorData := nth index rowData 0 in
          (colorData mod 16, colorData / 16)
        else
          let colorData := nth (index / 2) rowData 0 in
          ((if (index mod 2 =? 0)%nat then colorData mod 16 else colorData / 16), 15) in
      let lum := to_uint8 (lumval * 255 / 15) in
      let alpha := to_uint8 (alphaval * 255 / 15) in
      let lum := if photometric_type =? PHOTOMETRIC_MINISWHITE then to_uint8 (255 - lum) else lum in
      Some (lum, alpha)
    else if bits_per_sample =? 8 then
      if has_alpha_channel
      then Some (nth (2 * index) rowData 0, nth (2 * index + 1) rowData 0)
      else Some (nth index rowData 0, 255)
    else None
  else None.

(** [read_tiff_color], rwimaging.tiff.cpp:519-564. *)
Definition read_tiff_color (rowData : list Z) (index : nat) (photometric_type : Z)
    (bits_per_sample : Z) (has_alpha_channel : bool) : option (Z * Z * Z * Z) :=
  if photometric_type =? PHOTOMETRIC_RGB then
    if bits_per_sample =? 8 then
      if negb has_alpha_channel
      then Some (nth (3 * index) rowData 0, nth (3 * index + 1) rowData 0,
                 nth (3 * index + 2) rowData 0, 0xFF)
      else Some (nth (4 * index) rowData 0, nth (4 * index + 1) rowData 0,
                 nth (4 * index + 2) rowData 0, nth (4 * index + 3) rowData 0)
    else None
  else None.

(** What ends up in one column of a destination row. *)
Inductive texel :=
| Luminance (lum alpha : Z)          (* [putDispatch.setLuminance( dstRowData, col, lum, alpha )] *)
| Color (r g b a : Z)                (* [putDispatch.setRGBA( dstRowData, col, r, g, b, a )] *)
| PaletteItem (col : nat).           (* [copyPaletteItemGeneric] of item [col] *)

(** How a destination row was filled. *)
Inductive dst_row :=
| ReadDirectly (scanline : list Z)        (* [TIFFReadScanline( tif, dstRowData, row )] *)
| Transformed (texels : list texel).      (* through [scanlineBuf], column by column *)

(** rwimaging.tiff.cpp:940-988: one column of the transform loop. *)
Definition transform_column (t : tiff_image) (m : tiff_mapping) (scanlineBuf : list Z)
    (col : nat) : texel :=
  match parseMode m with
  | TPARSEMODE_GRAYSCALE =>
      match read_tiff_grayscale scanlineBuf col (photometric_type t) (bits_per_sample t)
              (tiff_has_alpha_channel t) with
      | Some (lum, alpha) => Luminance lum alpha
      | None => Luminance 0 0
      end
  | TPARSEMODE_FULLCOLOR =>
      match read_tiff_color scanlineBuf col (photometric_type t) (bits_per_sample t)
              (tiff_has_alpha_channel t) with
      | Some (r, g, b, a) => Color r g b a
      | None => Color 0 0 0 0
      end
  | TPARSEMODE_PALETTE => PaletteItem col
  end.

(** rwimaging.tiff.cpp:860-999, the branch [hasKnownMapping]: the rows of the
    destination buffer, given that every [TIFFReadScanline] succeeds. *)
Definition read_texels (t : tiff_image) (m : tiff_mapping) : outcome unit (list dst_row) :=
  if scanline_size t =? 0 then Throws (RwException MsgTiffZeroScanline) tt
  else
    let dstRowSize := getRasterDataRowSize (image_width t) (dstDepth m) (dstRowAlignment m) in
    let rows := seq 0 (Z.to_nat (image_length t)) in
    if canTexelsDirectlyAcquire m (scanline_size t) dstRowSize
    then Returns (map (fun row => ReadDirectly (nth row (scanlines t) [])) rows) tt
    else Returns (map (fun row =>
                         let scanlineBuf := nth row (scanlines t) [] in
                         Transformed (map (transform_column t m scanlineBuf)
                                          (seq 0 (Z.to_nat (image_width t)))))
                      rows) tt.

(** rwimaging.tiff.cpp:1337-1355, in SerializeImage: [canDirectlyWrite], the
    counterpart of [canTexelsDirectlyAcquire] on the way out. *)
Definition canDirectlyWrite (src tiff : raster_layout) (srcRowSize tiffRowSize : Z) : bool :=
  if negb (bool_decide (paletteType tiff = PALETTE_NONE)) then
    bool_decide (paletteType tiff = paletteType src) && (depth tiff =? depth src)
    && (srcRowSize =? tiffRowSize)
  else
    negb (doRawMipmapBuffersNeedConversion
            (rasterFormat src) (depth src) (colorOrder src) (paletteType src)
            (rasterFormat tiff) (depth tiff) (colorOrder tiff) (paletteType tiff))
    && (tiffRowSize =? srcRowSize).

(* ===================================================================== *)
(** ** The PowerVR native texture provider (txdwrite.pvr.cpp) *)
(* ===================================================================== *)




(** [ePVRInternalFormat]: the four PVRTC formats, and any other value the
    field may hold. *)
Inductive ePVRInternalFormat :=
| GL_COMPRESSED_RGB_PVRTC_4BPPV1_IMG
| GL_COMPRESSED_RGB_PVRTC_2BPPV1_IMG
| GL_COMPRESSED_RGBA_PVRTC_4BPPV1_IMG
| GL_COMPRESSED_RGBA_PVRTC_2BPPV1_IMG
| GL_OTHER (value : Z).

(** pvrtexlib's [EPVRTPixelFormat], as far as it is named. *)
Inductive EPVRTPixelFormat :=
| ePVRTPF_PVRTCI_2bpp_RGB | ePVRTPF_PVRTCI_2bpp_RGBA
| ePVRTPF_PVRTCI_4bpp_RGB | ePVRTPF_PVRTCI_4bpp_RGBA.

(** [getPVRCompressionTypeFromInternalFormat], txdwrite.pvr.cpp:145-172:
    [None] is [return false]. *)
Definition getPVRCompressionTypeFromInternalFormat (internalFormat : ePVRInternalFormat)
    : option EPVRTPixelFormat :=
  match internalFormat with
  | GL_COMPRESSED_RGB_PVRTC_4BPPV1_IMG => Some ePVRTPF_PVRTCI_4bpp_RGB
  | GL_COMPRESSED_RGB_PVRTC_2BPPV1_IMG => Some ePVRTPF_PVRTCI_2bpp_RGB
  | GL_COMPRESSED_RGBA_PVRTC_4BPPV1_IMG => Some ePVRTPF_PVRTCI_4bpp_RGBA
  | GL_COMPRESSED_RGBA_PVRTC_2BPPV1_IMG => Some ePVRTPF_PVRTCI_2bpp_RGBA
  | GL_OTHER _ => None
  end.

(** Modelled from the spec: [getDepthByPVRFormat] (txdread.pvr.hxx is outside
    the files at hand).  Section 4.G.2: depth 2 for the 2BPPV1 formats, 4 for
    the 4BPPV1 formats; nothing is said of other values, here 0. *)
Definition getDepthByPVRFormat (internalFormat : ePVRInternalFormat) : Z :=
  match internalFormat with
  | GL_COMPRESSED_RGB_PVRTC_2BPPV1_IMG | GL_COMPRESSED_RGBA_PVRTC_2BPPV1_IMG => 2
  | GL_COMPRESSED_RGB_PVRTC_4BPPV1_IMG | GL_COMPRESSED_RGBA_PVRTC_4BPPV1_IMG => 4
  | GL_OTHER _ => 0
  end.

(** [getPVRCompressionBlockDimensions], txdwrite.pvr.cpp:483-499: [None] is
    the throw. *)
Definition getPVRCompressionBlockDimensions (pvrDepth : Z) : option (Z * Z) :=
  if pvrDepth =? 2 then Some (16, 8)
  else if pvrDepth =? 4 then Some (8, 8)
  else None.

(** Modelled from the spec: [ALIGN_SIZE].  Section 4.G.2: compressed layer
    dimensions are [ceil(dim / blockDim) * blockDim]. *)
Definition ALIGN_SIZE (dim blockDim : Z) : Z := ((dim + blockDim - 1) / blockDim) * blockDim.

(** The value of a [uint32] expression. *)
Definition to_uint32 (v : Z) : Z := v mod 2 ^ 32.

(** [pixelDataTraversal::mipmapResource] and [NativeTexturePVR::mipmapLayer]
    have the same members; [Texels] stands for a texel buffer. *)
Record mipmapLayer (Texels : Type) := mk_mipmapLayer {
  width : Z;
  height : Z;
  layerWidth : Z;
  layerHeight : Z;
  texels : Texels;
  dataSize : Z
}.
Arguments mk_mipmapLayer {Texels} _ _ _ _ _ _.
Arguments width {Texels} _.
Arguments height {Texels} _.
Arguments layerWidth {Texels} _.
Arguments layerHeight {Texels} _.
Arguments texels {Texels} _.
Arguments dataSize {Texels} _.

(** [pixelDataTraversal], the members SetPixelDataToTexture reads. *)
Record pixelDataTraversal (Texels : Type) := mk_pixelDataTraversal {
  mipmaps : list (mipmapLayer Texels);
  layout : raster_layout;
  paletteData : option Texels;
  compressionType : eCompressionType;
  hasAlpha : bool
}.
Arguments mk_pixelDataTraversal {Texels} _ _ _ _ _.
Arguments mipmaps {Texels} _.
Arguments layout {Texels} _.
Arguments paletteData {Texels} _.
Arguments compressionType {Texels} _.
Arguments hasAlpha {Texels} _.

(** [NativeTexturePVR] *)
Record NativeTexturePVR (Texels : Type) := mk_NativeTexturePVR {
  pvr_mipmaps : list (mipmapLayer Texels);
  pvr_internalFormat : ePVRInternalFormat;
  pvr_hasAlpha : bool;
  pvr_unk1 : Z;
  pvr_unk8 : Z
}.
Arguments mk_NativeTexturePVR {Texels} _ _ _ _ _.
Arguments pvr_mipmaps {Texels} _.
Arguments pvr_internalFormat {Texels} _.
Arguments pvr_hasAlpha {Texels} _.
Arguments pvr_unk1 {Texels} _.
Arguments pvr_unk8 {Texels} _.

(** What SetPixelDataToTexture relies on from outside the files at hand: the
    platform's mipmap size rules ([getPVRNativeTextureSizeRules] with
    [nativeTextureSizeRules::verifyPixelData]), the transcoder of pvrtexlib
    applied to the padded copy that [CompressMipmapToPVR] builds from a source
    layer, and [getPackedRasterDataSize]. *)
Class pvrEnvironment (Texels : Type) := {
  verifyPixelData : pixelDataTraversal Texels -> bool;
  Transcode :
    EPVRTPixelFormat -> Z -> Z -> raster_layout -> option Texels -> Texels -> Z -> Z -> Texels;
  getPackedRasterDataSize : Z -> Z -> Z
}.

(** The outcome of SetPixelDataToTexture.  [PvrAborts]: the [assert] of
    txdwrite.pvr.cpp:507 fails.  [PvrUndefined]: [pixelsIn.mipmaps[ 0 ]] on an
    empty vector. *)
Inductive pvr_outcome (Texels : Type) :=
| PvrReturns (pvrTex : NativeTexturePVR Texels) (feedbackOut : acquireFeedback_t)
| PvrThrows (e : exn) (pvrTex : NativeTexturePVR Texels)
| PvrAborts
| PvrUndefined.
Arguments PvrReturns {Texels} _ _.
Arguments PvrThrows {Texels} _ _.
Arguments PvrAborts {Texels}.
Arguments PvrUndefined {Texels}.

Section PVR.
Context {Texels : Type} `{pvrEnvironment Texels}.

(** [CompressMipmapToPVR], txdwrite.pvr.cpp:394-481, with the arguments
    SetPixelDataToTexture passes: the compressed layer for one source layer. *)
Definition CompressMipmapToPVR (src : raster_layout) (srcPaletteData : option Texels)
    (pvrDstPixelType : EPVRTPixelFormat) (pvrBlockWidth pvrBlockHeight pvrBlockDepth : Z)
    (mipLayer : mipmapLayer Texels) : mipmapLayer Texels :=
  let mipWidth := width mipLayer in
  let mipHeight := height mipLayer in
  let pvrTexWidth := to_uint32 (ALIGN_SIZE mipWidth pvrBlockWidth) in
  let pvrTexHeight := to_uint32 (ALIGN_SIZE mipHeight pvrBlockHeight) in
  let dstDataSize := getPackedRasterDataSize (to_uint32 (pvrTexWidth * pvrTexHeight)) pvrBlockDepth in
  let dstTexels := Transcode pvrDstPixelType pvrTexWidth pvrTexHeight src srcPaletteData
                     (texels mipLayer) mipWidth mipHeight in
  mk_mipmapLayer pvrTexWidth pvrTexHeight (layerWidth mipLayer) (layerHeight mipLayer)
    dstTexels dstDataSize.

(** txdwrite.pvr.cpp:535-563: the internal format to compress to. *)
Definition choose_internalFormat (hasAlpha : bool) (mainMipLayer : mipmapLayer Texels)
    : ePVRInternalFormat :=
  let canBeCompressedHigh :=
    to_uint32 (layerWidth mainMipLayer * layerHeight mainMipLayer) >=? 100 * 100 in
  if hasAlpha then
    if canBeCompressedHigh then GL_COMPRESSED_RGBA_PVRTC_2BPPV1_IMG
    else GL_COMPRESSED_RGBA_PVRTC_4BPPV1_IMG
  else
    if canBeCompressedHigh then GL_COMPRESSED_RGB_PVRTC_2BPPV1_IMG
    else GL_COMPRESSED_RGB_PVRTC_4BPPV1_IMG.

(** [pvrNativeTextureTypeProvider::SetPixelDataToTexture],
    txdwrite.pvr.cpp:501-649. *)
Definition SetPixelDataToTexture (pvrTex : NativeTexturePVR Texels)
    (pixelsIn : pixelDataTraversal Texels) (feedbackOut : acquireFeedback_t)
    : pvr_outcome Texels :=
  if negb (bool_decide (compressionType pixelsIn = RWCOMPRESS_NONE)) then PvrAborts
  else if negb (verifyPixelData pixelsIn)
  then PvrThrows (RwException MsgPvrInvalidMipmapDimensions) pvrTex
  else
    let hasAlpha' := hasAlpha pixelsIn in
    let pvrTex := mk_NativeTexturePVR (pvr_mipmaps pvrTex) (pvr_internalFormat pvrTex)
                    hasAlpha' (pvr_unk1 pvrTex) (pvr_unk8 pvrTex) in
    match mipmaps pixelsIn with
    | [] => PvrUndefined
    | mainMipLayer :: _ =>
      let internalFormat := choose_internalFormat hasAlpha' mainMipLayer in
      match getPVRCompressionTypeFromInternalFormat internalFormat with
      | None => PvrThrows (RwException MsgPvrUnknownInternalFormat) pvrTex
      | Some compressionPixelType =>
        let pvrDepth := getDepthByPVRFormat internalFormat in
        match getPVRCompressionBlockDimensions pvrDepth with
        | None => PvrThrows (RwException MsgPvrUnknownCompressionDepth) pvrTex
        | Some (pvrBlockWidth, pvrBlockHeight) =>
          let newLayers :=
            map (CompressMipmapToPVR (layout pixelsIn) (paletteData pixelsIn)
                   compressionPixelType pvrBlockWidth pvrBlockHeight pvrDepth)
                (mipmaps pixelsIn) in
          let pvrTex := mk_NativeTexturePVR newLayers internalFormat
                          (pvr_hasAlpha pvrTex) (pvr_unk1 pvrTex) (pvr_unk8 pvrTex) in
          PvrReturns pvrTex
            (mkFeedback false (hasDirectlyAcquiredPalette feedbackOut))
        end
      end
    end.

(** [pvrNativeTextureTypeProvider::UnsetPixelDataFromTexture],
    txdwrite.pvr.cpp:651-663. *)
Definition pvr_UnsetPixelDataFromTexture (nativeTex : NativeTexturePVR Texels)
    (deallocate : bool) : NativeTexturePVR Texels :=
  mk_NativeTexturePVR [] (pvr_internalFormat nativeTex) (pvr_hasAlpha nativeTex)
    (pvr_unk1 nativeTex) (pvr_unk8 nativeTex).

End PVR.

(* ===================================================================== *)
(** ** NativeImage: what a handle holds of a raster *)
(* ===================================================================== *)

(** The two reference counts of a raster. *)
Definition counts {NativeTex} (R : Raster NativeTex) : Z * Z := (refCount R, constRefCount R).

(** The handle's two data-reference flags say that it has a [pixelOwner]:
    one of them is set exactly when [pixelOwner] is not [NULL]. *)
Definition references_match_owner {ImgData} (img : NativeImagePrivate ImgData) : Prop :=
  hasPaletteDataRef img || hasPixelDataRef img = true <-> is_Some (pixelOwner img).

(* ===================================================================== *)
(** ** A stream inside a larger stream *)
(* ===================================================================== *)

(** The stream [s] with the bytes [pre] in front of its own: every position
    of [s] lies [length pre] further on. *)
Definition embedded (pre : list Z) (s : Stream) : Stream :=
  mkStream (pre ++ content s) (Z.of_nat (length pre) + cursor s).

(** The stream [s] with the bytes [post] behind its own. *)
Definition followed_by (post : list Z) (s : Stream) : Stream :=
  mkStream (content s ++ post) (cursor s).

(** What the probe yields on [s], seen from the stream that has [pre] in
    front. *)
Definition embedded_result (pre : list Z) (r : option (bool * Stream)) : option (bool * Stream) :=
  match r with
  | Some (b, s') => Some (b, embedded pre s')
  | None => None
  end.

(* ===================================================================== *)
(** ** TIFF: the tags of a known mapping, palettes, and what SerializeImage writes *)
(* ===================================================================== *)

(** The three families of tags for which DeserializeImage has a mapping of
    its own (rwimaging.tiff.cpp:708-806), each under top-left orientation. *)
Definition grayscale_tags (t : tiff_image) : Prop :=
  (photometric_type t = PHOTOMETRIC_MINISWHITE \/ photometric_type t = PHOTOMETRIC_MINISBLACK) /\
  (bits_per_sample t = 4 \/ bits_per_sample t = 8) /\
  (num_extra_samples t = 0 \/ tiff_has_alpha_channel t = true).
Definition fullcolor_tags (t : tiff_image) : Prop :=
  photometric_type t = PHOTOMETRIC_RGB /\ bits_per_sample t = 8 /\
  (num_extra_samples t = 0 \/ tiff_has_alpha_channel t = true).
Definition palette_tags (t : tiff_image) : Prop :=
  photometric_type t = PHOTOMETRIC_PALETTE /\
  (bits_per_sample t = 4 \/ bits_per_sample t = 8) /\
  has_colormap t = true /\ num_extra_samples t = 0.

(** The unsigned 16-bit value an [int] expression is stored as. *)
Definition to_uint16 (v : Z) : Z := v mod 65536.

(** rwimaging.tiff.cpp:1019-1021, in DeserializeImage: a 16-bit colormap
    sample scaled down to 8 bits.  The operands are not negative, so the
    division of C and the division of [Z] agree. *)
Definition colormap_sample_to_8bit (sample : Z) : Z := to_uint8 (sample * 255 / 65535).

(** rwimaging.tiff.cpp:1281-1283, in SerializeImage: an 8-bit colour
    component scaled up to a 16-bit colormap sample. *)
Definition colormap_sample_from_8bit (component : Z) : Z := to_uint16 (component * 65535 / 255).

(** rwimaging.tiff.cpp:1001-1027: the palette DeserializeImage stores, item
    [n] from the [n]-th samples of the three colormap arrays. *)
Definition read_colormap (colormap_red colormap_green colormap_blue : list Z)
    (dstPaletteSize : nat) : list texel :=
  map (fun n =>
         let red := nth n colormap_red 0 in
         let green := nth n colormap_green 0 in
         let blue := nth n colormap_blue 0 in
         let r := colormap_sample_to_8bit red in
         let g := colormap_sample_to_8bit green in
         let b := colormap_sample_to_8bit blue in
         let a := 255 in
         Color r g b a)
      (seq 0 dstPaletteSize).

(** rwimaging.tiff.cpp:1265-1289: the three colormap arrays SerializeImage
    fills; [getRGBA n] is [palFetchDispatch.getRGBA( srcPaletteData, n, ... )],
    [None] when it reports no colour. *)
Definition write_colormap (getRGBA : nat -> option (Z * Z * Z * Z)) (tiffPaletteSize : nat)
    : list Z * list Z * list Z :=
  let colors :=
    map (fun n => match getRGBA n with
                  | Some (r, g, b, a) => (r, g, b)
                  | None => (0, 0, 0)
                  end) (seq 0 tiffPaletteSize) in
  (map (fun c => colormap_sample_from_8bit (fst (fst c))) colors,
   map (fun c => colormap_sample_from_8bit (snd (fst c))) colors,
   map (fun c => colormap_sample_from_8bit (snd c)) colors).


(** [eColorModel] as far as SerializeImage names it, and any other member. *)
Inductive eColorModel := COLORMODEL_RGBA | COLORMODEL_LUMINANCE | COLORMODEL_OTHER (id : nat).


Section Serialization.
(** pixelformat.hxx is outside the files at hand: what it says about a raster
    format is a parameter. *)
Variable canRasterFormatHaveAlpha : eRasterFormat -> bool.
Variable getColorModelFromRasterFormat : eRasterFormat -> eColorModel.


End Serialization.


(* ===================================================================== *)
(** ** The PowerVR provider: pixel data out, single layers, serialisation, reports *)
(* ===================================================================== *)

(** The [RwException] messages of the functions of this part. *)
Inductive pvr_message :=
| MsgPvrNoMipmapLayers                     (* txdwrite.pvr.cpp:61 *)
| MsgPvrNoTargetRasterFormat               (* txdwrite.pvr.cpp:284 *)
| MsgPvrDecompressUnknownInternalFormat    (* txdwrite.pvr.cpp:316 and :728 *)
| MsgPvrMipmapManagerDecompress            (* txdwrite.pvr.cpp:817 *)
| MsgPvrCompress (m : rw_message).         (* txdwrite.pvr.cpp:845 and :497 *)

Definition pvr_message_text (m : pvr_message) : string :=
  match m with
  | MsgPvrNoMipmapLayers => "attempt to write PowerVR native texture which has no mipmap layers"
  | MsgPvrNoTargetRasterFormat => "failed to determine raster format for PVR texture decompression"
  | MsgPvrDecompressUnknownInternalFormat => "failed to decompress PVRTC due to unknown internalFormat"
  | MsgPvrMipmapManagerDecompress => "failed to decompress in PVR native texture mipmap manager"
  | MsgPvrCompress m => message_text m
  end.

(** What a function of this part does: it throws ([inl]) or returns ([inr]). *)
Definition pvr_result (A : Type) : Type := pvr_message + A.

(** [getPVRTargetRasterFormat], txdwrite.pvr.cpp:266-286: raster format,
    depth and colour order to decode to; [None] is the throw. *)
Definition getPVRTargetRasterFormat (internalFormat : ePVRInternalFormat)
    : option (eRasterFormat * Z * eColorOrdering) :=
  match internalFormat with
  | GL_COMPRESSED_RGB_PVRTC_4BPPV1_IMG | GL_COMPRESSED_RGB_PVRTC_2BPPV1_IMG =>
      Some (RASTER_888, 32, COLOR_RGBA)
  | GL_COMPRESSED_RGBA_PVRTC_4BPPV1_IMG | GL_COMPRESSED_RGBA_PVRTC_2BPPV1_IMG =>
      Some (RASTER_8888, 32, COLOR_RGBA)
  | GL_OTHER _ => None
  end.

(** What decoding relies on from outside the files at hand:
    [getPVRExportTextureDataRowAlignment] and [getRasterDataSizeByRowSize];
    the transcoder of pvrtexlib followed by the copy loop of
    [DecompressPVRMipmap] (txdwrite.pvr.cpp:183-251), which yields the raw
    texels of a layer; and [ConvertMipmapLayerNative], which brings a
    compressed layer to a raw one ([None]: it reports no change). *)
Class pvrDecoding (Texels : Type) := {
  getPVRExportTextureDataRowAlignment : Z;
  getRasterDataSizeByRowSize : Z -> Z -> Z;
  DecodeTexels :
    EPVRTPixelFormat -> Z -> Z -> Z -> Z -> Texels ->
    eRasterFormat -> Z -> Z -> eColorOrdering -> Texels;
  ConvertMipmapLayerNative :
    mipmapLayer Texels -> raster_layout -> option Texels -> eCompressionType ->
    raster_layout -> option (Z * Z * Texels * Z)
}.

(** The members of [pixelDataTraversal] that [pixelDataTraversal] above
    leaves out. *)
Record pixelDataTraversal_flags := mk_traversal_flags {
  cubeTexture : bool;
  autoMipmaps : bool;
  rasterType : Z;
  isNewlyAllocated : bool
}.

(** [nativeTextureBatchedInfo] *)
Record nativeTextureBatchedInfo := mk_batched_info {
  info_mipmapCount : Z;
  info_baseWidth : Z;
  info_baseHeight : Z
}.

(** [pvr::textureMetaHeaderGeneric] as SerializeTexture fills it;
    [textureInfo] stands for what [formatInfo.set] and
    [writeStringIntoBufferSafe] make of the texture's filtering, name and
    mask name. *)
Record textureMetaHeaderGeneric (TextureInfo : Type) := mk_metaHeader {
  header_textureInfo : TextureInfo;
  header_mipmapCount : Z;
  header_unk1 : Z;
  header_hasAlpha : bool;
  header_pad2 : Z;
  header_width : Z;
  header_height : Z;
  header_internalFormat : ePVRInternalFormat;
  header_imageDataStreamSize : Z;
  header_unk8 : Z
}.
Arguments mk_metaHeader {TextureInfo} _ _ _ _ _ _ _ _ _ _.
Arguments header_textureInfo {TextureInfo} _.
Arguments header_mipmapCount {TextureInfo} _.
Arguments header_unk1 {TextureInfo} _.
Arguments header_hasAlpha {TextureInfo} _.
Arguments header_pad2 {TextureInfo} _.
Arguments header_width {TextureInfo} _.
Arguments header_height {TextureInfo} _.
Arguments header_internalFormat {TextureInfo} _.
Arguments header_imageDataStreamSize {TextureInfo} _.
Arguments header_unk8 {TextureInfo} _.

(** What SerializeTexture does on the output, in order. *)
Inductive serialize_step (TextureInfo Texels : Type) :=
| StepEnterContext
| StepWriteHeader (metaHeader : textureMetaHeaderGeneric TextureInfo)
| StepWriteUInt32 (value : Z)
| StepWrite (texels : Texels) (size : Z)
| StepLeaveContext
| StepSerializeExtensions.
Arguments StepEnterContext {TextureInfo Texels}.
Arguments StepWriteHeader {TextureInfo Texels} _.
Arguments StepWriteUInt32 {TextureInfo Texels} _.
Arguments StepWrite {TextureInfo Texels} _ _.
Arguments StepLeaveContext {TextureInfo Texels}.
Arguments StepSerializeExtensions {TextureInfo Texels}.

(** The number of bytes a step adds to the image data section, which is what
    follows the header in the block. *)
Definition image_data_bytes {TextureInfo Texels} (step : serialize_step TextureInfo Texels) : Z :=
  match step with
  | StepWriteUInt32 _ => 4
  | StepWrite _ size => size
  | _ => 0
  end.

Definition total_image_data_bytes {TextureInfo Texels}
    (steps : list (serialize_step TextureInfo Texels)) : Z :=
  fold_right Z.add 0 (map image_data_bytes steps).

(** The unsigned 8-bit value a [size_t] is cast to. *)
Definition to_uint8_count (n : nat) : Z := Z.of_nat n mod 256.

(** [strncpy( buf, src, n )] of the C library: exactly [n] characters are
    written, those of [src] and then NULs; what lies behind them in [buf]
    stays. *)
Definition strncpy (buf : list Ascii.ascii) (src : string) (n : nat) : list Ascii.ascii :=
  firstn n (list_ascii_of_string src ++ repeat Ascii.zero n) ++ skipn n buf.

Section PVRMore.
Context {Texels : Type} {environment : pvrEnvironment Texels} {decoding : pvrDecoding Texels}.

(** [DecompressPVRMipmap], txdwrite.pvr.cpp:174-264, with the arguments its
    two callers pass: the raw texels and their size, given that the
    transcoder succeeds (the [assert] of line 194) and that the allocation
    and the colour dispatchers do not throw. *)
Definition DecompressPVRMipmap (mipWidth mipHeight layerWidth layerHeight : Z)
    (srcTexels : Texels) (targetRasterFormat : eRasterFormat)
    (targetDepth targetRowAlignment : Z) (targetColorOrder : eColorOrdering)
    (pvrSrcPixelType : EPVRTPixelFormat) : Texels * Z :=
  let dstRowSize := getRasterDataRowSize layerWidth targetDepth targetRowAlignment in
  let dstDataSize := getRasterDataSizeByRowSize dstRowSize layerHeight in
  let dstTexels := DecodeTexels pvrSrcPixelType mipWidth mipHeight layerWidth layerHeight
                     srcTexels targetRasterFormat targetDepth targetRowAlignment
                     targetColorOrder in
  (dstTexels, dstDataSize).

(** [pvrNativeTextureTypeProvider::GetPixelDataFromTexture],
    txdwrite.pvr.cpp:288-392. *)
Definition GetPixelDataFromTexture (platformTex : NativeTexturePVR Texels)
    : pvr_result (pixelDataTraversal Texels * pixelDataTraversal_flags) :=
  let internalFormat := pvr_internalFormat platformTex in
  let targetRowAlignment := getPVRExportTextureDataRowAlignment in
  match getPVRTargetRasterFormat internalFormat with
  | None => inl MsgPvrNoTargetRasterFormat
  | Some (targetRasterFormat, targetDepth, targetColorOrder) =>
    match getPVRCompressionTypeFromInternalFormat internalFormat with
    | None => inl MsgPvrDecompressUnknownInternalFormat
    | Some compressionPixelType =>
      let newLayers :=
        map (fun mipLayer =>
               let '(dstTexels, dstDataSize) :=
                 DecompressPVRMipmap (width mipLayer) (height mipLayer)
                   (layerWidth mipLayer) (layerHeight mipLayer) (texels mipLayer)
                   targetRasterFormat targetDepth targetRowAlignment targetColorOrder
                   compressionPixelType in
               mk_mipmapLayer (layerWidth mipLayer) (layerHeight mipLayer)
                 (layerWidth mipLayer) (layerHeight mipLayer) dstTexels dstDataSize)
            (pvr_mipmaps platformTex) in
      inr (mk_pixelDataTraversal newLayers
             (mk_raster_layout targetRasterFormat targetDepth targetRowAlignment
                targetColorOrder PALETTE_NONE 0)
             None RWCOMPRESS_NONE (pvr_hasAlpha platformTex),
           mk_traversal_flags false false 4 true)
    end
  end.

(** [pvrMipmapManager::Deinternalize], txdwrite.pvr.cpp:688-775: the raw
    layer, its layout, compression type and alpha flag, and the two flags
    [isNewlyAllocatedOut] and [isPaletteNewlyAllocated]. *)
Definition Deinternalize (nativeTex : NativeTexturePVR Texels) (mipLayer : mipmapLayer Texels)
    : pvr_result (mipmapLayer Texels * raster_layout * eCompressionType * bool * bool * bool) :=
  let internalFormat := pvr_internalFormat nativeTex in
  let targetRowAlignment := getPVRExportTextureDataRowAlignment in
  match getPVRTargetRasterFormat internalFormat with
  | None => inl MsgPvrNoTargetRasterFormat
  | Some (targetRasterFormat, targetDepth, targetColorOrder) =>
    match getPVRCompressionTypeFromInternalFormat internalFormat with
    | None => inl MsgPvrDecompressUnknownInternalFormat
    | Some compressionPixelType =>
      let '(dstTexels, dstDataSize) :=
        DecompressPVRMipmap (width mipLayer) (height mipLayer)
          (layerWidth mipLayer) (layerHeight mipLayer) (texels mipLayer)
          targetRasterFormat targetDepth targetRowAlignment targetColorOrder
          compressionPixelType in
      inr (mk_mipmapLayer (layerWidth mipLayer) (layerHeight mipLayer)
             (layerWidth mipLayer) (layerHeight mipLayer) dstTexels dstDataSize,
           mk_raster_layout targetRasterFormat targetDepth targetRowAlignment
             targetColorOrder PALETTE_NONE 0,
           RWCOMPRESS_NONE, pvr_hasAlpha nativeTex, true, false)
    end
  end.

(** [pvrMipmapManager::Internalize], txdwrite.pvr.cpp:777-893: the layer to
    store and [hasDirectlyAcquiredOut].  [layer] holds the width, height,
    layer width, layer height, texels and data size passed in. *)
Definition Internalize (nativeTex : NativeTexturePVR Texels) (layer : mipmapLayer Texels)
    (src : raster_layout) (paletteData : option Texels) (compressionType : eCompressionType)
    (hasAlpha : bool) : pvr_result (mipmapLayer Texels * bool) :=
  let internalFormat := pvr_internalFormat nativeTex in
  let raw :=
    if negb (bool_decide (compressionType = RWCOMPRESS_NONE)) then
      let target := mk_raster_layout RASTER_8888 32 4 COLOR_RGBA PALETTE_NONE 0 in
      match ConvertMipmapLayerNative layer src paletteData compressionType target with
      | None => inl MsgPvrMipmapManagerDecompress
      | Some (width', height', srcTexels', dataSize') =>
          inr (mk_mipmapLayer width' height' (layerWidth layer) (layerHeight layer)
                 srcTexels' dataSize',
               target, None)
      end
    else inr (layer, src, paletteData) in
  match raw with
  | inl m => inl m
  | inr (layer, src, paletteData) =>
    match getPVRCompressionTypeFromInternalFormat internalFormat with
    | None => inl (MsgPvrCompress MsgPvrUnknownInternalFormat)
    | Some compressionPixelType =>
      let pvrDepth := getDepthByPVRFormat internalFormat in
      match getPVRCompressionBlockDimensions pvrDepth with
      | None => inl (MsgPvrCompress MsgPvrUnknownCompressionDepth)
      | Some (pvrBlockWidth, pvrBlockHeight) =>
          inr (CompressMipmapToPVR src paletteData compressionPixelType
                 pvrBlockWidth pvrBlockHeight pvrDepth layer,
               false)
      end
    end
  end.

(** [pvrNativeTextureTypeProvider::GetTextureInfo], txdwrite.pvr.cpp:931-950. *)
Definition GetTextureInfo (nativeTex : NativeTexturePVR Texels) : nativeTextureBatchedInfo :=
  let mipmapCount := length (pvr_mipmaps nativeTex) in
  let '(baseWidth, baseHeight) :=
    match pvr_mipmaps nativeTex with
    | mainLayer :: _ => (layerWidth mainLayer, layerHeight mainLayer)
    | [] => (0, 0)
    end in
  mk_batched_info (to_uint32 (Z.of_nat mipmapCount)) baseWidth baseHeight.

(** [pvrNativeTextureTypeProvider::GetTextureFormatString],
    txdwrite.pvr.cpp:952-984: the buffer ([None] is a null [buf]) and
    [lengthOut]. *)
Definition formatString (internalFormat : ePVRInternalFormat) : string :=
  ("PVR " ++
   match internalFormat with
   | GL_COMPRESSED_RGB_PVRTC_2BPPV1_IMG => "RGB 2bit"
   | GL_COMPRESSED_RGBA_PVRTC_2BPPV1_IMG => "RGBA 2bit"
   | GL_COMPRESSED_RGB_PVRTC_4BPPV1_IMG => "RGB 4bit"
   | GL_COMPRESSED_RGBA_PVRTC_4BPPV1_IMG => "RGBA 4bit"
   | GL_OTHER _ => EmptyString
   end)%string.

Definition GetTextureFormatString (nativeTex : NativeTexturePVR Texels)
    (buf : option (list Ascii.ascii)) (bufLen : nat) : option (list Ascii.ascii) * nat :=
  let formatString := formatString (pvr_internalFormat nativeTex) in
  (match buf with
   | Some buf => Some (strncpy buf formatString bufLen)
   | None => None
   end,
   String.length formatString).

(** The loop of txdwrite.pvr.cpp:97-107, computed in [uint32]. *)
Definition imageDataSectionSize (mipmaps : list (mipmapLayer Texels)) : Z :=
  fold_left (fun imageDataSectionSize mipLayer =>
               let mipDataSize := to_uint32 (dataSize mipLayer) in
               let imageDataSectionSize := to_uint32 (imageDataSectionSize + mipDataSize) in
               to_uint32 (imageDataSectionSize + 4))
            mipmaps 0.

(** [pvrNativeTextureTypeProvider::SerializeTexture], txdwrite.pvr.cpp:50-143:
    what it does on the output block, given that no write throws. *)
Definition SerializeTexture {TextureInfo : Type} (theTexture : TextureInfo)
    (platformTex : NativeTexturePVR Texels)
    : pvr_result (list (serialize_step TextureInfo Texels)) :=
  let mipmapCount := length (pvr_mipmaps platformTex) in
  match pvr_mipmaps platformTex with
  | [] => inl MsgPvrNoMipmapLayers
  | mainLayer :: _ =>
      let metaHeader :=
        mk_metaHeader theTexture (to_uint8_count mipmapCount) (pvr_unk1 platformTex)
          (pvr_hasAlpha platformTex) 0 (layerWidth mainLayer) (layerHeight mainLayer)
          (pvr_internalFormat platformTex) (imageDataSectionSize (pvr_mipmaps platformTex))
          (pvr_unk8 platformTex) in
      inr ([StepEnterContext; StepWriteHeader metaHeader]
           ++ map (fun mipLayer => StepWriteUInt32 (to_uint32 (dataSize mipLayer)))
                  (pvr_mipmaps platformTex)
           ++ map (fun mipLayer => StepWrite (texels mipLayer) (to_uint32 (dataSize mipLayer)))
                  (pvr_mipmaps platformTex)
           ++ [StepLeaveContext; StepSerializeExtensions])
  end.

End PVRMore.

(* ===================================================================== *)
(** ** Stream compression (streamcompress.cpp) *)
(* ===================================================================== *)

(** The virtual methods of [compressionManager] and [compressionProvider]
    and the two calls into the file system that streamcompress.cpp makes;
    all are declared outside the files at hand.  A [CFile] is taken as a
    [Stream], its bytes and its seek pointer: [Seek( 0, SEEK_SET )] is
    [seek _ 0 RWSEEK_BEG].  [Decompress] leaves the two files it is handed,
    [compressed] and [decFile], in some state.  [None] is a null pointer. *)
Class compressionEnvironment (Manager Provider Repository : Type) := {
  IsStreamCompressed : Manager -> Stream -> plugin_result Stream bool;
  CreateProvider : Manager -> plugin_result unit (option Provider);
  Decompress : Provider -> Stream -> Stream -> plugin_result (Stream * Stream) bool;
  GenerateTempRepository : option Repository;
  GenerateRandomFile : Repository -> option Stream
}.

(** [streamCompressionEnv]: the registered managers, in the order of the
    vector, and the temporary root. *)
Record streamCompressionEnv (Manager Repository : Type) := mk_streamCompressionEnv {
  compressors : list Manager;
  tmpRoot : option Repository
}.
Arguments mk_streamCompressionEnv {Manager Repository} _ _.
Arguments compressors {Manager Repository} _.
Arguments tmpRoot {Manager Repository} _.

(** What CreateDecompressedStream creates and destroys, oldest first. *)
Inductive resource_op (Manager Provider : Type) :=
| OpGenerateRandomFile
| OpCreateProvider (theManager : Manager) (compressor : Provider)
| OpDestroyProvider (theManager : Manager) (compressor : Provider)
| OpDeleteDecFile
| OpDeleteCompressed.
Arguments OpGenerateRandomFile {Manager Provider}.
Arguments OpCreateProvider {Manager Provider} _ _.
Arguments OpDestroyProvider {Manager Provider} _ _.
Arguments OpDeleteDecFile {Manager Provider}.
Arguments OpDeleteCompressed {Manager Provider}.

(** The file CreateDecompressedStream returns: [compressed], the handle it
    was passed, or a new [CTemporaryFile] around [decFile]. *)
Inductive resultFile (Repository : Type) :=
| ResultCompressed
| ResultTemporary (sourceTrans : Repository) (actualFile : Stream).
Arguments ResultCompressed {Repository}.
Arguments ResultTemporary {Repository} _ _.

(** What a call of CreateDecompressedStream leaves: the environment, the
    file [compressed] as it stands (as it last stood, if it was deleted),
    and what was created and destroyed. *)
Record decompression_state (Manager Provider Repository : Type) := mk_decompression_state {
  st_env : option (streamCompressionEnv Manager Repository);
  st_compressed : Stream;
  st_ops : list (resource_op Manager Provider)
}.
Arguments mk_decompression_state {Manager Provider Repository} _ _ _.
Arguments st_env {Manager Provider Repository} _.
Arguments st_compressed {Manager Provider Repository} _.
Arguments st_ops {Manager Provider Repository} _.

(** How many of [ops] are of the kind [kind]; the kinds of operation. *)
Definition count_ops {Manager Provider} (kind : resource_op Manager Provider -> bool)
    (ops : list (resource_op Manager Provider)) : nat :=
  length (List.filter kind ops).

Definition generates_file {Manager Provider} (op : resource_op Manager Provider) : bool :=
  match op with OpGenerateRandomFile => true | _ => false end.
Definition creates_provider {Manager Provider} (op : resource_op Manager Provider) : bool :=
  match op with OpCreateProvider _ _ => true | _ => false end.
Definition destroys_provider {Manager Provider} (op : resource_op Manager Provider) : bool :=
  match op with OpDestroyProvider _ _ => true | _ => false end.
Definition deletes_decFile {Manager Provider} (op : resource_op Manager Provider) : bool :=
  match op with OpDeleteDecFile => true | _ => false end.
Definition deletes_compressed {Manager Provider} (op : resource_op Manager Provider) : bool :=
  match op with OpDeleteCompressed => true | _ => false end.

Section StreamCompression.
Context {Manager Provider Repository : Type} {manager_eq_dec : EqDecision Manager}
        {compression : compressionEnvironment Manager Provider Repository}.

Local Abbreviation Env := (streamCompressionEnv Manager Repository).
Local Abbreviation DState := (decompression_state Manager Provider Repository).

(** [streamCompressionEnv::GetRepository], streamcompress.cpp:26-40. *)
Definition GetRepository (env : Env) : option Repository * Env :=
  match tmpRoot env with
  | Some tmpRoot => (Some tmpRoot, env)
  | None =>
      let tmpRoot := GenerateTempRepository in
      (tmpRoot, mk_streamCompressionEnv (compressors env) tmpRoot)
  end.

(** The loop of CreateDecompressedStream, streamcompress.cpp:167-185, over
    the managers still to visit: [theManager] and [needsStreamReset] as the
    loop leaves them. *)
Fixpoint find_compressor (managers : list Manager) (needsStreamReset : bool)
    (compressed : Stream) : outcome Stream (option Manager * bool) :=
  match managers with
  | [] => Returns (None, needsStreamReset) compressed
  | manager :: rest =>
      let compressed :=
        if needsStreamReset then seek compressed 0 RWSEEK_BEG else compressed in
      match IsStreamCompressed manager compressed with
      | PluginThrows e compressed => Throws (PluginException e) compressed
      | PluginReturns isCorrectFormat compressed =>
          if isCorrectFormat then Returns (Some manager, true) compressed
          else find_compressor rest true compressed
      end
  end.

(** [CreateDecompressedStream], streamcompress.cpp:154-265; [env] is [None]
    when the main window has no stream compression environment. *)
Definition CreateDecompressedStream (env : option Env) (compressed : Stream)
    : outcome DState (resultFile Repository) :=
  match env with
  | None => Returns ResultCompressed (mk_decompression_state None compressed [])
  | Some env =>
    match find_compressor (compressors env) false compressed with
    | Undefined => Undefined
    | Throws e compressed => Throws e (mk_decompression_state (Some env) compressed [])
    | Returns (theManager, needsStreamReset) compressed =>
      let compressed :=
        if needsStreamReset then seek compressed 0 RWSEEK_BEG else compressed in
      match theManager with
      | None => Returns ResultCompressed (mk_decompression_state (Some env) compressed [])
      | Some theManager =>
        let '(repo, env) := GetRepository env in
        match repo with
        | None => Returns ResultCompressed (mk_decompression_state (Some env) compressed [])
        | Some repo =>
          match GenerateRandomFile repo with
          | None => Returns ResultCompressed (mk_decompression_state (Some env) compressed [])
          | Some decFile =>
            match CreateProvider theManager with
            | PluginThrows e _ =>
                Throws (PluginException e)
                  (mk_decompression_state (Some env) compressed
                     [OpGenerateRandomFile; OpDeleteDecFile])
            | PluginReturns None _ =>
                Returns ResultCompressed
                  (mk_decompression_state (Some env) compressed
                     [OpGenerateRandomFile; OpDeleteDecFile])
            | PluginReturns (Some compressor) _ =>
              match Decompress compressor compressed decFile with
              | PluginThrows e (compressed, decFile) =>
                  Throws (PluginException e)
                    (mk_decompression_state (Some env) compressed
                       [OpGenerateRandomFile; OpCreateProvider theManager compressor;
                        OpDestroyProvider theManager compressor; OpDeleteDecFile])
              | PluginReturns couldDecompress (compressed, decFile) =>
                  if couldDecompress then
                    let decFile := seek decFile 0 RWSEEK_BEG in
                    Returns (ResultTemporary repo decFile)
                      (mk_decompression_state (Some env) compressed
                         [OpGenerateRandomFile; OpCreateProvider theManager compressor;
                          OpDeleteCompressed; OpDestroyProvider theManager compressor])
                  else
                    let compressed := seek compressed 0 RWSEEK_BEG in
                    Returns ResultCompressed
                      (mk_decompression_state (Some env) compressed
                         [OpGenerateRandomFile; OpCreateProvider theManager compressor;
                          OpDestroyProvider theManager compressor; OpDeleteDecFile])
              end
            end
          end
        end
      end
    end
  end.

(** [RegisterStreamCompressionManager], streamcompress.cpp:267-279. *)
Definition RegisterStreamCompressionManager (env : option Env) (manager : Manager)
    : bool * option Env :=
  match env with
  | Some env =>
      (true, Some (mk_streamCompressionEnv (compressors env ++ [manager]) (tmpRoot env)))
  | None => (false, None)
  end.

(** [std::find] followed by [erase] of what it found: the vector without the
    first element equal to [manager]; [None] when [find] reaches [end()]. *)
Fixpoint find_and_erase (manager : Manager) (compressors : list Manager)
    : option (list Manager) :=
  match compressors with
  | [] => None
  | m :: rest =>
      if decide (m = manager) then Some rest
      else match find_and_erase manager rest with
           | Some rest => Some (m :: rest)
           | None => None
           end
  end.

(** [UnregisterStreamCompressionManager], streamcompress.cpp:281-299. *)
Definition UnregisterStreamCompressionManager (env : option Env) (manager : Manager)
    : bool * option Env :=
  match env with
  | Some env =>
      match find_and_erase manager (compressors env) with
      | Some compressors => (true, Some (mk_streamCompressionEnv compressors (tmpRoot env)))
      | None => (false, Some env)
      end
  | None => (false, None)
  end.

End StreamCompression.

(* ===================================================================== *)
(** ** Plug-ins for the examples *)
(* ===================================================================== *)

(** The four ownership fields of a handle, and their empty state. *)
Definition ownership {ImgData} (i : NativeImagePrivate ImgData)
    : bool * bool * option RasterPtr * bool :=
  (hasPaletteDataRef i, hasPixelDataRef i, pixelOwner i, externalRasterRef i).
Definition empty_ownership : bool * bool * option RasterPtr * bool :=
  (false, false, None, false).

(** A codec over payloads of bytes that lends and borrows whole buffers: it
    acquires the raster's texels directly and hands its own over directly. *)
Definition sharing_codec : nativeImageTypeManager (list Z) (NativeTexturePVR (list Z)) := {|
  IsStreamNativeImage := fun s => PluginReturns false s;
  ReadNativeImage := fun d s => PluginReturns tt (content s, s);
  ReadFromNativeTexture := fun d _ t =>
    PluginReturns (mkFeedback true false) (concat (map texels (pvr_mipmaps t)));
  WriteToNativeTexture := fun d _ t =>
    PluginReturns (mkFeedback true false)
      (d, mk_NativeTexturePVR [mk_mipmapLayer 8 8 8 8 d 32] (pvr_internalFormat t)
            (pvr_hasAlpha t) (pvr_unk1 t) (pvr_unk8 t));
  ClearImageData := fun d _ => [];
  ClearPaletteData := fun d _ => d;
  CopyConstructImage := fun d => d
|}.

(** A codec that supports no native texture: reading from one and writing to
    one throw and touch nothing. *)
Definition refusing_codec : nativeImageTypeManager (list Z) (NativeTexturePVR (list Z)) := {|
  IsStreamNativeImage := fun s => PluginReturns false s;
  ReadNativeImage := fun d s => PluginThrows 1 (d, s);
  ReadFromNativeTexture := fun d _ t => PluginThrows 2 d;
  WriteToNativeTexture := fun d _ t => PluginThrows 3 (d, t);
  ClearImageData := fun d _ => [];
  ClearPaletteData := fun d _ => d;
  CopyConstructImage := fun d => d
|}.

(** The PowerVR provider as natimage.cpp reaches it. *)
Definition pvr_provider : texNativeTypeProvider (NativeTexturePVR (list Z)) := {|
  nativeTexTypeName := fun _ => "PowerVR"%string;
  UnsetPixelDataFromTexture := fun t deallocate =>
    mk_NativeTexturePVR [] (pvr_internalFormat t) (pvr_hasAlpha t) (pvr_unk1 t) (pvr_unk8 t)
|}.

(** A PowerVR texture with one 8x8 layer, and a raster holding it, owned once
    and not pinned. *)
Definition sample_texture : NativeTexturePVR (list Z) :=
  mk_NativeTexturePVR [mk_mipmapLayer 8 8 8 8 [1; 2; 3; 4] 32]
    GL_COMPRESSED_RGBA_PVRTC_4BPPV1_IMG true 0 0.
Definition sample_raster : Raster (NativeTexturePVR (list Z)) :=
  mkRaster 1 0 (Some sample_texture).

(** An empty handle next to the sample raster at address 0. *)
Definition sample_state : State (list Z) (NativeTexturePVR (list Z)) :=
  mkState (NativeImagePrivate_new [9; 9]) {[ 0%nat := sample_raster ]} [].

(** The same handle after it borrowed from raster 0 through the NoLock
    variant, the caller having pinned the raster. *)
Definition borrowed_state : State (list Z) (NativeTexturePVR (list Z)) :=
  mkState (mkNativeImage false true (Some 0%nat) true [1; 2; 3; 4])
          {[ 0%nat := mkRaster 2 1 (Some sample_texture) ]} [].

(** Worlds: raster 0 alone; an empty handle beside it; the handle after
    [fetchFromRaster] with [sharing_codec]. *)
Definition borrowing_world : World (list Z) (NativeTexturePVR (list Z)) :=
  mkWorld {[ 0%nat := mkNativeImage false true (Some 0%nat) false [1; 2; 3; 4] ]}
          {[ 0%nat := mkRaster 2 1 (Some sample_texture) ]}.

Definition world_with_raster : World (list Z) (NativeTexturePVR (list Z)) :=
  mkWorld ∅ {[ 0%nat := sample_raster ]}.
Definition world_with_handle : World (list Z) (NativeTexturePVR (list Z)) :=
  mkWorld {[ 0%nat := NativeImagePrivate_new [9; 9] ]} {[ 0%nat := sample_raster ]}.

(** A probe that reads as many bytes as [magic] has and compares. *)
Definition header_probe (magic : list Z) (stream : Stream) : plugin_result Stream bool :=
  let '(got, stream) := read stream (length magic) in
  PluginReturns (bool_decide (got = magic)) stream.

(** Two managers not yet registered, with the names to register them under,
    and a stream that holds the second one's magic at its cursor. *)
Definition sample_formats : list (format_manager * string) :=
  [ (mkFormat false "" "" (header_probe [68; 68; 83; 32]), "DDS"%string);
    (mkFormat false "" "" (header_probe [80; 86; 82; 33]), "PVR"%string) ].
Definition sample_stream : Stream := mkStream [0; 0; 80; 86; 82; 33; 0; 0; 0] 2.

(** The stream of the specification's first scenario: [II], 42, the directory
    at offset 8 with one entry (tag 256, SHORT, count 1) and a null pointer. *)
Definition scenario_tiff : Stream :=
  mkStream [0x49; 0x49; 0x2A; 0; 8; 0; 0; 0;
            1; 0;
            0; 1; 3; 0; 1; 0; 0; 0; 0; 0; 1; 0;
            0; 0; 0; 0] 0.

(** The same file with the pointer behind its directory set to 8, the offset
    of that very directory: a chain that never reaches a null pointer. *)
Definition cyclic_tiff : Stream :=
  mkStream [0x49; 0x49; 0x2A; 0; 8; 0; 0; 0;
            1; 0;
            0; 1; 3; 0; 1; 0; 0; 0; 0; 0; 1; 0;
            8; 0; 0; 0] 0.



(** A 4x1 grayscale image, 8 bits per sample, no extra samples, top-left
    orientation, whose one scanline is [10; 20; 30; 40]; [photometric] says
    whether zero is white or black. *)
Definition gray_tiff (photometric : Z) : tiff_image :=
  mk_tiff_image photometric 4 1 8 false 0 [] 1 ORIENTATION_TOPLEFT 4 [[10; 20; 30; 40]].

(** Size rules for the examples: every layer is between 1 and 2048 pixels
    wide and high; a transcoder that stands for pvrtexlib; the packed size of
    [n] items of [d] bits. *)
Definition sample_pvr_environment : pvrEnvironment (list Z) := {|
  verifyPixelData := fun p =>
    forallb (fun l => (1 <=? layerWidth l) && (layerWidth l <=? 2048)
                      && (1 <=? layerHeight l) && (layerHeight l <=? 2048)) (mipmaps p);
  Transcode := fun fmt w h src pal texels mipWidth mipHeight => texels;
  getPackedRasterDataSize := fun n d => (n * d + 7) / 8
|}.

(** The 8x8 RGBA raster of the specification's third scenario, and one with
    a layer 4096 pixels wide. *)
Definition scenario_pixels : pixelDataTraversal (list Z) :=
  mk_pixelDataTraversal [mk_mipmapLayer 8 8 8 8 [1; 2; 3] 256]
    (mk_raster_layout RASTER_8888 32 4 COLOR_RGBA PALETTE_NONE 0) None RWCOMPRESS_NONE true.
Definition empty_pvr_texture : NativeTexturePVR (list Z) :=
  mk_NativeTexturePVR [] (GL_OTHER 0) false 0 0.

(** A decoder for the examples: rows aligned to 4 bytes, the data size of
    [h] rows, a transcoder that hands the texels on, and a conversion that
    always reports no change. *)
Definition sample_pvr_decoding : pvrDecoding (list Z) := {|
  getPVRExportTextureDataRowAlignment := 4;
  getRasterDataSizeByRowSize := fun rowSize h => rowSize * h;
  DecodeTexels := fun fmt w h lw lh texels rf d a co => texels;
  ConvertMipmapLayerNative := fun layer src pal ct target => None
|}.

(** Stream compression for the examples: managers, providers and
    repositories are numbers; a manager accepts a stream whose next byte is
    its number; a provider copies the bytes of the stream into the new
    file. *)
Definition sample_compression : compressionEnvironment nat nat nat := {|
  IsStreamCompressed := fun manager s =>
    let '(got, s') := read s 1 in
    PluginReturns (bool_decide (got = [Z.of_nat manager])) s';
  CreateProvider := fun manager => PluginReturns (Some manager) tt;
  Decompress := fun compressor compressed decFile =>
    PluginReturns true (seek compressed 0 RWSEEK_END,
                        mkStream (content compressed) (size compressed));
  GenerateTempRepository := Some 0%nat;
  GenerateRandomFile := fun repo => Some (mkStream [] 0)
|}.



(* ===================================================================== *)
(** * Properties *)
(* ===================================================================== *)

(** ** NativeImage: ownership across fetch and put *)

Section NativeImageFacts.
Context {ImgData NativeTex : Type}.
Context {typeMan : nativeImageTypeManager ImgData NativeTex}.
Context {rasterTypeMan : texNativeTypeProvider NativeTex}.

Local Abbreviation St := (State ImgData NativeTex).

Lemma ownership_set_nativeData (d : ImgData) (i : NativeImagePrivate ImgData) :
  ownership (set_nativeData d i) = ownership i.
Proof. reflexivity. Qed.

Lemma this_on_raster p f (s : St) : this (on_raster p f s) = this s.
Proof. reflexivity. Qed.

Lemma this_record_call c (s : St) : this (record_call c s) = this s.
Proof. reflexivity. Qed.

Lemma rasters_set_this f (s : St) : rasters (set_this f s) = rasters s.
Proof. reflexivity. Qed.

Lemma rasters_record_call c (s : St) : rasters (record_call c s) = rasters s.
Proof. reflexivity. Qed.

(** After [clearImageData] all four ownership fields are in their empty state;
    the [assert( nativeImg->pixelOwner == NULL )] behind each call holds. *)
Lemma clearImageData_empty (s : St) : ownership (this (clearImageData s)) = empty_ownership.
Proof.
  destruct s as [[pal pix [p|] ext d] rs cs]; unfold clearImageData; cbn;
    destruct ext; reflexivity.
Qed.

(** What [clearImageData] does to the rasters: the owner, if any, loses one
    owning reference, and one const-reference unless the reference is external. *)
Lemma clearImageData_rasters (s : St) :
  rasters (clearImageData s) =
  match pixelOwner (this s) with
  | Some p =>
      alter Raster_delete p
        (if externalRasterRef (this s) then rasters s else alter Raster_remConstRef p (rasters s))
  | None => rasters s
  end.
Proof.
  destruct s as [[pal pix [p|] ext d] rs cs]; unfold clearImageData; cbn;
    destruct ext; reflexivity.
Qed.

Lemma fetch_internal_throws raster name needsRef (s s' : St) e :
  NativeImageFetchFromRaster_internal raster name needsRef s = Throws e s' ->
  ownership (this s') = ownership (this s) /\ rasters s' = rasters s.
Proof.
  unfold NativeImageFetchFromRaster_internal.
  destruct (rasters s !! raster) as [R|]; [|discriminate].
  destruct (platformData R) as [tex|].
  - cbn. destruct (ReadFromNativeTexture _ _ _) as [fb d|code d].
    + destruct (hasDirectlyAcquiredPalette fb || hasDirectlyAcquired fb); discriminate.
    + intros [= <- <-]. split; reflexivity.
  - intros [= <- <-]. split; reflexivity.
Qed.

Lemma putToRaster_internal_throws raster (s s' : St) e :
  NativeImagePutToRaster_internal raster s = Throws e s' ->
  ownership (this s') = ownership (this s).
Proof.
  unfold NativeImagePutToRaster_internal.
  destruct (rasters s !! raster) as [R|]; [|discriminate].
  destruct (platformData R) as [tex|].
  - cbn. destruct (WriteToNativeTexture _ _ _) as [fb [d t]|code [d t]].
    + discriminate.
    + intros [= <- <-]. reflexivity.
  - intros [= <- <-]. reflexivity.
Qed.

End NativeImageFacts.

Section Counting.
Context {ImgData : Type}.
Implicit Types m : gmap ImagePtr (NativeImagePrivate ImgData).





End Counting.

Section Surplus.
Context {ImgData NativeTex : Type}.
Context {typeMan : nativeImageTypeManager ImgData NativeTex}.
Context {rasterTypeMan : texNativeTypeProvider NativeTex}.

Local Abbreviation St := (State ImgData NativeTex).

Lemma clearImageData_pixelOwner (s : St) : pixelOwner (this (clearImageData s)) = None.
Proof. exact (f_equal (fun o => snd (fst o)) (clearImageData_empty s)). Qed.

Lemma clearImageData_externalRasterRef (s : St) :
  externalRasterRef (this (clearImageData s)) = false.
Proof. exact (f_equal snd (clearImageData_empty s)). Qed.



Lemma fetch_internal_surplus raster name needsRef (s s' : St) :
  pixelOwner (this s) = None ->
  final_state (NativeImageFetchFromRaster_internal raster name needsRef s) = Some s' ->
  (pixelOwner (this s') = None /\ rasters s' = rasters s /\
   externalRasterRef (this s') = externalRasterRef (this s) /\
   thrown (NativeImageFetchFromRaster_internal raster name needsRef s) <> None
   \/
   exists needsRef',
     NativeImageFetchFromRaster_internal raster name needsRef s = Returns needsRef' s' /\
     externalRasterRef (this s') = externalRasterRef (this s) /\
     (needsRef' = true /\ pixelOwner (this s') = Some raster /\
        rasters s' = alter Raster_acquire raster (rasters s)
      \/ needsRef' = needsRef /\ pixelOwner (this s') = None /\ rasters s' = rasters s))
  /\ is_Some (rasters s !! raster).
Proof.
  intros Hown. unfold NativeImageFetchFromRaster_internal.
  destruct (rasters s !! raster) as [R|] eqn:HR; [|discriminate].
  destruct s as [[pal pix own ext d] rs cs]. cbn in Hown, HR |- *. subst own.
  destruct (platformData R) as [tex|].
  - destruct (ReadFromNativeTexture d name tex) as [fb d'|code d'].
    + destruct (hasDirectlyAcquiredPalette fb || hasDirectlyAcquired fb) eqn:Hfb;
        cbn; intros [= <-]; (split; [|eauto]); right; eexists;
        (split; [reflexivity|]); cbn; auto.
    + cbn. intros [= <-]. split; [|eauto]. left. cbn. repeat split. discriminate.
  - cbn. intros [= <-]. split; [|eauto]. left. cbn. repeat split. discriminate.
Qed.

Lemma fetchFromRaster_final raster (s s' : St) :
  final_state (fetchFromRaster raster s) = Some s' ->
  is_Some (rasters (clearImageData s) !! raster) /\
  externalRasterRef (this s') = false /\
  (pixelOwner (this s') = None /\
     rasters s' = alter Raster_remConstRef raster
                    (alter Raster_addConstRef raster (rasters (clearImageData s)))
   \/
   pixelOwner (this s') = Some raster /\
     rasters s' = alter Raster_acquire raster
                    (alter Raster_addConstRef raster (rasters (clearImageData s)))).
Proof.
  unfold fetchFromRaster.
  pose proof (clearImageData_pixelOwner s) as Hown.
  pose proof (clearImageData_externalRasterRef s) as Hext.
  set (s1 := clearImageData s) in *.
  destruct (rasters s1 !! raster) as [R|] eqn:HR; [|discriminate].
  unfold bind, try_catch_rethrow.
  destruct (NativeImageFetchFromRaster_internal raster _ false (addConstRef raster s1))
    as [needsRef s2|e2 s2|] eqn:Hint; [| |discriminate].
  - destruct (fetch_internal_surplus raster (getNativeDataTypeName R) false
                (addConstRef raster s1) s2 Hown)
      as [[(_ & _ & _ & Hthrown)|(needsRef' & Heq & Hext2 & Hcase)] _].
    { rewrite Hint. reflexivity. }
    { rewrite Hint in Hthrown. cbn in Hthrown. congruence. }
    rewrite Hint in Heq. injection Heq as <-.
    cbn. intros [= <-]. split; [eauto|]. split.
    { destruct needsRef; reflexivity. }
    destruct Hcase as [(-> & Ho & Hrs)|(-> & Ho & Hrs)]; cbn.
    + right. split; assumption.
    + left. split; [assumption|]. cbn. rewrite Hrs. reflexivity.
  - destruct (fetch_internal_surplus raster (getNativeDataTypeName R) false
                (addConstRef raster s1) s2 Hown)
      as [[(Ho & Hrs & Hext2 & _)|(needsRef' & Heq & _)] _].
    { rewrite Hint. reflexivity. }
    2:{ rewrite Hint in Heq. discriminate. }
    cbn. intros [= <-]. split; [eauto|]. split.
    { cbn. rewrite Hext2. exact Hext. }
    left. split; [assumption|]. cbn. rewrite Hrs. reflexivity.
Qed.



Lemma fetchFromRasterNoLock_final raster name (s s' : St) :
  final_state (NativeImageFetchFromRasterNoLock raster name s) = Some s' ->
  is_Some (rasters (clearImageData s) !! raster) /\
  (pixelOwner (this s') = None /\ rasters s' = rasters (clearImageData s)
   \/
   pixelOwner (this s') = Some raster /\ externalRasterRef (this s') = true /\
     rasters s' = alter Raster_acquire raster (rasters (clearImageData s))).
Proof.
  unfold NativeImageFetchFromRasterNoLock.
  pose proof (clearImageData_pixelOwner s) as Hown.
  set (s1 := clearImageData s) in *.
  unfold bind.
  destruct (NativeImageFetchFromRaster_internal raster name false s1)
    as [needsRef s2|e2 s2|] eqn:Hint; [| |discriminate].
  - destruct (fetch_internal_surplus raster name false s1 s2 Hown)
      as [[(_ & _ & _ & Hthrown)|(needsRef' & Heq & Hext2 & Hcase)] Hlive].
    { rewrite Hint. reflexivity. }
    { rewrite Hint in Hthrown. cbn in Hthrown. congruence. }
    cbn. intros [= <-]. split; [assumption|].
    destruct Hcase as [(_ & Ho & Hrs)|(_ & Ho & Hrs)]; cbn.
    + right. repeat split; assumption.
    + left. split; assumption.
  - destruct (fetch_internal_surplus raster name false s1 s2 Hown)
      as [[(Ho & Hrs & _)|(needsRef' & Heq & _)] Hlive].
    { rewrite Hint. reflexivity. }
    2:{ rewrite Hint in Heq. discriminate. }
    cbn. intros [= <-]. split; [assumption|]. left. split; assumption.
Qed.





Lemma readFromStream_final stream (s : St) s' :
  fst <$> final_state (readFromStream stream s) = Some s' ->
  pixelOwner (this s') = None /\ rasters s' = rasters (clearImageData s).
Proof.
  unfold readFromStream.
  pose proof (clearImageData_pixelOwner s) as Hown.
  set (s1 := clearImageData s) in *.
  cbn. destruct (ReadNativeImage _ _) as [u [d st]|code [d st]];
    cbn; intros [= <-]; split; assumption || reflexivity.
Qed.







End Surplus.

Arguments clearImageData : simpl never.

Section WorldFacts.
Context {ImgData NativeTex : Type}.
Context {typeMan : nativeImageTypeManager ImgData NativeTex}.
Context {rasterTypeMan : texNativeTypeProvider NativeTex}.

Local Abbreviation W := (World ImgData NativeTex).





End WorldFacts.


Lemma world_with_raster_reachable :
  reachable (typeMan := sharing_codec) (rasterTypeMan := pvr_provider) world_with_raster.
Proof.
  apply (reachable_step (mkWorld ∅ ∅) world_with_raster); [constructor|].
  apply (step_new_raster (mkWorld ∅ ∅) 0%nat sample_raster); [reflexivity|vm_compute; discriminate].
Defined.

Lemma world_with_handle_reachable :
  reachable (typeMan := sharing_codec) (rasterTypeMan := pvr_provider) world_with_handle.
Proof.
  apply (reachable_step world_with_raster world_with_handle);
    [exact world_with_raster_reachable|].
  apply (step_CreateNativeImage world_with_raster 0%nat [9; 9]). reflexivity.
Defined.

Lemma borrowing_world_reachable :
  reachable (typeMan := sharing_codec) (rasterTypeMan := pvr_provider) borrowing_world.
Proof.
  apply (reachable_step world_with_handle borrowing_world);
    [exact world_with_handle_reachable|].
  pose proof (step_method (typeMan := sharing_codec) (rasterTypeMan := pvr_provider)
                world_with_handle 0%nat (NativeImagePrivate_new [9; 9])
                (M_fetchFromRaster 0%nat)
                (mkState (mkNativeImage false true (Some 0%nat) false [1; 2; 3; 4])
                   {[ 0%nat := mkRaster 2 1 (Some sample_texture) ]}
                   [CallClearPaletteData true; CallClearImageData true;
                    CallReadFromNativeTexture])
                eq_refl) as Hstep.
  apply Hstep. vm_compute. reflexivity.
Defined.


(** C6.  A handle whose [pixelOwner] is non-null: [putToRaster] throws the
    "already owned by a raster" exception and leaves the whole state as it
    was on entry, so it made no plug-in call ([WriteToNativeTexture] in
    particular) and touched no raster.  A handle whose [pixelOwner] is null:
    whatever [putToRaster] does, it does not throw that exception. *)
Theorem putToRaster_AlreadyOwned
    {ImgData NativeTex : Type}
    (typeMan : nativeImageTypeManager ImgData NativeTex)
    (rasterTypeMan : texNativeTypeProvider NativeTex)
    (s : State ImgData NativeTex) (raster : RasterPtr) :
  (pixelOwner (this s) <> None ->
     exists s', putToRaster raster s = Throws AlreadyOwned s' /\
       calls s' = calls s /\ rasters s' = rasters s /\ this s' = this s)
  /\
  (pixelOwner (this s) = None -> thrown (putToRaster raster s) <> Some AlreadyOwned).
Proof.
  split; intros Howner.
  - exists s. unfold putToRaster.
    destruct (pixelOwner (this s)); [auto | congruence].
  - unfold putToRaster. rewrite Howner.
    unfold NativeImagePutToRaster_internal.
    destruct (rasters s !! raster) as [R|]; [|discriminate].
    destruct (platformData R) as [tex|]; [|discriminate].
    cbn. destruct (WriteToNativeTexture _ _ _) as [fb [d t]|code [d t]]; discriminate.
Qed.

Lemma putToRaster_AlreadyOwned_witness :
  (exists s', putToRaster (typeMan := sharing_codec) (rasterTypeMan := pvr_provider)
                0%nat borrowed_state = Throws AlreadyOwned s' /\
     calls s' = calls borrowed_state /\ rasters s' = rasters borrowed_state /\
     this s' = this borrowed_state)
  /\ thrown (putToRaster (typeMan := refusing_codec) (rasterTypeMan := pvr_provider)
               0%nat sample_state) <> Some AlreadyOwned.
Proof.
  split.
  - apply (proj1 (putToRaster_AlreadyOwned sharing_codec pvr_provider borrowed_state 0%nat)).
    discriminate.
  - apply (proj2 (putToRaster_AlreadyOwned refusing_codec pvr_provider sample_state 0%nat)).
    reflexivity.
Defined.

(** C5, as stated, fails for [putToRaster]: on a handle that borrows from a
    raster it throws and leaves [pixelOwner] set. *)
Lemma putToRaster_failure_keeps_owner :
  putToRaster (typeMan := sharing_codec) (rasterTypeMan := pvr_provider) 0%nat borrowed_state
    = Throws AlreadyOwned borrowed_state
  /\ ownership (this borrowed_state) = (false, true, Some 0%nat, true)
  /\ ownership (this borrowed_state) <> empty_ownership.
Proof. repeat split. discriminate. Qed.

(** C5, amended.  A [fetchFromRaster] that throws leaves the handle in the
    empty ownership state.  A [putToRaster] that throws leaves the four
    ownership fields as they were on entry ([putToRaster] never calls
    [clearImageData]). *)
Theorem failed_fetch_and_put_ownership
    {ImgData NativeTex : Type}
    (typeMan : nativeImageTypeManager ImgData NativeTex)
    (rasterTypeMan : texNativeTypeProvider NativeTex)
    (s s' : State ImgData NativeTex) (raster : RasterPtr) (e : exn) :
  (fetchFromRaster raster s = Throws e s' -> ownership (this s') = empty_ownership)
  /\
  (putToRaster raster s = Throws e s' -> ownership (this s') = ownership (this s)).
Proof.
  split.
  - unfold fetchFromRaster.
    pose proof (clearImageData_empty s) as Hclear.
    set (s1 := clearImageData s) in *.
    destruct (rasters s1 !! raster) as [R|]; [|discriminate].
    unfold bind, try_catch_rethrow.
    destruct (NativeImageFetchFromRaster_internal raster _ false (addConstRef raster s1))
      as [needsRef s2|e2 s2|] eqn:Hint; [discriminate| |discriminate].
    intros [= <- <-].
    apply fetch_internal_throws in Hint as [Hown _].
    unfold remConstRef. rewrite this_on_raster, Hown.
    unfold addConstRef. rewrite this_on_raster. exact Hclear.
  - unfold putToRaster.
    destruct (pixelOwner (this s)).
    + intros [= <- <-]. reflexivity.
    + apply putToRaster_internal_throws.
Qed.

Lemma failed_fetch_and_put_ownership_witness :
  (exists e s',
     fetchFromRaster (typeMan := refusing_codec) (rasterTypeMan := pvr_provider) 0%nat
       (mkState (mkNativeImage true false (Some 0%nat) false [1; 2; 3; 4])
          {[ 0%nat := mkRaster 2 1 (Some sample_texture) ]} []) = Throws e s'
     /\ ownership (this s') = empty_ownership)
  /\ ownership (this borrowed_state) = ownership (this borrowed_state).
Proof.
  split.
  - eexists. eexists. split; [vm_compute; reflexivity|].
    eapply (proj1 (failed_fetch_and_put_ownership refusing_codec pvr_provider
                     (mkState (mkNativeImage true false (Some 0%nat) false [1; 2; 3; 4])
                        {[ 0%nat := mkRaster 2 1 (Some sample_texture) ]} [])
                     _ 0%nat _)).
    vm_compute. reflexivity.
  - apply (proj2 (failed_fetch_and_put_ownership sharing_codec pvr_provider
                    borrowed_state borrowed_state 0%nat AlreadyOwned)).
    reflexivity.
Defined.

(** C4, as stated, fails: the codec's [WriteToNativeTexture] throws and
    touches nothing, yet the raster has lost the mipmap layer it held on
    entry, because [UnsetPixelDataFromTexture( nativeTex, true )] ran first. *)
Lemma putToRaster_throw_after_unset :
  thrown (putToRaster (typeMan := refusing_codec) (rasterTypeMan := pvr_provider)
            0%nat sample_state) = Some (PluginException 3)
  /\ (final_state (putToRaster (typeMan := refusing_codec) (rasterTypeMan := pvr_provider)
                     0%nat sample_state) ≫= fun s' => rasters s' !! 0%nat)
     = Some (mkRaster 1 0 (Some (mk_NativeTexturePVR []
                                   GL_COMPRESSED_RGBA_PVRTC_4BPPV1_IMG true 0 0)))
  /\ rasters sample_state !! 0%nat
     = Some (mkRaster 1 0 (Some (mk_NativeTexturePVR [mk_mipmapLayer 8 8 8 8 [1; 2; 3; 4] 32]
                                   GL_COMPRESSED_RGBA_PVRTC_4BPPV1_IMG true 0 0))).
Proof. repeat split; vm_compute; reflexivity. Qed.

(** C4, amended.  When [putToRaster] throws before it reaches the codec (the
    handle already borrows from a raster, or the raster has no native data),
    the whole state is as on entry.  When it throws because the codec's
    [WriteToNativeTexture] throws, the raster's previous pixel data was
    released first: the raster holds what the codec left of
    [UnsetPixelDataFromTexture( nativeTex, true )]; its counts and every other
    raster are as on entry. *)
Theorem putToRaster_exception_guarantee
    {ImgData NativeTex : Type}
    (typeMan : nativeImageTypeManager ImgData NativeTex)
    (rasterTypeMan : texNativeTypeProvider NativeTex)
    (s s' : State ImgData NativeTex) (raster : RasterPtr) (e : exn) :
  putToRaster raster s = Throws e s' ->
  ((e = AlreadyOwned \/ e = RwException MsgPutNoNativeData) /\ s' = s)
  \/
  (exists code R nativeTex d t,
     e = PluginException code /\
     rasters s !! raster = Some R /\ platformData R = Some nativeTex /\
     WriteToNativeTexture (nativeData (this s)) (nativeTexTypeName nativeTex)
       (UnsetPixelDataFromTexture nativeTex true) = PluginThrows code (d, t) /\
     rasters s' !! raster = Some (mkRaster (refCount R) (constRefCount R) (Some t)) /\
     (forall p, p <> raster -> rasters s' !! p = rasters s !! p) /\
     In (CallUnsetPixelDataFromTexture true) (calls s')).
Proof.
  unfold putToRaster.
  destruct (pixelOwner (this s)).
  { intros [= <- <-]. left. split; [left|]; reflexivity. }
  unfold NativeImagePutToRaster_internal.
  destruct (rasters s !! raster) as [R|] eqn:HR; [|discriminate].
  destruct (platformData R) as [nativeTex|] eqn:Htex.
  2:{ intros [= <- <-]. left. split; [right|]; reflexivity. }
  cbn. destruct (WriteToNativeTexture _ _ _) as [fb [d t]|code [d t]] eqn:Hw; [discriminate|].
  intros [= <- <-]. right. exists code, R, nativeTex, d, t.
  repeat split; try assumption.
  - cbn. rewrite !lookup_alter_eq, HR. reflexivity.
  - intros p Hp. cbn. rewrite !lookup_alter_ne by congruence. reflexivity.
  - cbn. apply in_or_app. left. apply in_or_app. right. left. reflexivity.
Qed.

Lemma putToRaster_exception_guarantee_witness :
  exists s',
    putToRaster (typeMan := refusing_codec) (rasterTypeMan := pvr_provider) 0%nat sample_state
      = Throws (PluginException 3) s' /\
    (((PluginException 3 = AlreadyOwned \/ PluginException 3 = RwException MsgPutNoNativeData)
      /\ s' = sample_state)
     \/
     (exists code R nativeTex d t,
        PluginException 3 = PluginException code /\
        rasters sample_state !! 0%nat = Some R /\ platformData R = Some nativeTex /\
        WriteToNativeTexture (nativeImageTypeManager := refusing_codec)
          (nativeData (this sample_state))
          (nativeTexTypeName (texNativeTypeProvider := pvr_provider) nativeTex)
          (UnsetPixelDataFromTexture (texNativeTypeProvider := pvr_provider) nativeTex true)
          = PluginThrows code (d, t) /\
        rasters s' !! 0%nat = Some (mkRaster (refCount R) (constRefCount R) (Some t)) /\
        (forall p, p <> 0%nat -> rasters s' !! p = rasters sample_state !! p) /\
        In (CallUnsetPixelDataFromTexture true) (calls s'))).
Proof.
  eexists. split; [vm_compute; reflexivity|].
  apply (putToRaster_exception_guarantee refusing_codec pvr_provider sample_state _ 0%nat
           (PluginException 3)).
  vm_compute. reflexivity.
Defined.

(** C10.  Copy-constructing a handle whose [pixelOwner] is the raster at [r]:
    the clone has the same [pixelOwner]; that raster's owning reference count
    and const-reference count have each gone up by one, and no other raster
    changed; [hasPaletteDataRef], [hasPixelDataRef] and [externalRasterRef]
    are copied as they are.  If [externalRasterRef] is true, the
    const-reference was taken all the same and [clearImageData] on the clone
    does not give it back; if it is false, [clearImageData] gives it back. *)
Theorem copy_constructor_references
    {ImgData NativeTex : Type}
    (typeMan : nativeImageTypeManager ImgData NativeTex)
    (rasterTypeMan : texNativeTypeProvider NativeTex)
    (s : State ImgData NativeTex) (r : RasterPtr) (R : Raster NativeTex) :
  pixelOwner (this s) = Some r ->
  rasters s !! r = Some R ->
  let clone := fst (NativeImagePrivate_copy s) in
  let s' := snd (NativeImagePrivate_copy s) in
  let cleared := clearImageData (mkState clone (rasters s') (calls s')) in
  pixelOwner clone = Some r /\
  hasPaletteDataRef clone = hasPaletteDataRef (this s) /\
  hasPixelDataRef clone = hasPixelDataRef (this s) /\
  externalRasterRef clone = externalRasterRef (this s) /\
  rasters s' !! r = Some (mkRaster (refCount R + 1) (constRefCount R + 1) (platformData R)) /\
  (forall p, p <> r -> rasters s' !! p = rasters s !! p) /\
  this s' = this s /\
  (externalRasterRef (this s) = true ->
     constRefCount <$> rasters cleared !! r = Some (constRefCount R + 1)) /\
  (externalRasterRef (this s) = false ->
     constRefCount <$> rasters cleared !! r = Some (constRefCount R)).
Proof.
  intros Howner HR.
  destruct s as [[pal pix own ext d] rs cs]. cbn in Howner, HR. subst own.
  cbn -[clearImageData]. repeat split.
  - rewrite !lookup_alter_eq, HR. reflexivity.
  - intros p Hp. rewrite !lookup_alter_ne by congruence. reflexivity.
  - intros ->. rewrite clearImageData_rasters. cbn.
    rewrite !lookup_alter_eq, HR. cbn. reflexivity.
  - intros ->. rewrite clearImageData_rasters. cbn.
    rewrite !lookup_alter_eq, HR. cbn. f_equal. lia.
Qed.

Lemma copy_constructor_references_witness :
  let s := borrowed_state in
  let clone := fst (NativeImagePrivate_copy (typeMan := sharing_codec) s) in
  let s' := snd (NativeImagePrivate_copy (typeMan := sharing_codec) s) in
  let cleared := clearImageData (typeMan := sharing_codec)
                   (mkState clone (rasters s') (calls s')) in
  pixelOwner clone = Some 0%nat /\
  hasPaletteDataRef clone = hasPaletteDataRef (this s) /\
  hasPixelDataRef clone = hasPixelDataRef (this s) /\
  externalRasterRef clone = externalRasterRef (this s) /\
  rasters s' !! 0%nat = Some (mkRaster (2 + 1) (1 + 1) (Some sample_texture)) /\
  (forall p, p <> 0%nat -> rasters s' !! p = rasters s !! p) /\
  this s' = this s /\
  (externalRasterRef (this s) = true ->
     constRefCount <$> rasters cleared !! 0%nat = Some (1 + 1)) /\
  (externalRasterRef (this s) = false ->
     constRefCount <$> rasters cleared !! 0%nat = Some 1).
Proof.
  apply (copy_constructor_references sharing_codec pvr_provider borrowed_state 0%nat
           (mkRaster 2 1 (Some sample_texture))); reflexivity.
Defined.

(** ** The registry: first match in list order, position restored *)







Lemma register_all_ext L1 L2 env ms :
  (forall x l, L1 x l = L2 x l) -> register_all L1 env ms = register_all L2 env ms.
Proof.
  intros Hext. revert env. induction ms as [|[m n] ms IH]; intros env; cbn; [reflexivity|].
  rewrite <- IH. f_equal. f_equal. unfold RegisterNativeImageType.
  destruct env as [env|]; [|reflexivity].
  destruct (manData_isRegistered m); [reflexivity|].
  destruct (negb (natImgType env)); [reflexivity|].
  destruct (RegisterCommonTypeInterface n (typeNames env)); [|reflexivity].
  rewrite Hext. reflexivity.
Qed.

Lemma header_probe_keeps_content magic name friendly registered :
  probe_keeps_content (mkFormat registered name friendly (header_probe magic)).
Proof. intros stream. reflexivity. Qed.

(** ** The TIFF probe *)

Lemma little_endian_nonneg bs : 0 <= little_endian bs.
Proof.
  induction bs as [|b bs IH]; cbn; [lia|].
  pose proof (Z.mod_pos_bound b 256). lia.
Qed.

Lemma get_uint_nonneg num bs : 0 <= get_uint32 num bs /\ 0 <= get_uint16 num bs.
Proof.
  unfold get_uint32, get_uint16, big_endian.
  destruct (bigEndian num); split; apply little_endian_nonneg.
Qed.

Lemma read_content s n : content (snd (read s n)) = content s.
Proof. reflexivity. Qed.

Lemma bytes_at_Some bytes off n e :
  bytes_at bytes off n = Some e <-> e = bytes_from bytes off n /\ length e = n.
Proof.
  unfold bytes_at.
  destruct (Nat.eqb_spec (length (bytes_from bytes off n)) n) as [Hl|Hl].
  - split; [intros [= <-]; auto|intros [-> _]; reflexivity].
  - split; [discriminate|intros [-> Hn]; contradiction].
Qed.

Lemma verify_ifd_entry_ok num avail e :
  verify_ifd_entry num avail e = true <-> entry_ok num avail e.
Proof.
  unfold verify_ifd_entry, entry_ok, field_item_size_of,
    FIELD_BYTE, FIELD_ASCII, FIELD_SHORT, FIELD_LONG, FIELD_RATIONAL.
  set (type := get_uint16 num (field 2 2 e)).
  set (count := get_uint32 num (field 4 4 e)).
  set (data_offset := get_uint32 num (field 8 4 e)).
  cbv zeta.
  assert (Hin : forall itemSize,
            In (type, itemSize) [(1, 1); (2, 1); (3, 2); (4, 4); (5, 8)] <->
            (type = 1 /\ itemSize = 1) \/ (type = 2 /\ itemSize = 1) \/
            (type = 3 /\ itemSize = 2) \/ (type = 4 /\ itemSize = 4) \/
            (type = 5 /\ itemSize = 8)).
  { intros itemSize. cbn. split.
    - intros [H|[H|[H|[H|[H|[]]]]]]; injection H as <- <-; auto 10.
    - intros [[-> ->]|[[-> ->]|[[-> ->]|[[-> ->]|[-> ->]]]]]; auto 10. }
  split.
  - intros Hv itemSize Hi. apply Hin in Hi.
    destruct Hi as [[Ht ->]|[[Ht ->]|[[Ht ->]|[[Ht ->]|[Ht ->]]]]]; rewrite Ht in Hv;
      cbn in Hv;
      match type of Hv with
      | (if ?c then _ else _) = true =>
          destruct c eqn:Hc; [apply Z.leb_le in Hv; right; lia|left; lia]
      end.
  - intros Hok.
    destruct (Z.eqb_spec type 1) as [Ht|Ht1].
    { specialize (Hok 1 (proj2 (Hin 1) ltac:(auto))). cbn.
      destruct (1 * count >? 4) eqn:Hc; [|reflexivity]. apply Z.leb_le. lia. }
    destruct (Z.eqb_spec type 2) as [Ht|Ht2].
    { specialize (Hok 1 (proj2 (Hin 1) ltac:(auto))). cbn.
      destruct (1 * count >? 4) eqn:Hc; [|reflexivity]. apply Z.leb_le. lia. }
    destruct (Z.eqb_spec type 3) as [Ht|Ht3].
    { specialize (Hok 2 (proj2 (Hin 2) ltac:(auto 10))). cbn.
      destruct (2 * count >? 4) eqn:Hc; [|reflexivity]. apply Z.leb_le. lia. }
    destruct (Z.eqb_spec type 4) as [Ht|Ht4].
    { specialize (Hok 4 (proj2 (Hin 4) ltac:(auto 10))). cbn.
      destruct (4 * count >? 4) eqn:Hc; [|reflexivity]. apply Z.leb_le. lia. }
    destruct (Z.eqb_spec type 5) as [Ht|Ht5].
    { specialize (Hok 8 (proj2 (Hin 8) ltac:(auto 10))). cbn.
      destruct (8 * count >? 4) eqn:Hc; [|reflexivity]. apply Z.leb_le. lia. }
    reflexivity.
Qed.

Lemma read_dir_entries_content num avail todo s :
  content (snd (read_dir_entries num avail todo s)) = content s.
Proof.
  revert s. induction todo as [|todo IH]; intros s; cbn; [reflexivity|].
  destruct (negb _); [reflexivity|].
  destruct (negb _); [reflexivity|].
  rewrite IH. reflexivity.
Qed.

Lemma read_dir_entries_true num avail todo s s' :
  read_dir_entries num avail todo s = (true, s') <->
  (forall k, (k < todo)%nat ->
     exists e, bytes_at (content s) (cursor s + 12 * Z.of_nat k) 12 = Some e /\
               entry_ok num avail e) /\
  s' = mkStream (content s) (cursor s + 12 * Z.of_nat todo).
Proof.
  revert s. induction todo as [|todo IH]; intros s; cbn [read_dir_entries].
  - split.
    + intros [= <-]. split; [intros k Hk; lia|].
      destruct s; cbn. f_equal. lia.
    + intros [_ ->]. destruct s; cbn. do 2 f_equal. lia.
  - unfold read, sizeof_tiff_ifd_entry.
    set (e := bytes_from (content s) (cursor s) 12).
    destruct (Nat.eqb_spec (length e) 12) as [Hl|Hl]; cbn [negb].
    + destruct (verify_ifd_entry num avail e) eqn:Hv; cbn [negb].
      * rewrite IH. cbn [content cursor]. rewrite Hl.
        split.
        -- intros [Hall ->]. split.
           ++ intros [|k] Hk.
              ** exists e. split; [|apply verify_ifd_entry_ok; exact Hv].
                 apply bytes_at_Some. split; [|exact Hl].
                 unfold e. f_equal. lia.
              ** destruct (Hall k ltac:(lia)) as (e' & He' & Hok).
                 exists e'. split; [|exact Hok]. rewrite <- He'. f_equal. lia.
           ++ f_equal. lia.
        -- intros [Hall ->]. split.
           ++ intros k Hk. destruct (Hall (S k) ltac:(lia)) as (e' & He' & Hok).
              exists e'. split; [|exact Hok]. rewrite <- He'. f_equal. lia.
           ++ f_equal. lia.
      * split; [discriminate|]. intros [Hall _].
        destruct (Hall 0%nat ltac:(lia)) as (e' & He' & Hok).
        apply bytes_at_Some in He' as [He' _].
        replace (cursor s + 12 * Z.of_nat 0) with (cursor s) in He' by lia.
        fold e in He'. subst e'. apply verify_ifd_entry_ok in Hok. congruence.
    + split; [discriminate|]. intros [Hall _].
      destruct (Hall 0%nat ltac:(lia)) as (e' & He' & Hok).
      apply bytes_at_Some in He' as [He' Hl'].
      replace (cursor s + 12 * Z.of_nat 0) with (cursor s) in He' by lia.
      fold e in He'. subst e'. contradiction.
Qed.

(** One pass of the loop against the layout of one directory. *)
Lemma read_directory_ifd_at num avail s next :
  ifd_at (content s) num avail (cursor s) next <->
  exists s', read_directory num avail s
             = ((if next =? 0 then IfdLast else IfdNext next), s') /\
             cursor s < cursor s'.
Proof.
  unfold read_directory, ifd_at, read.
  set (cnt := bytes_from (content s) (cursor s) 2).
  cbn [content cursor].
  destruct (Nat.eqb_spec (length cnt) 2) as [Hl|Hl]; cbn [negb].
  2:{ split.
      - intros (c & Hc & _). apply bytes_at_Some in Hc as [-> Hc]. contradiction.
      - intros (s' & Heq & _). destruct (next =? 0); discriminate. }
  pose proof (proj2 (get_uint_nonneg num cnt)) as Hn0.
  set (n := get_uint16 num cnt) in *.
  destruct (Z.eqb_spec n 0) as [Hz|Hz].
  { split.
    - intros (c & Hc & Hnz & _). apply bytes_at_Some in Hc as [-> _]. contradiction.
    - intros (s' & Heq & _). destruct (next =? 0); discriminate. }
  destruct (read_dir_entries num avail (Z.to_nat n)
              (mkStream (content s) (cursor s + Z.of_nat (length cnt)))) as [[|] s1] eqn:Hrd.
  - apply read_dir_entries_true in Hrd as [Hall ->]. cbn [content cursor] in *.
    set (p := bytes_from (content s) (cursor s + Z.of_nat (length cnt) + 12 * Z.of_nat (Z.to_nat n)) 4).
    assert (Hoff : cursor s + Z.of_nat (length cnt) + 12 * Z.of_nat (Z.to_nat n)
                   = cursor s + 2 + 12 * n) by lia.
    destruct (Nat.eqb_spec (length p) 4) as [Hp|Hp]; cbn [negb].
    + split.
      * intros (c & Hc & Hnz & Hentries & p' & Hp' & ->).
        apply bytes_at_Some in Hc as [-> _]. fold cnt in Hp'. fold n in Hp'.
        apply bytes_at_Some in Hp' as [-> _].
        rewrite <- Hoff. fold p.
        eexists. split; [destruct (get_uint32 num p =? 0); reflexivity|].
        cbn. lia.
      * intros (s' & Heq & _). exists cnt. split; [apply bytes_at_Some; auto|].
        fold n. split; [exact Hz|]. split.
        -- intros k Hk. destruct (Hall (Z.to_nat k) ltac:(lia)) as (e & He & Hok).
           exists e. split; [|exact Hok]. rewrite <- He. f_equal. lia.
        -- exists p. split.
           ++ apply bytes_at_Some. split; [|exact Hp]. unfold p. f_equal. lia.
           ++ destruct (Z.eqb_spec (get_uint32 num p) 0) as [Hp0|Hp0];
                destruct (Z.eqb_spec next 0) as [Hn|Hn]; try discriminate; congruence.
    + split.
      * intros (c & Hc & Hnz & Hentries & p' & Hp' & _).
        apply bytes_at_Some in Hc as [-> _]. fold cnt in Hp'. fold n in Hp'.
        apply bytes_at_Some in Hp' as [-> Hp'].
        rewrite <- Hoff in Hp'. contradiction.
      * intros (s' & Heq & _). destruct (next =? 0); discriminate.
  - split.
    + intros (c & Hc & Hnz & Hentries & _).
      apply bytes_at_Some in Hc as [-> _]. fold cnt in Hentries. fold n in Hentries.
      assert (read_dir_entries num avail (Z.to_nat n)
                (mkStream (content s) (cursor s + Z.of_nat (length cnt)))
              = (true, mkStream (content s)
                         (cursor s + Z.of_nat (length cnt) + 12 * Z.of_nat (Z.to_nat n))))
        as Htrue.
      { apply read_dir_entries_true. split; [|reflexivity].
        intros k Hk. cbn [content cursor].
        destruct (Hentries (Z.of_nat k) ltac:(lia)) as (e & He & Hok).
        exists e. split; [|exact Hok]. rewrite <- He. f_equal. lia. }
      congruence.
    + intros (s' & Heq & _). destruct (next =? 0); discriminate.
Qed.

Lemma read_directory_content num avail s :
  content (snd (read_directory num avail s)) = content s.
Proof.
  unfold read_directory, read. cbn [content cursor].
  destruct (negb _); [reflexivity|].
  destruct (_ =? 0); [reflexivity|].
  match goal with |- context [read_dir_entries ?a ?b ?c ?d] =>
    pose proof (read_dir_entries_content a b c d) as Hc;
    destruct (read_dir_entries a b c d) as [[|] s1] end; cbn in Hc |- *.
  - destruct (negb _); [exact Hc|]. destruct (_ =? 0); exact Hc.
  - exact Hc.
Qed.

Lemma read_directory_advances num avail s :
  fst (read_directory num avail s) <> IfdRejected ->
  cursor s < cursor (snd (read_directory num avail s)).
Proof.
  unfold read_directory, read. cbn [content cursor].
  set (cnt := bytes_from (content s) (cursor s) 2).
  destruct (Nat.eqb_spec (length cnt) 2) as [Hl|Hl]; cbn [negb]; [|intros H; contradiction].
  destruct (_ =? 0); [intros H; contradiction|].
  destruct (read_dir_entries _ _ _ _) as [[|] s2] eqn:Hrd2; [|intros H; contradiction].
  apply read_dir_entries_true in Hrd2 as [_ ->]. cbn [content cursor].
  destruct (negb _); [intros H; contradiction|].
  destruct (_ =? 0); intros _; cbn; lia.
Qed.

Lemma read_directory_next_nonzero num avail s next :
  fst (read_directory num avail s) = IfdNext next -> 0 < next.
Proof.
  unfold read_directory, read. cbn [content cursor].
  destruct (negb _); [discriminate|]. destruct (_ =? 0); [discriminate|].
  destruct (read_dir_entries _ _ _ _) as [[|] s2]; [|discriminate].
  destruct (negb _); [discriminate|].
  match goal with |- context [get_uint32 ?n ?x =? 0] =>
    destruct (Z.eqb_spec (get_uint32 n x) 0) as [He|He];
    pose proof (proj1 (get_uint_nonneg n x)) end;
    [discriminate|].
  cbn. intros [= <-]. lia.
Qed.

Lemma read_directory_verdict num avail s :
  match fst (read_directory num avail s) with
  | IfdRejected => forall next, ~ ifd_at (content s) num avail (cursor s) next
  | IfdLast => ifd_at (content s) num avail (cursor s) 0
  | IfdNext next => next <> 0 /\ ifd_at (content s) num avail (cursor s) next
  end.
Proof.
  pose proof (read_directory_advances num avail s) as Hadv.
  pose proof (read_directory_next_nonzero num avail s) as Hnz.
  destruct (read_directory num avail s) as [v s1] eqn:Hrd. cbn [fst snd] in *.
  destruct v as [| |next].
  - intros next Hat. apply read_directory_ifd_at in Hat as (s' & Heq & _).
    rewrite Hrd in Heq. destruct (next =? 0); discriminate.
  - apply read_directory_ifd_at. exists s1. split; [exact Hrd|].
    apply Hadv. discriminate.
  - specialize (Hnz next eq_refl). split; [lia|].
    apply read_directory_ifd_at. exists s1. split.
    + rewrite Hrd. destruct (Z.eqb_spec next 0); [lia|reflexivity].
    + apply Hadv. discriminate.
Qed.

Lemma ifd_at_functional bytes num avail off n1 n2 :
  ifd_at bytes num avail off n1 -> ifd_at bytes num avail off n2 -> n1 = n2.
Proof.
  intros H1 H2.
  apply (read_directory_ifd_at num avail (mkStream bytes off)) in H1 as (s1 & E1 & _).
  apply (read_directory_ifd_at num avail (mkStream bytes off)) in H2 as (s2 & E2 & _).
  rewrite E1 in E2.
  destruct (Z.eqb_spec n1 0), (Z.eqb_spec n2 0); try discriminate; congruence.
Qed.

(** The loop against the chain of directories. *)
Lemma walk_ifds_accepts num start avail s :
  (exists fuel s', walk_ifds fuel num start avail s = Some (true, s')) <->
  ifd_chain (content s) num start avail (cursor s).
Proof.
  split.
  - intros (fuel & s' & Hw). revert s Hw.
    induction fuel as [|fuel IH]; intros s Hw; [discriminate|].
    cbn [walk_ifds] in Hw.
    pose proof (read_directory_verdict num avail s) as Hv.
    pose proof (read_directory_content num avail s) as Hc.
    destruct (read_directory num avail s) as [[| |next] s1]; cbn [fst snd] in *.
    + discriminate.
    + apply ifd_chain_last. exact Hv.
    + destruct Hv as [Hnz Hat]. apply (ifd_chain_next _ _ _ _ _ next Hat Hnz).
      specialize (IH _ Hw). cbn [seek content cursor] in IH. rewrite Hc in IH. exact IH.
  - intros Hchain.
    remember (content s) as bytes eqn:Hb. remember (cursor s) as off eqn:Ho.
    revert s Hb Ho.
    induction Hchain as [off Hat|off next Hat Hnz _ IH]; intros s Hb Ho; subst.
    + apply read_directory_ifd_at in Hat as (s' & Heq & _).
      exists 1%nat, s'. cbn [walk_ifds]. rewrite Heq. reflexivity.
    + apply read_directory_ifd_at in Hat as (s1 & Heq & _).
      pose proof (read_directory_content num avail s) as Hc. rewrite Heq in Hc.
      cbn [snd] in Hc.
      destruct (IH (seek s1 (start + next) RWSEEK_BEG)) as (fuel & s' & Hw).
      { cbn. symmetry. exact Hc. }
      { reflexivity. }
      exists (S fuel), s'. cbn [walk_ifds]. rewrite Heq.
      destruct (Z.eqb_spec next 0); [contradiction|exact Hw].
Qed.

Lemma walk_ifds_rejects num start avail s :
  (exists fuel s', walk_ifds fuel num start avail s = Some (false, s')) <->
  ifd_chain_broken (content s) num start avail (cursor s).
Proof.
  split.
  - intros (fuel & s' & Hw). revert s Hw.
    induction fuel as [|fuel IH]; intros s Hw; [discriminate|].
    cbn [walk_ifds] in Hw.
    pose proof (read_directory_verdict num avail s) as Hv.
    pose proof (read_directory_content num avail s) as Hc.
    destruct (read_directory num avail s) as [[| |next] s1]; cbn [fst snd] in *.
    + apply ifd_chain_broken_here. exact Hv.
    + discriminate.
    + destruct Hv as [Hnz Hat]. apply (ifd_chain_broken_later _ _ _ _ _ next Hat Hnz).
      specialize (IH _ Hw). cbn [seek content cursor] in IH. rewrite Hc in IH. exact IH.
  - intros Hchain.
    remember (content s) as bytes eqn:Hb. remember (cursor s) as off eqn:Ho.
    revert s Hb Ho.
    induction Hchain as [off Hnone|off next Hat Hnz _ IH]; intros s Hb Ho; subst.
    + pose proof (read_directory_verdict num avail s) as Hv.
      destruct (read_directory num avail s) as [[| |next] s1] eqn:Hrd; cbn [fst] in Hv.
      * exists 1%nat, s1. cbn [walk_ifds]. rewrite Hrd. reflexivity.
      * exfalso. exact (Hnone 0 Hv).
      * exfalso. exact (Hnone next (proj2 Hv)).
    + apply read_directory_ifd_at in Hat as (s1 & Heq & _).
      pose proof (read_directory_content num avail s) as Hc. rewrite Heq in Hc.
      cbn [snd] in Hc.
      destruct (IH (seek s1 (start + next) RWSEEK_BEG)) as (fuel & s' & Hw).
      { cbn. symmetry. exact Hc. }
      { reflexivity. }
      exists (S fuel), s'. cbn [walk_ifds]. rewrite Heq.
      destruct (Z.eqb_spec next 0); [contradiction|exact Hw].
Qed.


Lemma IsStreamCompatible_unfold fuel s :
  IsStreamCompatible fuel s =
  let h := bytes_from (content s) (cursor s) 8 in
  let s1 := mkStream (content s) (cursor s + Z.of_nat (length h)) in
  if negb (length h =? 8)%nat then Some (false, s1)
  else
    let byte_order := little_endian (field 0 2 h) in
    if (byte_order =? 0x4949) || (byte_order =? 0x4D4D) then
      let num := mk_number_format (byte_order =? 0x4D4D) in
      if negb (get_uint16 num (field 2 2 h) =? 42) then Some (false, s1)
      else walk_ifds fuel num (cursor s) (size s - cursor s)
             (mkStream (content s) (cursor s + get_uint32 num (field 4 4 h)))
    else Some (false, s1).
Proof.
  unfold IsStreamCompatible, probe_directories, read, tell, sizeof_tiff_header.
  cbv zeta. cbn [content cursor seek].
  destruct (negb _); [reflexivity|].
  destruct (Z.eqb_spec (little_endian (field 0 2 (bytes_from (content s) (cursor s) 8))) 0x4949)
    as [He|He].
  - rewrite He. reflexivity.
  - cbn [orb]. destruct (_ =? 0x4D4D); reflexivity.
Qed.

Lemma IsStreamCompatible_accepts s :
  (exists fuel s', IsStreamCompatible fuel s = Some (true, s')) <->
  well_formed_tiff (size s - tell s) s.
Proof.
  unfold well_formed_tiff, tell.
  setoid_rewrite IsStreamCompatible_unfold. cbv zeta.
  set (h := bytes_from (content s) (cursor s) 8).
  destruct (Nat.eqb_spec (length h) 8) as [Hl|Hl]; cbn [negb].
  2:{ split.
      - intros (fuel & s' & H). discriminate.
      - intros (h' & Hh & _). apply bytes_at_Some in Hh as [-> Hh]. contradiction. }
  set (bo := little_endian (field 0 2 h)).
  set (num := mk_number_format (bo =? 0x4D4D)).
  split.
  - intros (fuel & s' & H). exists h. split; [apply bytes_at_Some; auto|].
    fold bo. fold num.
    destruct (Z.eqb_spec bo 0x4949) as [He|He]; cbn [orb] in H.
    + destruct (Z.eqb_spec (get_uint16 num (field 2 2 h)) 42) as [H42|H42]; cbn [negb] in H;
        [|discriminate].
      split; [left; exact He|]. split; [exact H42|].
      apply (walk_ifds_accepts num (cursor s) (size s - cursor s)
               (mkStream (content s) (cursor s + get_uint32 num (field 4 4 h)))).
      eauto.
    + destruct (Z.eqb_spec bo 0x4D4D) as [He2|He2]; [|discriminate].
      destruct (Z.eqb_spec (get_uint16 num (field 2 2 h)) 42) as [H42|H42]; cbn [negb] in H;
        [|discriminate].
      split; [right; exact He2|]. split; [exact H42|].
      apply (walk_ifds_accepts num (cursor s) (size s - cursor s)
               (mkStream (content s) (cursor s + get_uint32 num (field 4 4 h)))).
      eauto.
  - intros (h' & Hh & Hbo & H42 & Hchain).
    apply bytes_at_Some in Hh as [-> _]. fold h in Hbo, H42, Hchain.
    fold bo in Hbo, H42, Hchain. fold num in H42, Hchain.
    apply (walk_ifds_accepts num (cursor s) (size s - cursor s)
             (mkStream (content s) (cursor s + get_uint32 num (field 4 4 h)))) in Hchain
      as (fuel & s' & Hw).
    exists fuel, s'.
    assert ((bo =? 0x4949) || (bo =? 0x4D4D) = true) as ->.
    { destruct Hbo as [->| ->]; reflexivity. }
    rewrite H42. exact Hw.
Qed.

Lemma IsStreamCompatible_rejects s :
  (exists fuel s', IsStreamCompatible fuel s = Some (false, s')) <->
  broken_tiff (size s - tell s) s.
Proof.
  unfold broken_tiff, tell.
  setoid_rewrite IsStreamCompatible_unfold. cbv zeta.
  set (h := bytes_from (content s) (cursor s) 8).
  destruct (Nat.eqb_spec (length h) 8) as [Hl|Hl]; cbn [negb].
  2:{ split.
      - intros _. left. unfold bytes_at. fold h.
        destruct (Nat.eqb_spec (length h) 8); [contradiction|reflexivity].
      - intros _. exists 0%nat. eauto. }
  set (bo := little_endian (field 0 2 h)).
  set (num := mk_number_format (bo =? 0x4D4D)).
  assert (Hh : bytes_at (content s) (cursor s) 8 = Some h) by (apply bytes_at_Some; auto).
  split.
  - intros (fuel & s' & H). right. exists h. split; [exact Hh|].
    fold bo. fold num.
    destruct (Z.eqb_spec bo 0x4949) as [He|He]; cbn [orb] in H.
    + destruct (Z.eqb_spec (get_uint16 num (field 2 2 h)) 42) as [H42|H42]; cbn [negb] in H.
      * right. right. split; [left; exact He|]. split; [exact H42|].
        apply (walk_ifds_rejects num (cursor s) (size s - cursor s)
                 (mkStream (content s) (cursor s + get_uint32 num (field 4 4 h)))).
        eauto.
      * right. left. auto.
    + destruct (Z.eqb_spec bo 0x4D4D) as [He2|He2]; [|left; auto].
      destruct (Z.eqb_spec (get_uint16 num (field 2 2 h)) 42) as [H42|H42]; cbn [negb] in H.
      * right. right. split; [right; exact He2|]. split; [exact H42|].
        apply (walk_ifds_rejects num (cursor s) (size s - cursor s)
                 (mkStream (content s) (cursor s + get_uint32 num (field 4 4 h)))).
        eauto.
      * right. left. auto.
  - intros [Hnone|(h' & Hh' & Hcase)]; [congruence|].
    rewrite Hh in Hh'. injection Hh' as <-. fold bo in Hcase. fold num in Hcase.
    destruct Hcase as [[H1 H2]|[[Hbo H42]|(Hbo & H42 & Hchain)]].
    + exists 0%nat. destruct (Z.eqb_spec bo 0x4949); [contradiction|].
      destruct (Z.eqb_spec bo 0x4D4D); [contradiction|]. cbn. eauto.
    + exists 0%nat.
      assert ((bo =? 0x4949) || (bo =? 0x4D4D) = true) as ->.
      { destruct Hbo as [->| ->]; reflexivity. }
      destruct (Z.eqb_spec (get_uint16 num (field 2 2 h)) 42); [contradiction|].
      cbn. eauto.
    + apply (walk_ifds_rejects num (cursor s) (size s - cursor s)
               (mkStream (content s) (cursor s + get_uint32 num (field 4 4 h)))) in Hchain
        as (fuel & s' & Hw).
      exists fuel, s'.
      assert ((bo =? 0x4949) || (bo =? 0x4D4D) = true) as ->.
      { destruct Hbo as [->| ->]; reflexivity. }
      rewrite H42. exact Hw.
Qed.


Example scenario_tiff_accepted :
  IsStreamCompatible 1 scenario_tiff = Some (true, mkStream (content scenario_tiff) 26).
Proof. vm_compute. reflexivity. Qed.

Lemma cyclic_tiff_walk fuel :
  walk_ifds fuel (mk_number_format false) 0 26 (mkStream (content cyclic_tiff) 8) = None.
Proof.
  induction fuel as [|fuel IH]; [reflexivity|].
  cbn [walk_ifds].
  assert (read_directory (mk_number_format false) 26 (mkStream (content cyclic_tiff) 8)
          = (IfdNext 8, mkStream (content cyclic_tiff) 26)) as ->
    by (vm_compute; reflexivity).
  exact IH.
Qed.

(** C7.  The stream [cyclic_tiff] has a well-formed header and one well-formed
    directory whose next-directory pointer leads back to that directory.  The
    claim has the probe return false on such an unterminated chain; the loop
    of the probe instead never ends: whatever number of passes it is given,
    it is still running, and the checks behind the loop are never reached. *)
Theorem IsStreamCompatible_cyclic_chain_never_returns :
  (forall fuel, IsStreamCompatible fuel cyclic_tiff = None) /\
  ~ well_formed_tiff (size cyclic_tiff - tell cyclic_tiff) cyclic_tiff /\
  ~ broken_tiff (size cyclic_tiff - tell cyclic_tiff) cyclic_tiff.
Proof.
  assert (Hnone : forall fuel, IsStreamCompatible fuel cyclic_tiff = None).
  { intros fuel. rewrite IsStreamCompatible_unfold.
    change (walk_ifds fuel (mk_number_format false) 0 26 (mkStream (content cyclic_tiff) 8)
            = None).
    apply cyclic_tiff_walk. }
  split; [exact Hnone|]. split.
  - intros Hwf. apply IsStreamCompatible_accepts in Hwf as (fuel & s' & H).
    rewrite Hnone in H. discriminate.
  - intros Hbr. apply IsStreamCompatible_rejects in Hbr as (fuel & s' & H).
    rewrite Hnone in H. discriminate.
Qed.




(** ** TIFF decoding: which rows are read directly *)

(** For a mapping without palette the decoder reads directly exactly when the
    sizes agree and the helper says that a conversion IS needed. *)
Lemma canTexelsDirectlyAcquire_no_palette m scanline_size dstRowSize :
  dstPaletteType m = PALETTE_NONE ->
  canTexelsDirectlyAcquire m scanline_size dstRowSize
  = (scanline_size =? dstRowSize)
    && doRawMipmapBuffersNeedConversion
         (tiffRasterFormat m) (tiffDepth m) (tiffColorOrder m) PALETTE_NONE
         (dstRasterFormat m) (dstDepth m) (dstColorOrder m) PALETTE_NONE.
Proof.
  intros Hpal. unfold canTexelsDirectlyAcquire. rewrite Hpal.
  destruct (scanline_size =? dstRowSize); reflexivity.
Qed.

(** The encoder, for a layout without palette, writes directly exactly when
    the sizes agree and the helper says that NO conversion is needed. *)
Lemma canDirectlyWrite_no_palette src tiff srcRowSize tiffRowSize :
  paletteType tiff = PALETTE_NONE ->
  canDirectlyWrite src tiff srcRowSize tiffRowSize
  = negb (doRawMipmapBuffersNeedConversion
            (rasterFormat src) (depth src) (colorOrder src) (paletteType src)
            (rasterFormat tiff) (depth tiff) (colorOrder tiff) (paletteType tiff))
    && (tiffRowSize =? srcRowSize).
Proof. intros Hpal. unfold canDirectlyWrite. rewrite Hpal. reflexivity. Qed.

(** C8.  Min-is-white grayscale, 8 bits, a row of 4 pixels: the scanline size
    equals the destination row size and a conversion between the TIFF layout
    and the destination layout is needed, yet the row is read directly into
    the destination buffer.  Min-is-black grayscale of the same shape: the
    sizes agree and no conversion is needed, yet the row goes through the
    transform buffer; the encoder, asked about the same two layouts and
    sizes, writes directly.  Whatever the locals left without initialiser
    hold. *)
Theorem DeserializeImage_direct_read_inverted (indeterminate : Z * Z * eTIFF_ParseMode) :
  let white := gray_tiff PHOTOMETRIC_MINISWHITE in
  let black := gray_tiff PHOTOMETRIC_MINISBLACK in
  let mw := determine_mapping indeterminate white in
  let mb := determine_mapping indeterminate black in
  (hasKnownMapping mw = true /\ dstPaletteType mw = PALETTE_NONE /\
   scanline_size white = getRasterDataRowSize (image_width white) (dstDepth mw)
                           (dstRowAlignment mw) /\
   doRawMipmapBuffersNeedConversion
     (tiffRasterFormat mw) (tiffDepth mw) (tiffColorOrder mw) PALETTE_NONE
     (dstRasterFormat mw) (dstDepth mw) (dstColorOrder mw) PALETTE_NONE = true /\
   read_texels white mw = Returns [ReadDirectly [10; 20; 30; 40]] tt)
  /\
  (hasKnownMapping mb = true /\ dstPaletteType mb = PALETTE_NONE /\
   scanline_size black = getRasterDataRowSize (image_width black) (dstDepth mb)
                           (dstRowAlignment mb) /\
   doRawMipmapBuffersNeedConversion
     (tiffRasterFormat mb) (tiffDepth mb) (tiffColorOrder mb) PALETTE_NONE
     (dstRasterFormat mb) (dstDepth mb) (dstColorOrder mb) PALETTE_NONE = false /\
   read_texels black mb
     = Returns [Transformed [Luminance 10 255; Luminance 20 255;
                             Luminance 30 255; Luminance 40 255]] tt /\
   canDirectlyWrite
     (mk_raster_layout (dstRasterFormat mb) (dstDepth mb) (dstRowAlignment mb)
        (dstColorOrder mb) PALETTE_NONE 0)
     (mk_raster_layout (tiffRasterFormat mb) (tiffDepth mb) 1 (tiffColorOrder mb)
        PALETTE_NONE 0)
     4 (scanline_size black) = true).
Proof.
  destruct indeterminate as [[dstDepth0 tiffDepth0] parseMode0].
  cbv zeta. split; repeat split; reflexivity.
Qed.

(** ** The PowerVR provider: the format chosen on acquisition *)




(* ===================================================================== *)
(** * Further properties of the code *)
(* ===================================================================== *)

(** ** NativeImage: fetch, put, read, clear *)


Section NativeImageOperations.
Context {ImgData NativeTex : Type}.
Context {typeMan : nativeImageTypeManager ImgData NativeTex}.
Context {rasterTypeMan : texNativeTypeProvider NativeTex}.

Local Abbreviation St := (State ImgData NativeTex).

Lemma Raster_rem_add_ConstRef (R : Raster NativeTex) :
  Raster_remConstRef (Raster_addConstRef R) = R.
Proof. destruct R as [rc c pd]. unfold Raster_remConstRef, Raster_addConstRef. cbn. f_equal. lia. Qed.

Lemma lookup_pin_unpin raster (m : gmap RasterPtr (Raster NativeTex)) p :
  alter Raster_remConstRef raster (alter Raster_addConstRef raster m) !! p = m !! p.
Proof.
  destruct (decide (raster = p)) as [->|Hne].
  - rewrite !lookup_alter_eq. destruct (m !! p) as [R|]; cbn; [|reflexivity].
    rewrite Raster_rem_add_ConstRef. reflexivity.
  - rewrite !lookup_alter_ne by assumption. reflexivity.
Qed.







Lemma counts_alter (f : Raster NativeTex -> Raster NativeTex)
    (g : Z * Z -> Z * Z) p (m m' : gmap RasterPtr (Raster NativeTex)) :
  (forall R, counts (f R) = g (counts R)) ->
  (forall q, counts <$> m !! q = counts <$> m' !! q) ->
  forall q, counts <$> alter f p m !! q = counts <$> alter f p m' !! q.
Proof.
  intros Hf Hm q. destruct (decide (p = q)) as [->|Hne].
  - rewrite !lookup_alter_eq. specialize (Hm q).
    destruct (m !! q), (m' !! q); cbn in *; congruence.
  - rewrite !lookup_alter_ne by assumption. apply Hm.
Qed.

Lemma counts_clearImageData (s1 s2 : St) :
  pixelOwner (this s1) = pixelOwner (this s2) ->
  externalRasterRef (this s1) = externalRasterRef (this s2) ->
  (forall q, counts <$> rasters s1 !! q = counts <$> rasters s2 !! q) ->
  forall q, counts <$> rasters (clearImageData s1) !! q
          = counts <$> rasters (clearImageData s2) !! q.
Proof.
  intros Ho He Hm. rewrite !clearImageData_rasters, Ho, He.
  destruct (pixelOwner (this s2)) as [p|]; [|exact Hm].
  apply (counts_alter Raster_delete (fun c => (fst c - 1, snd c))); [reflexivity|].
  destruct (externalRasterRef (this s2)); [exact Hm|].
  apply (counts_alter Raster_remConstRef (fun c => (fst c, snd c - 1))); [reflexivity|exact Hm].
Qed.

Lemma putToRaster_counts raster (s s' : St) :
  final_state (putToRaster raster s) = Some s' ->
  ownership (this s') = ownership (this s) /\
  forall q, counts <$> rasters s' !! q = counts <$> rasters s !! q.
Proof.
  unfold putToRaster.
  destruct (pixelOwner (this s)).
  { cbn. intros [= <-]. split; reflexivity. }
  unfold NativeImagePutToRaster_internal.
  destruct (rasters s !! raster) as [R|] eqn:HR; [|discriminate].
  destruct (platformData R) as [tex|].
  2:{ cbn. intros [= <-]. split; reflexivity. }
  cbn. destruct (WriteToNativeTexture _ _ _) as [fb [d t]|code [d t]];
    cbn; intros [= <-]; (split; [reflexivity|]); intros r; cbn;
    (destruct (decide (raster = r)) as [->|?];
     [rewrite !lookup_alter_eq; destruct (rasters s !! r); reflexivity
     |rewrite !lookup_alter_ne by assumption; reflexivity]).
Qed.

Lemma lookup_borrow_release raster (m : gmap RasterPtr (Raster NativeTex)) p :
  alter Raster_delete raster
    (alter Raster_remConstRef raster
       (alter Raster_acquire raster (alter Raster_addConstRef raster m))) !! p = m !! p.
Proof.
  destruct (decide (raster = p)) as [->|Hne].
  - rewrite !lookup_alter_eq. destruct (m !! p) as [[rc c pd]|]; cbn; [|reflexivity].
    unfold Raster_delete, Raster_remConstRef, Raster_acquire, Raster_addConstRef. cbn.
    do 2 f_equal; lia.
  - rewrite !lookup_alter_ne by assumption. reflexivity.
Qed.

Lemma lookup_acquire_delete raster (m : gmap RasterPtr (Raster NativeTex)) p :
  alter Raster_delete raster (alter Raster_acquire raster m) !! p = m !! p.
Proof.
  destruct (decide (raster = p)) as [->|Hne].
  - rewrite !lookup_alter_eq. destruct (m !! p) as [[rc c pd]|]; cbn; [|reflexivity].
    unfold Raster_delete, Raster_acquire. cbn. do 2 f_equal; lia.
  - rewrite !lookup_alter_ne by assumption. reflexivity.
Qed.




Lemma references_match_owner_ownership (i j : NativeImagePrivate ImgData) :
  ownership i = ownership j -> references_match_owner j -> references_match_owner i.
Proof.
  unfold references_match_owner, ownership. intros [= -> -> -> _]. auto.
Qed.

Lemma references_match_owner_empty (i : NativeImagePrivate ImgData) :
  ownership i = empty_ownership -> references_match_owner i.
Proof.
  unfold references_match_owner, ownership, empty_ownership. intros [= -> -> -> _]. cbn.
  split; [discriminate|]. intros [? ?]. discriminate.
Qed.

Lemma fetchFromRaster_throws_empty raster (s s' : St) e :
  fetchFromRaster raster s = Throws e s' -> ownership (this s') = empty_ownership.
Proof.
  unfold fetchFromRaster.
  pose proof (clearImageData_empty s) as Hclear.
  set (s1 := clearImageData s) in *.
  destruct (rasters s1 !! raster) as [R|]; [|discriminate].
  unfold bind, try_catch_rethrow.
  destruct (NativeImageFetchFromRaster_internal raster _ false (addConstRef raster s1))
    as [needsRef s2|e2 s2|] eqn:Hint; [discriminate| |discriminate].
  intros [= <- <-].
  apply fetch_internal_throws in Hint as [Hown _].
  unfold remConstRef. rewrite this_on_raster, Hown.
  unfold addConstRef. rewrite this_on_raster. exact Hclear.
Qed.

Lemma references_match_owner_fields (i j : NativeImagePrivate ImgData) :
  hasPaletteDataRef i = hasPaletteDataRef j -> hasPixelDataRef i = hasPixelDataRef j ->
  pixelOwner i = pixelOwner j -> references_match_owner j -> references_match_owner i.
Proof. unfold references_match_owner. intros -> -> ->. auto. Qed.

Lemma fetch_internal_references_match_owner raster name needsRef (s s' : St) :
  ownership (this s) = empty_ownership ->
  final_state (NativeImageFetchFromRaster_internal raster name needsRef s) = Some s' ->
  references_match_owner (this s').
Proof.
  intros Hempty. unfold NativeImageFetchFromRaster_internal.
  destruct (rasters s !! raster) as [R|]; [|discriminate].
  destruct s as [[pal pix own ext d0] rs cs]. cbn in Hempty |- *.
  injection Hempty as -> -> -> ->.
  destruct (platformData R) as [nativeTex|].
  2:{ cbn. intros [= <-]. apply references_match_owner_empty. reflexivity. }
  destruct (ReadFromNativeTexture d0 name nativeTex) as [fb d|code d].
  2:{ cbn. intros [= <-]. apply references_match_owner_empty. reflexivity. }
  destruct (hasDirectlyAcquiredPalette fb || hasDirectlyAcquired fb) eqn:Hfb;
    cbn; intros [= <-]; unfold references_match_owner; cbn; rewrite Hfb; split; eauto.
  - discriminate.
  - intros [? ?]. discriminate.
Qed.

Lemma run_method_references_match_owner m (s s' : St) :
  run_method m s = Some s' ->
  references_match_owner (this s) -> references_match_owner (this s').
Proof.
  destruct m as [raster|raster name|raster|raster|stream]; cbn; intros Hfin Hinv.
  - unfold fetchFromRaster in Hfin.
    pose proof (clearImageData_empty s) as Hempty.
    set (s1 := clearImageData s) in *.
    destruct (rasters s1 !! raster) as [R|]; [|discriminate].
    unfold bind, try_catch_rethrow in Hfin.
    pose proof (fetch_internal_references_match_owner raster (getNativeDataTypeName R) false
                  (addConstRef raster s1)) as Hint.
    destruct (NativeImageFetchFromRaster_internal raster _ false (addConstRef raster s1))
      as [needsRef s2|e2 s2|]; [| |discriminate]; cbn in Hfin; injection Hfin as <-;
      specialize (Hint s2 Hempty eq_refl).
    + apply (references_match_owner_fields _ (this s2)); try assumption;
        destruct needsRef; reflexivity.
    + apply (references_match_owner_fields _ (this s2)); try assumption; reflexivity.
  - unfold NativeImageFetchFromRasterNoLock, bind in Hfin.
    pose proof (clearImageData_empty s) as Hempty.
    set (s1 := clearImageData s) in *.
    pose proof (fetch_internal_references_match_owner raster name false s1) as Hint.
    destruct (NativeImageFetchFromRaster_internal raster name false s1)
      as [needsRef s2|e2 s2|]; [| |discriminate]; cbn in Hfin; injection Hfin as <-;
      specialize (Hint s2 Hempty eq_refl).
    + apply (references_match_owner_fields _ (this s2)); try assumption; reflexivity.
    + exact Hint.
  - destruct (putToRaster_counts raster s s' Hfin) as [Ho _].
    eapply references_match_owner_ownership; eassumption.
  - destruct (putToRaster_counts raster s s' Hfin) as [Ho _].
    eapply references_match_owner_ownership; eassumption.
  - destruct (readFromStream_final stream s s' Hfin) as [Ho _].
    unfold readFromStream in Hfin.
    pose proof (clearImageData_empty s) as Hempty.
    set (s1 := clearImageData s) in *.
    destruct s1 as [[pal pix own ext d0] rs cs]. cbn in Hempty, Hfin.
    injection Hempty as -> -> -> ->.
    destruct (ReadNativeImage d0 stream) as [u [d st]|code [d st]]; cbn in Hfin;
      injection Hfin as <-; apply references_match_owner_empty; reflexivity.
Qed.

Lemma step_references_match_owner (w w' : World ImgData NativeTex) :
  step w w' ->
  (forall i img, images w !! i = Some img -> references_match_owner img) ->
  forall i img, images w' !! i = Some img -> references_match_owner img.
Proof.
  intros Hstep Hinv.
  destruct Hstep as [w i d Hi|w i j img Hi Hj|w i img Hi|w i img m s' Hi Hrun
                    |w p R Hp Hc|w p R a Hp Ha]; cbn; intros k img' Hk.
  - destruct (decide (i = k)) as [->|Hne].
    + rewrite lookup_insert_eq in Hk. injection Hk as <-.
      apply references_match_owner_empty. reflexivity.
    + rewrite lookup_insert_ne in Hk by assumption. eauto.
  - destruct (decide (j = k)) as [->|Hne].
    + rewrite lookup_insert_eq in Hk. injection Hk as <-.
      apply (references_match_owner_ownership _ img); [|eauto].
      destruct img as [pal pix [p|] ext d]; reflexivity.
    + rewrite lookup_insert_ne in Hk by assumption. eauto.
  - destruct (decide (i = k)) as [->|Hne].
    + rewrite lookup_delete_eq in Hk. discriminate.
    + rewrite lookup_delete_ne in Hk by assumption. eauto.
  - destruct (decide (i = k)) as [->|Hne].
    + rewrite lookup_insert_eq in Hk. injection Hk as <-.
      apply (run_method_references_match_owner m (enter w img) s' Hrun).
      change (this (enter w img)) with img. eauto.
    + rewrite lookup_insert_ne in Hk by assumption. eauto.
  - eauto.
  - eauto.
Qed.

Lemma clearImageData_calls (s : St) :
  calls (clearImageData s)
  = calls s ++ [CallClearPaletteData (negb (hasPaletteDataRef (this s)));
                CallClearImageData (negb (hasPixelDataRef (this s)))].
Proof.
  destruct s as [[pal pix [p|] [|] d] rs cs]; unfold clearImageData; cbn;
    rewrite <- ?app_assoc; reflexivity.
Qed.

End NativeImageOperations.

(** X1.  When [fetchFromRaster] returns.  It begins with [clearImageData],
    which releases what the handle owned on entry: a previous [pixelOwner]
    loses one owning reference and, unless [externalRasterRef] was set, one
    const-reference; a handle without [pixelOwner] leaves the rasters as they
    were on entry.  The raster then had native data and the codec's
    [ReadFromNativeTexture] returned on the payload as [clearImageData] left
    it; the handle's two data-reference flags are the codec's feedback, its
    payload is what the codec left, [externalRasterRef] is false.  Measured
    against the rasters after that release: if the codec acquired palette or
    texels directly, [pixelOwner] is the raster and the raster's reference
    count and const-reference count are each one higher, otherwise
    [pixelOwner] is null and the raster is the same; every other raster is
    the same. *)
Theorem fetchFromRaster_result
    {ImgData NativeTex : Type}
    (typeMan : nativeImageTypeManager ImgData NativeTex)
    (rasterTypeMan : texNativeTypeProvider NativeTex)
    (raster : RasterPtr) (s s' : State ImgData NativeTex) :
  fetchFromRaster raster s = Returns tt s' ->
  rasters (clearImageData s)
  = match pixelOwner (this s) with
    | Some previous =>
        alter Raster_delete previous
          (if externalRasterRef (this s) then rasters s
           else alter Raster_remConstRef previous (rasters s))
    | None => rasters s
    end /\
  exists R nativeTex acquireFeedback d,
    rasters (clearImageData s) !! raster = Some R /\
    platformData R = Some nativeTex /\
    ReadFromNativeTexture (nativeData (this (clearImageData s)))
      (nativeTexTypeName nativeTex) nativeTex = PluginReturns acquireFeedback d /\
    this s' = mkNativeImage (hasDirectlyAcquiredPalette acquireFeedback)
                (hasDirectlyAcquired acquireFeedback)
                (if hasDirectlyAcquiredPalette acquireFeedback || hasDirectlyAcquired acquireFeedback
                 then Some raster else None)
                false d /\
    rasters s' !! raster
      = Some (if hasDirectlyAcquiredPalette acquireFeedback || hasDirectlyAcquired acquireFeedback
              then mkRaster (refCount R + 1) (constRefCount R + 1) (platformData R)
              else R) /\
    (forall p, p <> raster -> rasters s' !! p = rasters (clearImageData s) !! p).
Proof.
  intros Hfetch. split; [apply clearImageData_rasters|]. revert Hfetch.
  unfold fetchFromRaster.
  pose proof (clearImageData_empty s) as Hempty.
  set (s1 := clearImageData s) in *.
  destruct (rasters s1 !! raster) as [R|] eqn:HR; [|discriminate].
  unfold bind, try_catch_rethrow, NativeImageFetchFromRaster_internal.
  change (rasters (addConstRef raster s1)) with (alter Raster_addConstRef raster (rasters s1)).
  rewrite lookup_alter_eq, HR. cbn [fmap option_fmap option_map platformData Raster_addConstRef].
  unfold getNativeDataTypeName.
  destruct (platformData R) as [nativeTex|] eqn:Htex; [|discriminate].
  change (nativeData (this (record_call CallReadFromNativeTexture (addConstRef raster s1))))
    with (nativeData (this s1)).
  destruct (ReadFromNativeTexture (nativeData (this s1)) (nativeTexTypeName nativeTex) nativeTex)
    as [fb d|code d] eqn:Hread; [|discriminate].
  destruct s1 as [[pal pix own ext d0] rs cs]. cbn in Hempty, HR, Hread |- *.
  injection Hempty as -> -> -> ->.
  destruct (hasDirectlyAcquiredPalette fb || hasDirectlyAcquired fb) eqn:Hfb;
    cbn; intros [= <-]; exists R, nativeTex, fb, d; rewrite Hfb; cbn.
  - split; [first [reflexivity|exact HR]|]. split; [first [reflexivity|exact Htex]|].
    split; [first [reflexivity|exact Hread]|].
    split; [reflexivity|]. split.
    + rewrite !lookup_alter_eq, HR. unfold Raster_acquire, Raster_addConstRef. cbn.
      rewrite ?Htex. reflexivity.
    + intros p Hp. rewrite !lookup_alter_ne by congruence. reflexivity.
  - split; [first [reflexivity|exact HR]|]. split; [first [reflexivity|exact Htex]|].
    split; [first [reflexivity|exact Hread]|].
    split; [reflexivity|]. split.
    + rewrite lookup_pin_unpin. exact HR.
    + intros p Hp. rewrite !lookup_alter_ne by congruence. reflexivity.
Qed.

Lemma fetchFromRaster_result_witness :
  exists s' R nativeTex acquireFeedback d,
    fetchFromRaster (typeMan := sharing_codec) (rasterTypeMan := pvr_provider) 0%nat
      borrowed_state = Returns tt s' /\
    rasters (clearImageData (typeMan := sharing_codec) borrowed_state)
    = alter Raster_delete 0%nat (rasters borrowed_state) /\
    rasters (clearImageData (typeMan := sharing_codec) borrowed_state) !! 0%nat = Some R /\
    platformData R = Some nativeTex /\
    ReadFromNativeTexture (nativeImageTypeManager := sharing_codec)
      (nativeData (this (clearImageData (typeMan := sharing_codec) borrowed_state)))
      (nativeTexTypeName (texNativeTypeProvider := pvr_provider) nativeTex) nativeTex
      = PluginReturns acquireFeedback d /\
    this s' = mkNativeImage (hasDirectlyAcquiredPalette acquireFeedback)
                (hasDirectlyAcquired acquireFeedback)
                (if hasDirectlyAcquiredPalette acquireFeedback || hasDirectlyAcquired acquireFeedback
                 then Some 0%nat else None)
                false d /\
    rasters s' !! 0%nat
      = Some (if hasDirectlyAcquiredPalette acquireFeedback || hasDirectlyAcquired acquireFeedback
              then mkRaster (refCount R + 1) (constRefCount R + 1) (platformData R)
              else R) /\
    (forall p, p <> 0%nat ->
       rasters s' !! p
       = rasters (clearImageData (typeMan := sharing_codec) borrowed_state) !! p).
Proof.
  eexists.
  assert (H : fetchFromRaster (typeMan := sharing_codec) (rasterTypeMan := pvr_provider)
                0%nat borrowed_state = Returns tt _) by (vm_compute; reflexivity).
  destruct (fetchFromRaster_result sharing_codec pvr_provider 0%nat borrowed_state _ H)
    as (Hclear & R & nativeTex & fb & d & Hrest).
  exists R, nativeTex, fb, d. split; [exact H|]. split; [exact Hclear|exact Hrest].
Defined.

(** X2.  When [fetchFromRaster] throws: every raster is as [clearImageData]
    left it, so the const-reference taken for the duration of the call has
    been given back and no owning reference is kept; the handle is in the
    empty ownership state.  The exception is "raster has no native data",
    thrown before any codec call, when the raster has none; otherwise it is
    what the codec's [ReadFromNativeTexture] threw. *)
Theorem fetchFromRaster_failure_returns_references
    {ImgData NativeTex : Type}
    (typeMan : nativeImageTypeManager ImgData NativeTex)
    (rasterTypeMan : texNativeTypeProvider NativeTex)
    (raster : RasterPtr) (s s' : State ImgData NativeTex) (e : exn) :
  fetchFromRaster raster s = Throws e s' ->
  (forall p, rasters s' !! p = rasters (clearImageData s) !! p) /\
  ownership (this s') = empty_ownership /\
  exists R, rasters (clearImageData s) !! raster = Some R /\
    match platformData R with
    | None => e = RwException MsgFetchNoNativeData /\ calls s' = calls (clearImageData s)
    | Some nativeTex =>
        exists code d,
          ReadFromNativeTexture (nativeData (this (clearImageData s)))
            (nativeTexTypeName nativeTex) nativeTex = PluginThrows code d /\
          e = PluginException code /\ nativeData (this s') = d
    end.
Proof.
  intros H. pose proof (fetchFromRaster_throws_empty raster s s' e H) as Hempty.
  revert H. unfold fetchFromRaster.
  set (s1 := clearImageData s) in *.
  destruct (rasters s1 !! raster) as [R|] eqn:HR; [|discriminate].
  unfold bind, try_catch_rethrow, NativeImageFetchFromRaster_internal.
  change (rasters (addConstRef raster s1)) with (alter Raster_addConstRef raster (rasters s1)).
  rewrite lookup_alter_eq, HR. cbn [fmap option_fmap option_map platformData Raster_addConstRef].
  unfold getNativeDataTypeName.
  destruct (platformData R) as [nativeTex|] eqn:Htex.
  - change (nativeData (this (record_call CallReadFromNativeTexture (addConstRef raster s1))))
      with (nativeData (this s1)).
    destruct (ReadFromNativeTexture (nativeData (this s1)) (nativeTexTypeName nativeTex) nativeTex)
      as [fb d|code d] eqn:Hread.
    + destruct (hasDirectlyAcquiredPalette fb || hasDirectlyAcquired fb); discriminate.
    + intros [= <- <-]. split; [|split; [exact Hempty|]].
      * intros p. cbn. apply lookup_pin_unpin.
      * exists R. split; [reflexivity|]. rewrite Htex. exists code, d. auto.
  - intros [= <- <-]. split; [|split; [exact Hempty|]].
    + intros p. cbn. apply lookup_pin_unpin.
    + exists R. split; [reflexivity|]. rewrite Htex. auto.
Qed.

Lemma fetchFromRaster_failure_returns_references_witness :
  exists s',
    fetchFromRaster (typeMan := refusing_codec) (rasterTypeMan := pvr_provider) 0%nat sample_state
      = Throws (PluginException 2) s' /\
    (forall p, rasters s' !! p
               = rasters (clearImageData (typeMan := refusing_codec) sample_state) !! p) /\
    ownership (this s') = empty_ownership /\
    exists R, rasters (clearImageData (typeMan := refusing_codec) sample_state) !! 0%nat = Some R /\
      match platformData R with
      | None => PluginException 2 = RwException MsgFetchNoNativeData /\
                calls s' = calls (clearImageData (typeMan := refusing_codec) sample_state)
      | Some nativeTex =>
          exists code d,
            ReadFromNativeTexture (nativeImageTypeManager := refusing_codec)
              (nativeData (this (clearImageData (typeMan := refusing_codec) sample_state)))
              (nativeTexTypeName (texNativeTypeProvider := pvr_provider) nativeTex) nativeTex
              = PluginThrows code d /\
            PluginException 2 = PluginException code /\ nativeData (this s') = d
      end.
Proof.
  eexists.
  assert (H : fetchFromRaster (typeMan := refusing_codec) (rasterTypeMan := pvr_provider)
                0%nat sample_state = Throws (PluginException 2) _) by (vm_compute; reflexivity).
  split; [exact H|].
  exact (fetchFromRaster_failure_returns_references refusing_codec pvr_provider 0%nat
           sample_state _ (PluginException 2) H).
Defined.

(** X3.  [NativeImageFetchFromRasterNoLock] in each of its outcomes.  It
    begins with [clearImageData], which releases what the handle owned on
    entry: a previous [pixelOwner] loses one owning reference and, unless
    [externalRasterRef] was set, one const-reference.  Behind that release
    the function itself takes and gives back no const-reference: all it does
    to the rasters is one [AcquireRaster] when it returns with [needsRefOut]
    true.  When it returns, [externalRasterRef] is true and [needsRefOut] is
    true exactly when the handle now has the raster as [pixelOwner], which is
    exactly when one of its data-reference flags is set.  When it throws the
    handle is empty and the rasters are as [clearImageData] left them.  It
    has no defined outcome only if the raster is not a live object. *)
Theorem NativeImageFetchFromRasterNoLock_result
    {ImgData NativeTex : Type}
    (typeMan : nativeImageTypeManager ImgData NativeTex)
    (rasterTypeMan : texNativeTypeProvider NativeTex)
    (raster : RasterPtr) (nativeTexName : string) (s : State ImgData NativeTex) :
  rasters (clearImageData s)
  = match pixelOwner (this s) with
    | Some previous =>
        alter Raster_delete previous
          (if externalRasterRef (this s) then rasters s
           else alter Raster_remConstRef previous (rasters s))
    | None => rasters s
    end /\
  match NativeImageFetchFromRasterNoLock raster nativeTexName s with
  | Returns needsRef s' =>
      externalRasterRef (this s') = true /\
      pixelOwner (this s') = (if needsRef then Some raster else None) /\
      hasPaletteDataRef (this s') || hasPixelDataRef (this s') = needsRef /\
      rasters s' = (if needsRef then alter Raster_acquire raster (rasters (clearImageData s))
                    else rasters (clearImageData s))
  | Throws e s' =>
      ownership (this s') = empty_ownership /\ rasters s' = rasters (clearImageData s)
  | Undefined => rasters (clearImageData s) !! raster = None
  end.
Proof.
  split; [apply clearImageData_rasters|].
  unfold NativeImageFetchFromRasterNoLock.
  pose proof (clearImageData_empty s) as Hempty.
  set (s1 := clearImageData s) in *.
  unfold bind, NativeImageFetchFromRaster_internal.
  destruct (rasters s1 !! raster) as [R|] eqn:HR; [|reflexivity].
  destruct s1 as [[pal pix own ext d0] rs cs]. cbn in Hempty, HR |- *.
  injection Hempty as -> -> -> ->.
  destruct (platformData R) as [nativeTex|]; [|split; reflexivity].
  destruct (ReadFromNativeTexture d0 nativeTexName nativeTex) as [fb d|code d];
    [|split; reflexivity].
  destruct (hasDirectlyAcquiredPalette fb || hasDirectlyAcquired fb) eqn:Hfb; cbn;
    rewrite ?Hfb; repeat split; reflexivity.
Qed.

(** X4.  When [putToRaster] returns: the handle had no [pixelOwner]; the
    raster's previous pixel data was unset (with deallocation) before the
    codec's [WriteToNativeTexture] ran on what was left; the raster now holds
    the texture the codec left, with its two reference counts unchanged, and
    no other raster changed; the handle's four ownership fields are as on
    entry; the payload was cleared with [ClearPaletteData] and then
    [ClearImageData], each told to deallocate exactly when the codec did not
    hand the buffer over directly; the plug-in calls were made in this
    order. *)
Theorem putToRaster_result
    {ImgData NativeTex : Type}
    (typeMan : nativeImageTypeManager ImgData NativeTex)
    (rasterTypeMan : texNativeTypeProvider NativeTex)
    (raster : RasterPtr) (s s' : State ImgData NativeTex) :
  putToRaster raster s = Returns tt s' ->
  pixelOwner (this s) = None /\
  exists R nativeTex acquireFeedback d t,
    rasters s !! raster = Some R /\ platformData R = Some nativeTex /\
    WriteToNativeTexture (nativeData (this s)) (nativeTexTypeName nativeTex)
      (UnsetPixelDataFromTexture nativeTex true) = PluginReturns acquireFeedback (d, t) /\
    rasters s' !! raster = Some (mkRaster (refCount R) (constRefCount R) (Some t)) /\
    (forall p, p <> raster -> rasters s' !! p = rasters s !! p) /\
    ownership (this s') = ownership (this s) /\
    nativeData (this s')
      = ClearImageData
          (ClearPaletteData d (negb (hasDirectlyAcquiredPalette acquireFeedback)))
          (negb (hasDirectlyAcquired acquireFeedback)) /\
    calls s' = calls s ++
      [CallUnsetPixelDataFromTexture true; CallWriteToNativeTexture;
       CallClearPaletteData (negb (hasDirectlyAcquiredPalette acquireFeedback));
       CallClearImageData (negb (hasDirectlyAcquired acquireFeedback))].
Proof.
  unfold putToRaster.
  destruct (pixelOwner (this s)) eqn:Hown; [discriminate|].
  unfold NativeImagePutToRaster_internal.
  destruct (rasters s !! raster) as [R|] eqn:HR; [|discriminate].
  destruct (platformData R) as [nativeTex|] eqn:Htex; [|discriminate].
  cbn. destruct (WriteToNativeTexture _ _ _) as [fb [d t]|code [d t]] eqn:Hw; [|discriminate].
  intros [= <-]. split; [reflexivity|]. exists R, nativeTex, fb, d, t.
  split; [reflexivity|]. split; [exact Htex|]. split; [exact Hw|]. cbn. split.
  { rewrite !lookup_alter_eq, HR. reflexivity. }
  split.
  { intros p Hp. rewrite !lookup_alter_ne by congruence. reflexivity. }
  split; [reflexivity|]. split; [reflexivity|].
  rewrite <- !app_assoc. reflexivity.
Qed.

Lemma putToRaster_result_witness :
  exists s',
    putToRaster (typeMan := sharing_codec) (rasterTypeMan := pvr_provider) 0%nat sample_state
      = Returns tt s' /\
    pixelOwner (this sample_state) = None /\
    exists R nativeTex acquireFeedback d t,
      rasters sample_state !! 0%nat = Some R /\ platformData R = Some nativeTex /\
      WriteToNativeTexture (nativeImageTypeManager := sharing_codec)
        (nativeData (this sample_state))
        (nativeTexTypeName (texNativeTypeProvider := pvr_provider) nativeTex)
        (UnsetPixelDataFromTexture (texNativeTypeProvider := pvr_provider) nativeTex true)
        = PluginReturns acquireFeedback (d, t) /\
      rasters s' !! 0%nat = Some (mkRaster (refCount R) (constRefCount R) (Some t)) /\
      (forall p, p <> 0%nat -> rasters s' !! p = rasters sample_state !! p) /\
      ownership (this s') = ownership (this sample_state) /\
      nativeData (this s')
        = ClearImageData (nativeImageTypeManager := sharing_codec)
            (ClearPaletteData (nativeImageTypeManager := sharing_codec) d
               (negb (hasDirectlyAcquiredPalette acquireFeedback)))
            (negb (hasDirectlyAcquired acquireFeedback)) /\
      calls s' = calls sample_state ++
        [CallUnsetPixelDataFromTexture true; CallWriteToNativeTexture;
         CallClearPaletteData (negb (hasDirectlyAcquiredPalette acquireFeedback));
         CallClearImageData (negb (hasDirectlyAcquired acquireFeedback))].
Proof.
  eexists.
  assert (H : putToRaster (typeMan := sharing_codec) (rasterTypeMan := pvr_provider)
                0%nat sample_state = Returns tt _) by (vm_compute; reflexivity).
  split; [exact H|].
  exact (putToRaster_result sharing_codec pvr_provider 0%nat sample_state _ H).
Defined.

(** X5.  [readFromStream] always has a defined outcome.  Whether the codec's
    [ReadNativeImage] returns or throws, the handle is left in the empty
    ownership state and the rasters are as [clearImageData] left them (a
    previous owner has been released); the codec was handed the stream as the
    caller passed it and the stream is left as the codec left it: it is not
    sought back, on a throw either. *)
Theorem readFromStream_result
    {ImgData NativeTex : Type}
    (typeMan : nativeImageTypeManager ImgData NativeTex)
    (stream : Stream) (s : State ImgData NativeTex) :
  match readFromStream stream s with
  | Returns _ (s', stream') =>
      ownership (this s') = empty_ownership /\ rasters s' = rasters (clearImageData s) /\
      exists d, ReadNativeImage (nativeData (this (clearImageData s))) stream
                = PluginReturns tt (d, stream') /\ nativeData (this s') = d
  | Throws e (s', stream') =>
      ownership (this s') = empty_ownership /\ rasters s' = rasters (clearImageData s) /\
      exists code d, ReadNativeImage (nativeData (this (clearImageData s))) stream
                     = PluginThrows code (d, stream') /\
        e = PluginException code /\ nativeData (this s') = d
  | Undefined => False
  end.
Proof.
  unfold readFromStream.
  pose proof (clearImageData_empty s) as Hempty.
  set (s1 := clearImageData s) in *.
  destruct s1 as [[pal pix own ext d0] rs cs]. cbn in Hempty |- *.
  injection Hempty as -> -> -> ->.
  destruct (ReadNativeImage d0 stream) as [[] [d st]|code [d st]]; cbn; eauto 10.
Qed.

(** X6.  No method of a handle leaks or takes away a reference: after
    [fetchFromRaster], the NoLock fetch, [putToRaster], its NoLock variant or
    [readFromStream], whether the call returned or threw, destroying the
    handle leaves every raster with the reference count and the
    const-reference count that destroying the handle before the call would
    have left. *)
Theorem methods_keep_reference_balance
    {ImgData NativeTex : Type}
    (typeMan : nativeImageTypeManager ImgData NativeTex)
    (rasterTypeMan : texNativeTypeProvider NativeTex)
    (m : method) (s s' : State ImgData NativeTex) :
  run_method m s = Some s' ->
  forall p, counts <$> rasters (Destruct s') !! p = counts <$> rasters (Destruct s) !! p.
Proof.
  unfold Destruct.
  destruct m as [raster|raster name|raster|raster|stream]; cbn; intros Hfin p.
  - destruct (fetchFromRaster_final raster s s' Hfin) as (_ & Hext & [[Ho Hrs]|[Ho Hrs]]);
      rewrite (clearImageData_rasters s'), Ho, ?Hext, Hrs; f_equal.
    + apply lookup_pin_unpin.
    + apply lookup_borrow_release.
  - destruct (fetchFromRasterNoLock_final raster name s s' Hfin)
      as (_ & [[Ho Hrs]|(Ho & Hext & Hrs)]);
      rewrite (clearImageData_rasters s'), Ho, ?Hext, Hrs; f_equal.
    apply lookup_acquire_delete.
  - destruct (putToRaster_counts raster s s' Hfin) as [Ho Hrs].
    apply counts_clearImageData; [| |exact Hrs].
    + exact (f_equal (fun o => snd (fst o)) Ho).
    + exact (f_equal snd Ho).
  - destruct (putToRaster_counts raster s s' Hfin) as [Ho Hrs].
    apply counts_clearImageData; [| |exact Hrs].
    + exact (f_equal (fun o => snd (fst o)) Ho).
    + exact (f_equal snd Ho).
  - destruct (readFromStream_final stream s s' Hfin) as [Ho Hrs].
    rewrite (clearImageData_rasters s'), Ho, Hrs. reflexivity.
Qed.

Lemma methods_keep_reference_balance_witness :
  exists s',
    run_method (typeMan := sharing_codec) (rasterTypeMan := pvr_provider)
      (M_fetchFromRaster 0%nat) borrowed_state = Some s' /\
    pixelOwner (this s') = Some 0%nat /\
    forall p, counts <$> rasters (Destruct (typeMan := sharing_codec) s') !! p
            = counts <$> rasters (Destruct (typeMan := sharing_codec) borrowed_state) !! p.
Proof.
  eexists.
  assert (H : run_method (typeMan := sharing_codec) (rasterTypeMan := pvr_provider)
                (M_fetchFromRaster 0%nat) borrowed_state = Some _) by (vm_compute; reflexivity).
  split; [exact H|]. split; [reflexivity|].
  exact (methods_keep_reference_balance sharing_codec pvr_provider (M_fetchFromRaster 0%nat)
           borrowed_state _ H).
Defined.

(** X7.  [clearImageData] a second time releases nothing: the rasters and the
    four ownership fields are as the first call left them.  The codec is asked
    again to clear palette and image data, both times with deallocation. *)
Theorem clearImageData_idempotent
    {ImgData NativeTex : Type}
    (typeMan : nativeImageTypeManager ImgData NativeTex)
    (s : State ImgData NativeTex) :
  this (clearImageData (clearImageData s))
    = set_nativeData
        (ClearImageData (ClearPaletteData (nativeData (this (clearImageData s))) true) true)
        (this (clearImageData s)) /\
  ownership (this (clearImageData (clearImageData s))) = empty_ownership /\
  rasters (clearImageData (clearImageData s)) = rasters (clearImageData s) /\
  calls (clearImageData (clearImageData s))
    = calls (clearImageData s) ++ [CallClearPaletteData true; CallClearImageData true].
Proof.
  pose proof (clearImageData_empty s) as Hempty.
  set (s1 := clearImageData s) in *.
  destruct s1 as [[pal pix own ext d0] rs cs]. cbn in Hempty.
  injection Hempty as -> -> -> ->.
  unfold clearImageData. cbn. rewrite <- app_assoc. repeat split.
Qed.

(** X8.  In every world reached by creating, copying and deleting handles,
    calling their methods and letting other code act on rasters, every handle
    has one of its two data-reference flags set exactly when it has a
    [pixelOwner].  So a handle without [pixelOwner] never keeps the codec
    from freeing its buffers: destroying it calls [ClearPaletteData] and
    [ClearImageData] with deallocation. *)
Theorem reachable_references_match_owner
    {ImgData NativeTex : Type}
    (typeMan : nativeImageTypeManager ImgData NativeTex)
    (rasterTypeMan : texNativeTypeProvider NativeTex)
    (w : World ImgData NativeTex) (i : ImagePtr) (img : NativeImagePrivate ImgData) :
  reachable w -> images w !! i = Some img ->
  references_match_owner img /\
  (pixelOwner img = None ->
   calls (Destruct (enter w img)) = [CallClearPaletteData true; CallClearImageData true]).
Proof.
  intros Hreach Hi.
  assert (Hinv : references_match_owner img).
  { revert i img Hi. induction Hreach as [|w w' _ IH Hstep]; intros i img Hi.
    - cbn in Hi. rewrite lookup_empty in Hi. discriminate.
    - eapply step_references_match_owner; eassumption. }
  split; [exact Hinv|].
  intros Hown. unfold Destruct. rewrite clearImageData_calls. cbn.
  destruct Hinv as [Hflags _].
  destruct (hasPaletteDataRef img) eqn:Hpal.
  - destruct (Hflags eq_refl) as [r Hr]. congruence.
  - destruct (hasPixelDataRef img) eqn:Hpix; [|reflexivity].
    destruct (Hflags eq_refl) as [r Hr]. congruence.
Qed.

Lemma reachable_references_match_owner_witness :
  references_match_owner (mkNativeImage false true (Some 0%nat) false [1; 2; 3; 4]) /\
  (pixelOwner (mkNativeImage false true (Some 0%nat) false [1; 2; 3; 4]) = None ->
   calls (Destruct (typeMan := sharing_codec)
            (enter borrowing_world (mkNativeImage false true (Some 0%nat) false [1; 2; 3; 4])))
   = [CallClearPaletteData true; CallClearImageData true]).
Proof.
  exact (reachable_references_match_owner sharing_codec pvr_provider borrowing_world 0%nat
           (mkNativeImage false true (Some 0%nat) false [1; 2; 3; 4])
           borrowing_world_reachable eq_refl).
Defined.

(** ** The TIFF probe inside a larger stream *)

Lemma bytes_from_embedded pre bytes off n :
  0 <= off ->
  bytes_from (pre ++ bytes) (Z.of_nat (length pre) + off) n = bytes_from bytes off n.
Proof.
  intros Hoff. unfold bytes_from.
  destruct (Z.ltb_spec (Z.of_nat (length pre) + off) 0) as [H|H]; [lia|].
  destruct (Z.ltb_spec off 0) as [H'|H']; [lia|].
  f_equal. rewrite Z2Nat.inj_add, Nat2Z.id by lia.
  rewrite skipn_app. rewrite skipn_all2 by lia. cbn.
  f_equal. lia.
Qed.

Lemma read_embedded pre s n :
  0 <= cursor s ->
  read (embedded pre s) n = (fst (read s n), embedded pre (snd (read s n))).
Proof.
  intros Hc. unfold read, embedded. cbn.
  rewrite bytes_from_embedded by assumption. f_equal. f_equal. lia.
Qed.

Lemma read_cursor_nonneg s n : 0 <= cursor s -> 0 <= cursor (snd (read s n)).
Proof. intros Hc. unfold read. cbn. lia. Qed.

Lemma read_dir_entries_embedded pre num avail todo s :
  0 <= cursor s ->
  read_dir_entries num avail todo (embedded pre s)
  = (fst (read_dir_entries num avail todo s),
     embedded pre (snd (read_dir_entries num avail todo s)))
  /\ 0 <= cursor (snd (read_dir_entries num avail todo s)).
Proof.
  revert s. induction todo as [|todo IH]; intros s Hc; cbn [read_dir_entries].
  - split; [reflexivity|exact Hc].
  - rewrite read_embedded by assumption.
    pose proof (read_cursor_nonneg s sizeof_tiff_ifd_entry Hc) as Hc1.
    destruct (read s sizeof_tiff_ifd_entry) as [e s1]. cbn [fst snd] in *.
    destruct (negb (length e =? sizeof_tiff_ifd_entry)%nat); [split; [reflexivity|exact Hc1]|].
    destruct (negb (verify_ifd_entry num avail e)); [split; [reflexivity|exact Hc1]|].
    apply IH. exact Hc1.
Qed.

Lemma read_directory_embedded pre num avail s :
  0 <= cursor s ->
  read_directory num avail (embedded pre s)
  = (fst (read_directory num avail s), embedded pre (snd (read_directory num avail s))).
Proof.
  intros Hc. unfold read_directory.
  rewrite read_embedded by assumption.
  pose proof (read_cursor_nonneg s 2 Hc) as Hc1.
  destruct (read s 2) as [cnt s1]. cbn [fst snd] in *.
  destruct (negb (length cnt =? 2)%nat); [reflexivity|].
  destruct (get_uint16 num cnt =? 0); [reflexivity|].
  destruct (read_dir_entries_embedded pre num avail (Z.to_nat (get_uint16 num cnt)) s1 Hc1)
    as [-> Hc2].
  destruct (read_dir_entries num avail (Z.to_nat (get_uint16 num cnt)) s1) as [[|] s2];
    cbn [fst snd] in *; [|reflexivity].
  rewrite read_embedded by assumption.
  destruct (read s2 4) as [p s3]. cbn [fst snd].
  destruct (negb (length p =? 4)%nat); [reflexivity|].
  destruct (get_uint32 num p =? 0); reflexivity.
Qed.

Lemma walk_ifds_embedded pre fuel num start avail s :
  0 <= start -> 0 <= cursor s ->
  walk_ifds fuel num (Z.of_nat (length pre) + start) avail (embedded pre s)
  = embedded_result pre (walk_ifds fuel num start avail s).
Proof.
  intros Hstart. revert s. induction fuel as [|fuel IH]; intros s Hc; cbn [walk_ifds];
    [reflexivity|].
  rewrite read_directory_embedded by assumption.
  destruct (read_directory num avail s) as [[| |next] s1] eqn:Hd; cbn [fst snd];
    [reflexivity|reflexivity|].
  assert (0 < next) as Hnext
    by (apply (read_directory_next_nonzero num avail s); rewrite Hd; reflexivity).
  change (seek (embedded pre s1) (Z.of_nat (length pre) + start + next) RWSEEK_BEG)
    with (mkStream (pre ++ content s1) (Z.of_nat (length pre) + start + next)).
  rewrite <- Z.add_assoc.
  apply (IH (mkStream (content s1) (start + next))). cbn. lia.
Qed.

(** X10.  The probe's verdict does not depend on where the TIFF starts in the
    stream: with any bytes [pre] in front of the stream and the cursor moved
    on by as many, the probe returns the same verdict after the same number
    of passes (or is still running after as many), and leaves the cursor at
    the same place relative to the start. *)
Theorem IsStreamCompatible_embedded (pre : list Z) (fuel : nat) (s : Stream) :
  0 <= cursor s ->
  IsStreamCompatible fuel (embedded pre s) = embedded_result pre (IsStreamCompatible fuel s).
Proof.
  intros Hc. rewrite !IsStreamCompatible_unfold. cbv zeta.
  change (content (embedded pre s)) with (pre ++ content s).
  change (cursor (embedded pre s)) with (Z.of_nat (length pre) + cursor s).
  rewrite bytes_from_embedded by assumption.
  set (h := bytes_from (content s) (cursor s) 8).
  assert (Hsize : size (embedded pre s) - (Z.of_nat (length pre) + cursor s)
                  = size s - cursor s).
  { unfold size, embedded. cbn. rewrite length_app. lia. }
  rewrite Hsize.
  destruct (negb (length h =? 8)%nat).
  { cbn. unfold embedded. cbn. do 3 f_equal. lia. }
  destruct ((little_endian (field 0 2 h) =? 18761) || (little_endian (field 0 2 h) =? 19789)).
  2:{ cbn. unfold embedded. cbn. do 3 f_equal. lia. }
  destruct (negb _).
  { cbn. unfold embedded. cbn. do 3 f_equal. lia. }
  set (num := mk_number_format _).
  pose proof (proj1 (get_uint_nonneg num (field 4 4 h))) as Hoff.
  rewrite <- Z.add_assoc.
  apply (walk_ifds_embedded pre fuel num (cursor s) (size s - cursor s)
           (mkStream (content s) (cursor s + get_uint32 num (field 4 4 h)))).
  - exact Hc.
  - cbn. lia.
Qed.

Lemma bytes_from_followed_by bytes post off n :
  length (bytes_from bytes off n) = n ->
  bytes_from (bytes ++ post) off n = bytes_from bytes off n.
Proof.
  unfold bytes_from. destruct (off <? 0); [reflexivity|].
  intros Hlen. rewrite length_firstn, length_skipn in Hlen.
  rewrite skipn_app, firstn_app.
  replace (n - length (skipn (Z.to_nat off) bytes))%nat with 0%nat
    by (rewrite length_skipn; lia).
  rewrite firstn_0, app_nil_r. reflexivity.
Qed.

Lemma read_followed_by post s n :
  length (fst (read s n)) = n ->
  read (followed_by post s) n = (fst (read s n), followed_by post (snd (read s n))).
Proof.
  unfold read, followed_by. cbn. intros Hlen.
  rewrite bytes_from_followed_by by assumption. reflexivity.
Qed.

Lemma verify_ifd_entry_more num avail avail' e :
  avail <= avail' -> verify_ifd_entry num avail e = true -> verify_ifd_entry num avail' e = true.
Proof.
  intros Hle. unfold verify_ifd_entry.
  destruct (negb _); [|reflexivity]. destruct (_ >? 4); [|reflexivity].
  intros H. apply Z.leb_le in H. apply Z.leb_le. lia.
Qed.

Lemma read_dir_entries_followed_by post num avail avail' todo s s' :
  avail <= avail' ->
  read_dir_entries num avail todo s = (true, s') ->
  read_dir_entries num avail' todo (followed_by post s) = (true, followed_by post s').
Proof.
  intros Hle. revert s. induction todo as [|todo IH]; intros s; cbn [read_dir_entries].
  - intros [= <-]. reflexivity.
  - destruct (read s sizeof_tiff_ifd_entry) as [e s1] eqn:Hr.
    destruct (Nat.eqb_spec (length e) sizeof_tiff_ifd_entry) as [Hlen|]; [|discriminate].
    cbn [negb]. destruct (verify_ifd_entry num avail e) eqn:Hv; [|discriminate]. cbn [negb].
    intros Hrest.
    rewrite read_followed_by by (rewrite Hr; exact Hlen). rewrite Hr. cbn [fst snd].
    rewrite Hlen, Nat.eqb_refl. cbn [negb].
    rewrite (verify_ifd_entry_more num avail avail' e Hle Hv). cbn [negb].
    apply IH. exact Hrest.
Qed.

Lemma read_directory_followed_by post num avail avail' s v s' :
  avail <= avail' ->
  read_directory num avail s = (v, s') -> v <> IfdRejected ->
  read_directory num avail' (followed_by post s) = (v, followed_by post s').
Proof.
  intros Hle. unfold read_directory.
  destruct (read s 2) as [cnt s1] eqn:Hr1.
  destruct (Nat.eqb_spec (length cnt) 2) as [Hlen|]; cbn [negb]; [|intros [= <- _]; congruence].
  rewrite read_followed_by by (rewrite Hr1; exact Hlen). rewrite Hr1. cbn [fst snd].
  rewrite Hlen. cbn [Nat.eqb negb].
  destruct (get_uint16 num cnt =? 0); [intros [= <- _]; congruence|].
  destruct (read_dir_entries num avail (Z.to_nat (get_uint16 num cnt)) s1) as [[|] s2] eqn:He;
    [|intros [= <- _]; congruence].
  rewrite (read_dir_entries_followed_by post num avail avail' _ s1 s2 Hle He).
  destruct (read s2 4) as [p s3] eqn:Hr2.
  destruct (Nat.eqb_spec (length p) 4) as [Hlen4|]; cbn [negb]; [|intros [= <- _]; congruence].
  rewrite read_followed_by by (rewrite Hr2; exact Hlen4). rewrite Hr2. cbn [fst snd].
  rewrite Hlen4. cbn [Nat.eqb negb].
  destruct (get_uint32 num p =? 0); intros [= <- <-] _; reflexivity.
Qed.

Lemma walk_ifds_followed_by post fuel num start avail avail' s s' :
  avail <= avail' ->
  walk_ifds fuel num start avail s = Some (true, s') ->
  walk_ifds fuel num start avail' (followed_by post s) = Some (true, followed_by post s').
Proof.
  intros Hle. revert s. induction fuel as [|fuel IH]; intros s; cbn [walk_ifds]; [discriminate|].
  destruct (read_directory num avail s) as [[| |next] s1] eqn:Hd.
  - discriminate.
  - intros [= <-].
    rewrite (read_directory_followed_by post num avail avail' s IfdLast s1 Hle Hd)
      by discriminate.
    reflexivity.
  - intros Hrest.
    rewrite (read_directory_followed_by post num avail avail' s (IfdNext next) s1 Hle Hd)
      by discriminate.
    apply (IH (seek s1 (start + next) RWSEEK_BEG)). exact Hrest.
Qed.

(** X11.  A stream the probe accepts is still accepted, after the same number
    of passes and with the cursor left at the same place, when any bytes
    follow it in the stream. *)
Theorem IsStreamCompatible_followed_by (post : list Z) (fuel : nat) (s s' : Stream) :
  IsStreamCompatible fuel s = Some (true, s') ->
  IsStreamCompatible fuel (followed_by post s) = Some (true, followed_by post s').
Proof.
  rewrite !IsStreamCompatible_unfold. cbv zeta.
  change (content (followed_by post s)) with (content s ++ post).
  change (cursor (followed_by post s)) with (cursor s).
  set (h := bytes_from (content s) (cursor s) 8).
  destruct (Nat.eqb_spec (length h) 8) as [Hlen|]; cbn [negb]; [|discriminate].
  rewrite bytes_from_followed_by by exact Hlen. fold h.
  rewrite Hlen. cbn [Nat.eqb negb].
  destruct ((little_endian (field 0 2 h) =? 18761) || (little_endian (field 0 2 h) =? 19789));
    [|discriminate].
  destruct (negb _); [discriminate|].
  apply (walk_ifds_followed_by post fuel _ (cursor s) (size s - cursor s)).
  unfold size, followed_by. cbn. rewrite length_app. lia.
Qed.

(** ** TIFF samples and palettes *)


Lemma colormap_sample_round_trip c :
  0 <= c < 256 -> colormap_sample_to_8bit (colormap_sample_from_8bit c) = c.
Proof.
  intros Hc. unfold colormap_sample_to_8bit, colormap_sample_from_8bit, to_uint8, to_uint16.
  replace (c * 65535 / 255) with (c * 257)
    by (replace (c * 65535) with (c * 257 * 255) by lia; rewrite Z.div_mul by lia; reflexivity).
  rewrite (Z.mod_small (c * 257)) by lia.
  replace (c * 257 * 255 / 65535) with c
    by (replace (c * 257 * 255) with (c * 65535) by lia; rewrite Z.div_mul by lia; reflexivity).
  apply Z.mod_small. lia.
Qed.

Lemma colormap_sample_to_8bit_spec sample :
  0 <= sample < 65536 ->
  colormap_sample_to_8bit sample = sample / 257 /\ 0 <= colormap_sample_to_8bit sample < 256.
Proof.
  intros Hs. unfold colormap_sample_to_8bit, to_uint8.
  assert (sample * 255 / 65535 = sample / 257) as ->.
  { replace 65535 with (255 * 257) by reflexivity.
    rewrite Z.mul_comm. rewrite Z.div_mul_cancel_l by lia. reflexivity. }
  assert (0 <= sample / 257 < 256).
  { split; [apply Z.div_pos; lia|]. apply Z.div_lt_upper_bound; lia. }
  rewrite Z.mod_small by assumption. auto.
Qed.

(** X14.  Palette colours survive the way through a TIFF colormap: for a
    palette whose components are bytes, the three arrays SerializeImage fills
    have one sample per palette item, and DeserializeImage reads from them
    exactly the red, green and blue it was given; the alpha of a palette item
    is not stored, it reads back as 255; an item for which the source palette
    reports no colour reads back as opaque black. *)
Theorem write_colormap_read_back (getRGBA : nat -> option (Z * Z * Z * Z)) (n : nat) :
  (forall k r g b a, getRGBA k = Some (r, g, b, a) ->
     0 <= r < 256 /\ 0 <= g < 256 /\ 0 <= b < 256) ->
  let '(red, green, blue) := write_colormap getRGBA n in
  length red = n /\ length green = n /\ length blue = n /\
  read_colormap red green blue n
  = map (fun k => match getRGBA k with
                  | Some (r, g, b, a) => Color r g b 255
                  | None => Color 0 0 0 255
                  end) (seq 0 n).
Proof.
  intros Hrange. unfold write_colormap, read_colormap.
  rewrite !length_map, !length_seq. repeat split.
  apply map_ext_in. intros k Hk. apply in_seq in Hk.
  set (pick := fun n0 : nat => match getRGBA n0 with
                               | Some (r, g, b, _) => (r, g, b)
                               | None => (0, 0, 0)
                               end).
  assert (Hnth : forall (f : Z * Z * Z -> Z),
            nth k (map f (map pick (seq 0 n))) 0 = f (pick k)).
  { intros f. rewrite map_map.
    rewrite (nth_indep _ 0 (f (pick 0%nat))) by (rewrite length_map, length_seq; lia).
    rewrite (map_nth (fun x => f (pick x)) (seq 0 n) 0%nat k).
    rewrite seq_nth by lia. reflexivity. }
  rewrite !Hnth. unfold pick.
  destruct (getRGBA k) as [[[[r g] b] a]|] eqn:Hget; cbn [fst snd].
  - destruct (Hrange k r g b a Hget) as (Hr & Hg & Hb).
    rewrite !colormap_sample_round_trip by assumption. reflexivity.
  - reflexivity.
Qed.

(** *** The sample readers *)

Lemma nth_byte (rowData : list Z) k :
  Forall (fun b => 0 <= b < 256) rowData -> 0 <= nth k rowData 0 < 256.
Proof.
  intros Hall. destruct (Nat.lt_ge_cases k (length rowData)) as [Hlt|Hge].
  - rewrite Forall_forall in Hall. apply Hall. apply list_elem_of_In. apply nth_In. exact Hlt.
  - rewrite nth_overflow by exact Hge. lia.
Qed.

Lemma nibble_scaled v : 0 <= v < 16 -> to_uint8 (v * 255 / 15) = 17 * v.
Proof.
  intros Hv. unfold to_uint8.
  replace (v * 255) with (17 * v * 15) by lia. rewrite Z.div_mul by lia.
  apply Z.mod_small. lia.
Qed.

Lemma read_tiff_grayscale_supported rowData index photometric_type bits_per_sample alpha :
  is_Some (read_tiff_grayscale rowData index photometric_type bits_per_sample alpha) <->
  (photometric_type = PHOTOMETRIC_MINISWHITE \/ photometric_type = PHOTOMETRIC_MINISBLACK) /\
  (bits_per_sample = 4 \/ bits_per_sample = 8).
Proof.
  unfold read_tiff_grayscale, PHOTOMETRIC_MINISWHITE, PHOTOMETRIC_MINISBLACK.
  destruct (Z.eqb_spec photometric_type 0), (Z.eqb_spec photometric_type 1);
    destruct (Z.eqb_spec bits_per_sample 4), (Z.eqb_spec bits_per_sample 8);
    cbn [orb]; try lia;
    repeat match goal with
           | |- context [if ?b then _ else _] => destruct b
           | |- context [let '(_, _) := ?p in _] => destruct p
           end;
    split; try (intros [? ?]; discriminate); intros; try (eexists; reflexivity);
    intuition lia.
Qed.

Lemma read_tiff_color_supported rowData index photometric_type bits_per_sample alpha :
  is_Some (read_tiff_color rowData index photometric_type bits_per_sample alpha) <->
  photometric_type = PHOTOMETRIC_RGB /\ bits_per_sample = 8.
Proof.
  unfold read_tiff_color, PHOTOMETRIC_RGB.
  destruct (Z.eqb_spec photometric_type 2), (Z.eqb_spec bits_per_sample 8);
    try destruct (negb alpha);
    split; try (intros [? ?]; discriminate); intros; try (eexists; reflexivity);
    intuition lia.
Qed.

Lemma read_tiff_grayscale_range rowData index photometric_type bits_per_sample alpha lum a :
  Forall (fun b => 0 <= b < 256) rowData ->
  read_tiff_grayscale rowData index photometric_type bits_per_sample alpha = Some (lum, a) ->
  0 <= lum < 256 /\ 0 <= a < 256.
Proof.
  intros Hrow. unfold read_tiff_grayscale.
  destruct (_ || _); [|discriminate].
  destruct (bits_per_sample =? 4).
  - unfold to_uint8.
    destruct (if alpha then _ else _) as [lumval alphaval].
    destruct (photometric_type =? PHOTOMETRIC_MINISWHITE); intros [= <- <-];
      split; apply Z.mod_pos_bound; lia.
  - destruct (bits_per_sample =? 8); [|discriminate].
    destruct alpha; intros [= <- <-]; split; try apply nth_byte; try assumption; lia.
Qed.

Lemma read_tiff_color_range rowData index photometric_type bits_per_sample alpha r g b a :
  Forall (fun b => 0 <= b < 256) rowData ->
  read_tiff_color rowData index photometric_type bits_per_sample alpha = Some (r, g, b, a) ->
  0 <= r < 256 /\ 0 <= g < 256 /\ 0 <= b < 256 /\ 0 <= a < 256.
Proof.
  intros Hrow. unfold read_tiff_color.
  destruct (_ =? PHOTOMETRIC_RGB); [|discriminate].
  destruct (bits_per_sample =? 8); [|discriminate].
  destruct (negb alpha); intros [= <- <- <- <-];
    repeat split; try apply nth_byte; try assumption; lia.
Qed.

(** X13.  Grayscale samples, for rows of bytes.  A 4-bit sample [v] (low
    nibble first; with an alpha channel the low nibble is the luminance and
    the high nibble the alpha) becomes [17 * v], so 0 stays 0 and 15 becomes
    255, and under min-is-white the luminance is flipped to [255 - 17 * v].
    An 8-bit sample is handed on as stored under both photometric
    interpretations: under min-is-white it is not flipped. *)
Theorem read_tiff_grayscale_samples (rowData : list Z) (index : nat) (photometric_type : Z)
    (alpha : bool) :
  Forall (fun b => 0 <= b < 256) rowData ->
  photometric_type = PHOTOMETRIC_MINISWHITE \/ photometric_type = PHOTOMETRIC_MINISBLACK ->
  (exists lumval alphaval,
     (if alpha
      then lumval = nth index rowData 0 mod 16 /\ alphaval = nth index rowData 0 / 16
      else lumval = (if (index mod 2 =? 0)%nat then nth (index / 2) rowData 0 mod 16
                     else nth (index / 2) rowData 0 / 16) /\ alphaval = 15) /\
     0 <= lumval < 16 /\ 0 <= alphaval < 16 /\
     read_tiff_grayscale rowData index photometric_type 4 alpha
     = Some ((if photometric_type =? PHOTOMETRIC_MINISWHITE then 255 - 17 * lumval
              else 17 * lumval), 17 * alphaval))
  /\
  read_tiff_grayscale rowData index photometric_type 8 alpha
  = Some (if alpha then (nth (2 * index) rowData 0, nth (2 * index + 1) rowData 0)
          else (nth index rowData 0, 255)).
Proof.
  intros Hrow Hphoto. split.
  - pose proof (nth_byte rowData index Hrow) as Hb1.
    pose proof (nth_byte rowData (index / 2) Hrow) as Hb2.
    unfold read_tiff_grayscale.
    assert ((photometric_type =? PHOTOMETRIC_MINISWHITE)
            || (photometric_type =? PHOTOMETRIC_MINISBLACK) = true) as ->.
    { destruct Hphoto as [-> | ->]; reflexivity. }
    cbn [Z.eqb Pos.eqb].
    set (byte1 := nth index rowData 0) in *. set (byte2 := nth (index / 2) rowData 0) in *.
    assert (Hn : forall b, 0 <= b < 256 -> 0 <= b mod 16 < 16 /\ 0 <= b / 16 < 16).
    { intros b Hb. split; [apply Z.mod_pos_bound; lia|].
      split; [apply Z.div_pos; lia|apply Z.div_lt_upper_bound; lia]. }
    destruct alpha.
    + exists (byte1 mod 16), (byte1 / 16).
      destruct (Hn byte1 Hb1) as [H1 H2].
      split; [auto|]. split; [exact H1|]. split; [exact H2|].
      rewrite !nibble_scaled by assumption.
      destruct (photometric_type =? PHOTOMETRIC_MINISWHITE); [|reflexivity].
      unfold to_uint8. rewrite Z.mod_small by lia. reflexivity.
    + destruct (Hn byte2 Hb2) as [H1 H2].
      exists (if (index mod 2 =? 0)%nat then byte2 mod 16 else byte2 / 16), 15.
      split; [auto|].
      assert (0 <= (if (index mod 2 =? 0)%nat then byte2 mod 16 else byte2 / 16) < 16) as Hv
        by (destruct (index mod 2 =? 0)%nat; assumption).
      split; [exact Hv|]. split; [lia|].
      rewrite !nibble_scaled by (assumption || lia).
      destruct (photometric_type =? PHOTOMETRIC_MINISWHITE); [|reflexivity].
      unfold to_uint8. rewrite Z.mod_small by lia. reflexivity.
  - unfold read_tiff_grayscale.
    assert ((photometric_type =? PHOTOMETRIC_MINISWHITE)
            || (photometric_type =? PHOTOMETRIC_MINISBLACK) = true) as ->.
    { destruct Hphoto as [-> | ->]; reflexivity. }
    cbn [Z.eqb Pos.eqb]. destruct alpha; reflexivity.
Qed.


(** ** The mapping DeserializeImage chooses *)

(** The decision table of [determine_mapping]. *)
Lemma determine_mapping_cases (dstDepth0 tiffDepth0 : Z) (parseMode0 : eTIFF_ParseMode)
    (t : tiff_image) :
  let m := determine_mapping (dstDepth0, tiffDepth0, parseMode0) t in
  let alpha := tiff_has_alpha_channel t in
  let black := photometric_type t =? PHOTOMETRIC_MINISBLACK in
  (orientation t = ORIENTATION_TOPLEFT /\ grayscale_tags t /\
   m = mk_tiff_mapping (if alpha then RASTER_LUM_ALPHA else RASTER_LUM) (if alpha then 16 else 8)
         4 COLOR_RGBA PALETTE_NONE 0
         (if black then (if alpha then RASTER_LUM_ALPHA else RASTER_LUM) else RASTER_DEFAULT)
         (if black then (if alpha then bits_per_sample t * 2 else bits_per_sample t)
          else tiffDepth0)
         COLOR_RGBA TPARSEMODE_GRAYSCALE true)
  \/
  (orientation t = ORIENTATION_TOPLEFT /\ fullcolor_tags t /\
   m = mk_tiff_mapping (if alpha then RASTER_8888 else RASTER_888) (if alpha then 32 else 24)
         4 COLOR_RGBA PALETTE_NONE 0
         (if alpha then RASTER_8888 else RASTER_888) (if alpha then 8 else 24)
         COLOR_RGBA TPARSEMODE_FULLCOLOR true)
  \/
  (orientation t = ORIENTATION_TOPLEFT /\ palette_tags t /\
   m = mk_tiff_mapping RASTER_888 (bits_per_sample t) 4 COLOR_RGBA
         (if bits_per_sample t =? 4 then PALETTE_4BIT else PALETTE_8BIT)
         (getPaletteItemCount (if bits_per_sample t =? 4 then PALETTE_4BIT else PALETTE_8BIT))
         RASTER_888 24 COLOR_RGBA TPARSEMODE_PALETTE true)
  \/
  (~ (orientation t = ORIENTATION_TOPLEFT /\
      (grayscale_tags t \/ fullcolor_tags t \/ palette_tags t)) /\
   m = mk_tiff_mapping RASTER_8888 32 4 COLOR_RGBA PALETTE_NONE 0
         RASTER_DEFAULT tiffDepth0 COLOR_RGBA TPARSEMODE_FULLCOLOR false).
Proof.
  cbv zeta. unfold determine_mapping, grayscale_tags, fullcolor_tags, palette_tags.
  unfold PHOTOMETRIC_MINISWHITE, PHOTOMETRIC_MINISBLACK, PHOTOMETRIC_RGB, PHOTOMETRIC_PALETTE,
    ORIENTATION_TOPLEFT.
  destruct (Z.eqb_spec (orientation t) 1) as [Ho|Ho].
  2:{ right; right; right. split; [tauto|reflexivity]. }
  assert (Hphoto : forall a b : Z, a <> b -> (a =? b) = false)
    by (intros a b H; apply Z.eqb_neq; exact H).
  destruct (Z.eq_dec (photometric_type t) 0) as [Hp|Hp0];
    [|destruct (Z.eq_dec (photometric_type t) 1) as [Hp|Hp1];
      [|destruct (Z.eq_dec (photometric_type t) 2) as [Hp|Hp2];
        [|destruct (Z.eq_dec (photometric_type t) 3) as [Hp|Hp3]]]].
  - (* min-is-white *)
    rewrite Hp. cbn [Z.eqb Pos.eqb orb].
    destruct (Z.eqb_spec (bits_per_sample t) 4) as [Hb|Hb4];
      [|destruct (Z.eqb_spec (bits_per_sample t) 8) as [Hb|Hb8]]; cbn [orb].
    3:{ right; right; right. split; [|reflexivity]. intros (_ & [H|[H|H]]); lia. }
    all: destruct (Z.eqb_spec (num_extra_samples t) 0) as [He|He]; cbn [orb];
      destruct (tiff_has_alpha_channel t) eqn:Ha; cbn;
      first [ left; split; [assumption|]; split; [|reflexivity]; intuition lia
            | right; right; right; split; [|reflexivity];
              intros (_ & [H|[H|H]]); intuition (lia || discriminate) ].
  - (* min-is-black *)
    rewrite Hp. cbn [Z.eqb Pos.eqb orb].
    destruct (Z.eqb_spec (bits_per_sample t) 4) as [Hb|Hb4];
      [|destruct (Z.eqb_spec (bits_per_sample t) 8) as [Hb|Hb8]]; cbn [orb].
    3:{ right; right; right. split; [|reflexivity]. intros (_ & [H|[H|H]]); lia. }
    all: destruct (Z.eqb_spec (num_extra_samples t) 0) as [He|He]; cbn [orb];
      destruct (tiff_has_alpha_channel t) eqn:Ha; cbn;
      first [ left; split; [assumption|]; split; [|reflexivity]; intuition lia
            | right; right; right; split; [|reflexivity];
              intros (_ & [H|[H|H]]); intuition (lia || discriminate) ].
  - (* RGB *)
    rewrite Hp. cbn [Z.eqb Pos.eqb orb].
    destruct (Z.eqb_spec (bits_per_sample t) 8) as [Hb|Hb8].
    2:{ right; right; right. split; [|reflexivity].
        intros (_ & [H|[H|H]]); lia. }
    destruct (Z.eqb_spec (num_extra_samples t) 0) as [He|He]; cbn [orb];
      destruct (tiff_has_alpha_channel t) eqn:Ha; cbn;
      first [ right; left; split; [assumption|]; split; [|reflexivity]; intuition lia
            | right; right; right; split; [|reflexivity];
              intros (_ & [H|[H|H]]); intuition (lia || discriminate) ].
  - (* palette *)
    rewrite Hp. cbn [Z.eqb Pos.eqb orb].
    destruct (Z.eqb_spec (bits_per_sample t) 4) as [Hb|Hb4];
      [|destruct (Z.eqb_spec (bits_per_sample t) 8) as [Hb|Hb8]]; cbn [orb].
    3:{ right; right; right. split; [|reflexivity].
        intros (_ & [H|[H|H]]); lia. }
    all: destruct (has_colormap t) eqn:Hc;
      destruct (Z.eqb_spec (num_extra_samples t) 0) as [He|He]; cbn;
      first [ right; right; left; split; [assumption|]; split; [|reflexivity];
              intuition lia
            | right; right; right; split; [|reflexivity];
              intros (_ & [H|[H|H]]); intuition (lia || discriminate) ].
  - (* any other photometric interpretation *)
    rewrite (Hphoto _ 0 Hp0), (Hphoto _ 1 Hp1), (Hphoto _ 2 Hp2), (Hphoto _ 3 Hp3). cbn.
    right; right; right. split; [|reflexivity]. intros (_ & [H|[H|H]]); intuition lia.
Qed.

Section SerializationFacts.
Variable canRasterFormatHaveAlpha : eRasterFormat -> bool.
Variable getColorModelFromRasterFormat : eRasterFormat -> eColorModel.


End SerializationFacts.


(** ** The TIFF probe: verdicts *)

Lemma walk_ifds_fuel fuel fuel' num start avail s r r' :
  walk_ifds fuel num start avail s = Some r ->
  walk_ifds fuel' num start avail s = Some r' -> r = r'.
Proof.
  revert fuel' s. induction fuel as [|fuel IH]; intros fuel' s; [discriminate|].
  destruct fuel' as [|fuel']; [discriminate|]. cbn [walk_ifds].
  destruct (read_directory num avail s) as [[| |next] s1]; try congruence.
  apply IH.
Qed.

(** X9.  The probe accepts exactly the well-formed TIFFs: some number of
    passes through its loop ends with [true] if and only if, from the cursor
    on, the stream holds an 8-byte header with byte order [II] or [MM] and
    the number 42, and from the header's offset a chain of directories, each
    with a non-zero entry count, entries whose data lies inside the stream,
    and a pointer to the next, ending with a zero pointer.  The verdict does
    not depend on how many passes the loop is given beyond those it needs. *)
Theorem IsStreamCompatible_verdict (s : Stream) :
  ((exists fuel s', IsStreamCompatible fuel s = Some (true, s')) <->
   well_formed_tiff (size s - tell s) s) /\
  (forall fuel fuel' r r',
     IsStreamCompatible fuel s = Some r -> IsStreamCompatible fuel' s = Some r' -> r = r').
Proof.
  split; [apply IsStreamCompatible_accepts|].
  intros fuel fuel' r r'. rewrite !IsStreamCompatible_unfold. cbv zeta.
  destruct (negb _); [congruence|].
  destruct (_ || _); [|congruence].
  destruct (negb _); [congruence|].
  apply walk_ifds_fuel.
Qed.

Lemma IsStreamCompatible_embedded_witness :
  IsStreamCompatible 1 (embedded [7; 7; 7] scenario_tiff)
  = Some (true, mkStream ([7; 7; 7] ++ content scenario_tiff) 29).
Proof.
  rewrite (IsStreamCompatible_embedded [7; 7; 7] 1 scenario_tiff); [|cbn; lia].
  reflexivity.
Defined.

Lemma IsStreamCompatible_followed_by_witness :
  IsStreamCompatible 1 (followed_by [9; 9] scenario_tiff)
  = Some (true, followed_by [9; 9] (mkStream (content scenario_tiff) 26)).
Proof.
  apply (IsStreamCompatible_followed_by [9; 9] 1 scenario_tiff). reflexivity.
Defined.

(** ** TIFF samples *)

(** X12.  Which samples the two readers of DeserializeImage know, and what
    they yield.  [read_tiff_grayscale] reads exactly min-is-white and
    min-is-black samples of 4 or 8 bits, [read_tiff_color] exactly RGB
    samples of 8 bits; for every other combination they report that nothing
    was read.  What they read from a row of bytes is a byte again: every
    component lies between 0 and 255. *)
Theorem read_tiff_samples_supported (rowData : list Z) (index : nat)
    (photometric_type bits_per_sample : Z) (has_alpha_channel : bool) :
  (is_Some (read_tiff_grayscale rowData index photometric_type bits_per_sample has_alpha_channel)
   <-> (photometric_type = PHOTOMETRIC_MINISWHITE \/ photometric_type = PHOTOMETRIC_MINISBLACK)
       /\ (bits_per_sample = 4 \/ bits_per_sample = 8)) /\
  (is_Some (read_tiff_color rowData index photometric_type bits_per_sample has_alpha_channel)
   <-> photometric_type = PHOTOMETRIC_RGB /\ bits_per_sample = 8) /\
  (Forall (fun b => 0 <= b < 256) rowData ->
   (forall lum alpha,
      read_tiff_grayscale rowData index photometric_type bits_per_sample has_alpha_channel
        = Some (lum, alpha) ->
      0 <= lum < 256 /\ 0 <= alpha < 256) /\
   (forall r g b a,
      read_tiff_color rowData index photometric_type bits_per_sample has_alpha_channel
        = Some (r, g, b, a) ->
      0 <= r < 256 /\ 0 <= g < 256 /\ 0 <= b < 256 /\ 0 <= a < 256)).
Proof.
  split; [apply read_tiff_grayscale_supported|].
  split; [apply read_tiff_color_supported|].
  intros Hrow. split.
  - intros lum alpha H. eapply read_tiff_grayscale_range; eassumption.
  - intros r g b a H. eapply read_tiff_color_range; eassumption.
Qed.

Lemma read_tiff_grayscale_samples_witness :
  (exists lumval alphaval,
     (lumval = (if (3 mod 2 =? 0)%nat then nth (3 / 2) [0x21; 0xF3] 0 mod 16
                else nth (3 / 2) [0x21; 0xF3] 0 / 16) /\ alphaval = 15) /\
     0 <= lumval < 16 /\ 0 <= alphaval < 16 /\
     read_tiff_grayscale [0x21; 0xF3] 3 PHOTOMETRIC_MINISWHITE 4 false
     = Some ((if PHOTOMETRIC_MINISWHITE =? PHOTOMETRIC_MINISWHITE then 255 - 17 * lumval
              else 17 * lumval), 17 * alphaval))
  /\
  read_tiff_grayscale [0x21; 0xF3] 3 PHOTOMETRIC_MINISWHITE 8 false
  = Some (nth 3 [0x21; 0xF3] 0, 255).
Proof.
  apply (read_tiff_grayscale_samples [0x21; 0xF3] 3 PHOTOMETRIC_MINISWHITE false).
  - repeat constructor; lia.
  - left. reflexivity.
Defined.

Lemma write_colormap_read_back_witness :
  let getRGBA := fun k : nat => nth_error [(255, 128, 0, 77); (1, 2, 3, 255)] k in
  let '(red, green, blue) := write_colormap getRGBA 3 in
  length red = 3%nat /\ length green = 3%nat /\ length blue = 3%nat /\
  read_colormap red green blue 3
  = map (fun k => match getRGBA k with
                  | Some (r, g, b, a) => Color r g b 255
                  | None => Color 0 0 0 255
                  end) (seq 0 3).
Proof.
  apply (write_colormap_read_back
           (fun k : nat => nth_error [(255, 128, 0, 77); (1, 2, 3, 255)] k) 3).
  intros [|[|[|k]]] r g b a; cbn; intros [= <- <- <- <-] || discriminate; lia.
Defined.

(** ** The mapping DeserializeImage chooses *)

Ltac other_tags :=
  unfold grayscale_tags, fullcolor_tags, palette_tags, PHOTOMETRIC_MINISWHITE,
    PHOTOMETRIC_MINISBLACK, PHOTOMETRIC_RGB, PHOTOMETRIC_PALETTE in *;
  intuition (lia || congruence).

(** X15.  The mapping DeserializeImage chooses from the tags.  It has a known
    mapping exactly for top-left images that are grayscale (min-is-white or
    min-is-black, 4 or 8 bits, no extra sample or one alpha sample), RGB
    (8 bits, no extra sample or one alpha sample) or palette images (4 or
    8 bits, a colormap, no extra sample).  Grayscale goes to RASTER_LUM at
    depth 8, with alpha to RASTER_LUM_ALPHA at depth 16; RGB to RASTER_888 at
    depth 24, with alpha to RASTER_8888 at depth 32; a palette image to
    RASTER_888 at the depth of its samples with a 4-bit or 8-bit palette;
    everything else to RASTER_8888 at depth 32, to be read through libtiff's
    RGBA interface.  The row alignment is always 4 and the colour order
    RGBA. *)
Theorem determine_mapping_table (indeterminate : Z * Z * eTIFF_ParseMode) (t : tiff_image) :
  let m := determine_mapping indeterminate t in
  (hasKnownMapping m = true <->
   orientation t = ORIENTATION_TOPLEFT /\ (grayscale_tags t \/ fullcolor_tags t \/ palette_tags t))
  /\ dstRowAlignment m = 4 /\ dstColorOrder m = COLOR_RGBA /\
  (orientation t = ORIENTATION_TOPLEFT /\ grayscale_tags t ->
     (dstRasterFormat m, dstDepth m)
       = (if tiff_has_alpha_channel t then (RASTER_LUM_ALPHA, 16) else (RASTER_LUM, 8)) /\
     dstPaletteType m = PALETTE_NONE /\ parseMode m = TPARSEMODE_GRAYSCALE) /\
  (orientation t = ORIENTATION_TOPLEFT /\ fullcolor_tags t ->
     (dstRasterFormat m, dstDepth m)
       = (if tiff_has_alpha_channel t then (RASTER_8888, 32) else (RASTER_888, 24)) /\
     dstPaletteType m = PALETTE_NONE /\ parseMode m = TPARSEMODE_FULLCOLOR) /\
  (orientation t = ORIENTATION_TOPLEFT /\ palette_tags t ->
     (dstRasterFormat m, dstDepth m) = (RASTER_888, bits_per_sample t) /\
     dstPaletteType m = (if bits_per_sample t =? 4 then PALETTE_4BIT else PALETTE_8BIT) /\
     parseMode m = TPARSEMODE_PALETTE) /\
  (hasKnownMapping m = false ->
     (dstRasterFormat m, dstDepth m) = (RASTER_8888, 32) /\
     dstPaletteType m = PALETTE_NONE /\ parseMode m = TPARSEMODE_FULLCOLOR).
Proof.
  destruct indeterminate as [[dstDepth0 tiffDepth0] parseMode0]. cbv zeta.
  destruct (determine_mapping_cases dstDepth0 tiffDepth0 parseMode0 t)
    as [(Ho & Htags & ->)|[(Ho & Htags & ->)|[(Ho & Htags & ->)|(Hnot & ->)]]];
    cbn [hasKnownMapping dstRowAlignment dstColorOrder dstRasterFormat dstDepth dstPaletteType
         parseMode].
  - split; [split; auto|]. repeat split; try (intros; exfalso; other_tags);
      destruct (tiff_has_alpha_channel t); reflexivity.
  - split; [split; auto|]. repeat split; try (intros; exfalso; other_tags);
      destruct (tiff_has_alpha_channel t); reflexivity.
  - split; [split; auto|]. repeat split; try (intros; exfalso; other_tags).
  - split; [split; [discriminate|intros H; exfalso; apply Hnot; exact H]|].
    repeat split; intros; exfalso; apply Hnot; tauto.
Qed.

(** X16.  The locals DeserializeImage declares without initialiser.  The
    destination layout, the parse mode, the TIFF raster format and whether
    the mapping is known never depend on what those locals held: each is
    assigned before it is read.  [tiffDepth] is assigned exactly when the
    TIFF raster format is; where that format stays RASTER_DEFAULT,
    [tiffDepth] still holds what it held on declaration, and this is so for
    every min-is-white image, for which the mapping can be a known one: the
    scanline check then hands an uninitialised [tiffDepth] to
    [doRawMipmapBuffersNeedConversion]. *)
Theorem determine_mapping_uninitialised_locals
    (dstDepth0 tiffDepth0 : Z) (parseMode0 : eTIFF_ParseMode)
    (dstDepth1 tiffDepth1 : Z) (parseMode1 : eTIFF_ParseMode) (t : tiff_image) :
  let m := determine_mapping (dstDepth0, tiffDepth0, parseMode0) t in
  let m' := determine_mapping (dstDepth1, tiffDepth1, parseMode1) t in
  (dstRasterFormat m, dstDepth m, dstRowAlignment m, dstColorOrder m, dstPaletteType m,
   dstPaletteSize m, parseMode m, hasKnownMapping m, tiffRasterFormat m, tiffColorOrder m)
  = (dstRasterFormat m', dstDepth m', dstRowAlignment m', dstColorOrder m', dstPaletteType m',
     dstPaletteSize m', parseMode m', hasKnownMapping m', tiffRasterFormat m', tiffColorOrder m')
  /\
  (tiffRasterFormat m <> RASTER_DEFAULT -> tiffDepth m = tiffDepth m') /\
  (tiffRasterFormat m = RASTER_DEFAULT -> tiffDepth m = tiffDepth0 /\ tiffDepth m' = tiffDepth1) /\
  (grayscale_tags t -> orientation t = ORIENTATION_TOPLEFT ->
   photometric_type t = PHOTOMETRIC_MINISWHITE ->
   hasKnownMapping m = true /\ tiffRasterFormat m = RASTER_DEFAULT).
Proof.
  cbv zeta.
  destruct (determine_mapping_cases dstDepth0 tiffDepth0 parseMode0 t)
    as [(Ho & Htags & ->)|[(Ho & Htags & ->)|[(Ho & Htags & ->)|(Hnot & ->)]]];
    destruct (determine_mapping_cases dstDepth1 tiffDepth1 parseMode1 t)
      as [(Ho' & Htags' & ->)|[(Ho' & Htags' & ->)|[(Ho' & Htags' & ->)|(Hnot' & ->)]]];
    try (exfalso; other_tags; fail);
    cbn [hasKnownMapping dstRowAlignment dstColorOrder dstRasterFormat dstDepth dstPaletteType
         dstPaletteSize parseMode tiffRasterFormat tiffDepth tiffColorOrder].
  - split; [reflexivity|].
    destruct (Z.eqb_spec (photometric_type t) PHOTOMETRIC_MINISBLACK) as [Hb|Hb].
    + repeat split; try reflexivity; intros;
        try (destruct (tiff_has_alpha_channel t); discriminate);
        exfalso; unfold PHOTOMETRIC_MINISWHITE, PHOTOMETRIC_MINISBLACK in *; lia.
    + repeat split; try reflexivity; intros; congruence.
  - split; [reflexivity|]. repeat split; try reflexivity; intros;
      try (destruct (tiff_has_alpha_channel t); discriminate); exfalso; other_tags.
  - split; [reflexivity|]. repeat split; try reflexivity; intros;
      try discriminate; exfalso; other_tags.
  - split; [reflexivity|]. repeat split; try reflexivity; intros; try congruence;
      exfalso; apply Hnot; tauto.
Qed.

(** ** The PowerVR provider: pixel data out, single layers, serialisation *)

Section PVRMoreFacts.
Context {Texels : Type} (environment : pvrEnvironment Texels) (decoding : pvrDecoding Texels).

(** X18.  GetPixelDataFromTexture throws only for an internal format that is
    none of the four PVRTC formats, and then with the message of
    [getPVRTargetRasterFormat]: its own throw for an unknown internal format
    is never reached.  When it returns, the pixel data is raw: no palette, no
    compression, colour order RGBA, depth 32 also for RASTER_888, which is
    the format of the two RGB internal formats, RASTER_8888 that of the two
    RGBA ones, whatever the alpha flag says; the alpha flag is the texture's;
    there is one layer per mipmap, its raw dimensions are the layer
    dimensions of the mipmap, and it is, with the same layout, what
    [pvrMipmapManager::Deinternalize] yields for that mipmap. *)
Theorem GetPixelDataFromTexture_result (platformTex : NativeTexturePVR Texels) :
  match GetPixelDataFromTexture platformTex with
  | inl m =>
      m = MsgPvrNoTargetRasterFormat /\
      getPVRCompressionTypeFromInternalFormat (pvr_internalFormat platformTex) = None
  | inr (pixelsOut, flags) =>
      is_Some (getPVRCompressionTypeFromInternalFormat (pvr_internalFormat platformTex)) /\
      layout pixelsOut
      = mk_raster_layout
          (match pvr_internalFormat platformTex with
           | GL_COMPRESSED_RGBA_PVRTC_4BPPV1_IMG | GL_COMPRESSED_RGBA_PVRTC_2BPPV1_IMG =>
               RASTER_8888
           | _ => RASTER_888
           end) 32 getPVRExportTextureDataRowAlignment COLOR_RGBA PALETTE_NONE 0 /\
      paletteData pixelsOut = None /\
      compressionType pixelsOut = RWCOMPRESS_NONE /\
      hasAlpha pixelsOut = pvr_hasAlpha platformTex /\
      flags = mk_traversal_flags false false 4 true /\
      length (mipmaps pixelsOut) = length (pvr_mipmaps platformTex) /\
      forall (n : nat) (mipLayer : mipmapLayer Texels),
        pvr_mipmaps platformTex !! n = Some mipLayer ->
        exists newLayer,
          mipmaps pixelsOut !! n = Some newLayer /\
          width newLayer = layerWidth mipLayer /\ height newLayer = layerHeight mipLayer /\
          layerWidth newLayer = layerWidth mipLayer /\
          layerHeight newLayer = layerHeight mipLayer /\
          dataSize newLayer
          = getRasterDataSizeByRowSize
              (getRasterDataRowSize (layerWidth mipLayer) 32
                 getPVRExportTextureDataRowAlignment)
              (layerHeight mipLayer) /\
          Deinternalize platformTex mipLayer
          = inr (newLayer, layout pixelsOut, RWCOMPRESS_NONE, hasAlpha pixelsOut, true, false)
  end.
Proof.
  unfold GetPixelDataFromTexture, Deinternalize.
  destruct (pvr_internalFormat platformTex) eqn:Hf; cbn;
    try (split; [reflexivity|reflexivity]);
    (split; [eexists; reflexivity|]);
    (split; [reflexivity|]); (split; [reflexivity|]); (split; [reflexivity|]);
    (split; [reflexivity|]); (split; [reflexivity|]);
    (split; [apply length_map|]);
    intros n mipLayer Hn; eexists;
    (split; [rewrite list_lookup_fmap, Hn; reflexivity|]);
    cbn; repeat split; reflexivity.
Qed.


Lemma SetPixelDataToTexture_returns (pvrTex pvrTex' : NativeTexturePVR Texels)
    (pixelsIn : pixelDataTraversal Texels) (fb fb' : acquireFeedback_t) :
  SetPixelDataToTexture pvrTex pixelsIn fb = PvrReturns pvrTex' fb' ->
  exists mainMipLayer rest cpt bw bh,
    mipmaps pixelsIn = mainMipLayer :: rest /\
    compressionType pixelsIn = RWCOMPRESS_NONE /\
    getPVRCompressionTypeFromInternalFormat
      (choose_internalFormat (hasAlpha pixelsIn) mainMipLayer) = Some cpt /\
    getPVRCompressionBlockDimensions
      (getDepthByPVRFormat (choose_internalFormat (hasAlpha pixelsIn) mainMipLayer))
    = Some (bw, bh) /\
    pvrTex'
    = mk_NativeTexturePVR
        (map (CompressMipmapToPVR (layout pixelsIn) (paletteData pixelsIn) cpt bw bh
                (getDepthByPVRFormat (choose_internalFormat (hasAlpha pixelsIn) mainMipLayer)))
             (mipmaps pixelsIn))
        (choose_internalFormat (hasAlpha pixelsIn) mainMipLayer)
        (hasAlpha pixelsIn) (pvr_unk1 pvrTex) (pvr_unk8 pvrTex).
Proof.
  unfold SetPixelDataToTexture.
  destruct (bool_decide (compressionType pixelsIn = RWCOMPRESS_NONE)) eqn:Hc;
    cbn [negb]; [|discriminate].
  apply bool_decide_eq_true in Hc.
  destruct (verifyPixelData pixelsIn); cbn [negb]; [|discriminate].
  destruct (mipmaps pixelsIn) as [|mainMipLayer rest] eqn:Hm; [discriminate|].
  cbn [pvr_hasAlpha pvr_unk1 pvr_unk8 pvr_mipmaps pvr_internalFormat].
  destruct (getPVRCompressionTypeFromInternalFormat
              (choose_internalFormat (hasAlpha pixelsIn) mainMipLayer)) as [cpt|] eqn:Hcpt;
    [|discriminate].
  destruct (getPVRCompressionBlockDimensions
              (getDepthByPVRFormat (choose_internalFormat (hasAlpha pixelsIn) mainMipLayer)))
    as [[bw bh]|] eqn:Hdim; [|discriminate].
  intros Heq. injection Heq as <- _.
  exists mainMipLayer, rest, cpt, bw, bh. repeat split; assumption || reflexivity.
Qed.

Lemma choose_internalFormat_alpha (a : bool) (mainMipLayer : mipmapLayer Texels) :
  getPVRTargetRasterFormat (choose_internalFormat a mainMipLayer)
  = Some (if a then RASTER_8888 else RASTER_888, 32, COLOR_RGBA).
Proof.
  unfold choose_internalFormat.
  destruct a, (to_uint32 (layerWidth mainMipLayer * layerHeight mainMipLayer) >=? 100 * 100);
    reflexivity.
Qed.

(** X19.  Pixel data put into a PowerVR texture can be taken out again: after
    SetPixelDataToTexture has returned, GetPixelDataFromTexture returns, with
    the alpha flag that was put in, RASTER_8888 if that flag is set and
    RASTER_888 if not, and layers with the layer dimensions that were put in,
    in the same order; the raw dimensions of each are its layer
    dimensions. *)
Theorem SetPixelDataToTexture_then_Get (pvrTex pvrTex' : NativeTexturePVR Texels)
    (pixelsIn : pixelDataTraversal Texels) (fb fb' : acquireFeedback_t) :
  SetPixelDataToTexture pvrTex pixelsIn fb = PvrReturns pvrTex' fb' ->
  exists pixelsOut flags,
    GetPixelDataFromTexture pvrTex' = inr (pixelsOut, flags) /\
    hasAlpha pixelsOut = hasAlpha pixelsIn /\
    layout pixelsOut
    = mk_raster_layout (if hasAlpha pixelsIn then RASTER_8888 else RASTER_888) 32
        getPVRExportTextureDataRowAlignment COLOR_RGBA PALETTE_NONE 0 /\
    compressionType pixelsOut = RWCOMPRESS_NONE /\
    map (fun l => (width l, height l, layerWidth l, layerHeight l)) (mipmaps pixelsOut)
    = map (fun l => (layerWidth l, layerHeight l, layerWidth l, layerHeight l))
          (mipmaps pixelsIn).
Proof.
  intros Hset.
  destruct (SetPixelDataToTexture_returns _ _ _ _ _ Hset)
    as (mainMipLayer & rest & cpt & bw & bh & Hm & Hc & Hcpt & Hdim & ->).
  unfold GetPixelDataFromTexture.
  cbn [pvr_internalFormat pvr_mipmaps pvr_hasAlpha].
  rewrite choose_internalFormat_alpha, Hcpt.
  eexists _, _. split; [reflexivity|].
  cbn [hasAlpha layout compressionType mipmaps].
  repeat split.
  rewrite !map_map. apply map_ext. intros l. reflexivity.
Qed.

(** X20.  Adding a layer compresses as setting the pixel data does: after
    SetPixelDataToTexture has returned, [pvrMipmapManager::Internalize],
    given the [n]-th layer that was put in and its layout, returns the layer
    the texture holds at [n], and reports no direct acquisition. *)
Theorem Internalize_as_SetPixelDataToTexture (pvrTex pvrTex' : NativeTexturePVR Texels)
    (pixelsIn : pixelDataTraversal Texels) (fb fb' : acquireFeedback_t)
    (n : nat) (layer : mipmapLayer Texels) (alpha : bool) :
  SetPixelDataToTexture pvrTex pixelsIn fb = PvrReturns pvrTex' fb' ->
  mipmaps pixelsIn !! n = Some layer ->
  exists stored,
    pvr_mipmaps pvrTex' !! n = Some stored /\
    Internalize pvrTex' layer (layout pixelsIn) (paletteData pixelsIn)
      (compressionType pixelsIn) alpha
    = inr (stored, false).
Proof.
  intros Hset Hn.
  destruct (SetPixelDataToTexture_returns _ _ _ _ _ Hset)
    as (mainMipLayer & rest & cpt & bw & bh & Hm & Hc & Hcpt & Hdim & ->).
  unfold Internalize. rewrite Hc.
  cbn [pvr_internalFormat pvr_mipmaps bool_decide negb].
  rewrite bool_decide_eq_true_2 by reflexivity. cbn [negb].
  rewrite Hcpt, Hdim.
  eexists. split; [|reflexivity].
  rewrite list_lookup_fmap, Hn. reflexivity.
Qed.


Lemma imageDataSectionSize_sum (l : list (mipmapLayer Texels)) (a : Z) :
  fold_left (fun imageDataSectionSize mipLayer =>
               to_uint32 (to_uint32 (imageDataSectionSize + to_uint32 (dataSize mipLayer)) + 4))
            l (to_uint32 a)
  = to_uint32 (a + fold_right Z.add 0 (map (fun mipLayer => to_uint32 (dataSize mipLayer) + 4) l)).
Proof.
  revert a. induction l as [|x l IH]; intros a; cbn [fold_left fold_right map].
  - rewrite Z.add_0_r. reflexivity.
  - replace (to_uint32 (to_uint32 (to_uint32 a + to_uint32 (dataSize x)) + 4))
      with (to_uint32 (a + to_uint32 (dataSize x) + 4)).
    + rewrite IH. f_equal. lia.
    + unfold to_uint32.
      rewrite (Zplus_mod_idemp_l (a mod 2 ^ 32 + (dataSize x) mod 2 ^ 32)).
      rewrite <- (Z.add_assoc (a mod 2 ^ 32)), <- (Z.add_assoc a).
      rewrite (Zplus_mod_idemp_l a). reflexivity.
Qed.

Lemma total_image_data_bytes_app {TextureInfo : Type}
    (a b : list (serialize_step TextureInfo Texels)) :
  total_image_data_bytes (a ++ b) = total_image_data_bytes a + total_image_data_bytes b.
Proof.
  unfold total_image_data_bytes. induction a as [|x a IH]; cbn [app map fold_right].
  - reflexivity.
  - rewrite IH. lia.
Qed.

(** X21.  SerializeTexture throws, before anything is written, exactly when
    the texture has no mipmap; otherwise it enters the block, writes the
    header, then the data size of every mipmap, then the texels of every
    mipmap, leaves the block and serialises the extensions.  The
    [imageDataStreamSize] of the header is, as a [uint32], the number of
    bytes written behind the header; [mipmapCount] is the number of mipmaps
    modulo 256; width and height are the layer dimensions of the first
    mipmap. *)
Theorem SerializeTexture_result {TextureInfo : Type} (theTexture : TextureInfo)
    (platformTex : NativeTexturePVR Texels) :
  match SerializeTexture theTexture platformTex with
  | inl m => m = MsgPvrNoMipmapLayers /\ pvr_mipmaps platformTex = []
  | inr steps =>
      exists metaHeader body mainLayer,
        steps = [StepEnterContext; StepWriteHeader metaHeader] ++ body
                ++ [StepLeaveContext; StepSerializeExtensions] /\
        body = map (fun mipLayer => StepWriteUInt32 (to_uint32 (dataSize mipLayer)))
                   (pvr_mipmaps platformTex)
               ++ map (fun mipLayer =>
                         StepWrite (texels mipLayer) (to_uint32 (dataSize mipLayer)))
                      (pvr_mipmaps platformTex) /\
        header_imageDataStreamSize metaHeader = to_uint32 (total_image_data_bytes body) /\
        header_mipmapCount metaHeader = Z.of_nat (length (pvr_mipmaps platformTex)) mod 256 /\
        head (pvr_mipmaps platformTex) = Some mainLayer /\
        header_width metaHeader = layerWidth mainLayer /\
        header_height metaHeader = layerHeight mainLayer /\
        header_hasAlpha metaHeader = pvr_hasAlpha platformTex /\
        header_internalFormat metaHeader = pvr_internalFormat platformTex
  end.
Proof.
  unfold SerializeTexture.
  destruct (pvr_mipmaps platformTex) as [|mainLayer rest] eqn:Hm; [split; reflexivity|].
  eexists _, _, mainLayer.
  split; [rewrite <- app_assoc; reflexivity|].
  split; [reflexivity|].
  split; [|repeat split; reflexivity].
  cbn [header_imageDataStreamSize].
  unfold imageDataSectionSize.
  change 0 with (to_uint32 0) at 1.
  rewrite imageDataSectionSize_sum. f_equal.
  rewrite total_image_data_bytes_app. unfold total_image_data_bytes.
  rewrite !map_map. cbn [image_data_bytes].
  generalize (mainLayer :: rest). intros l.
  induction l as [|x l IH]; cbn [map fold_right]; [reflexivity|].
  rewrite Z.add_0_l in *. rewrite IH. lia.
Qed.

(** X22.  A texture whose pixel data was set can be serialised: after
    SetPixelDataToTexture has returned, SerializeTexture returns and its
    header holds the layer dimensions of the first layer that was put in,
    the alpha flag that was put in, the internal format chosen for them and
    the texture's [unk1] and [unk8]; GetTextureInfo reports the number of
    layers put in and the same dimensions.  Once UnsetPixelDataFromTexture
    has run, SerializeTexture throws and GetTextureInfo reports no mipmap
    and the dimensions 0 by 0. *)
Theorem SetPixelDataToTexture_then_Serialize {TextureInfo : Type} (theTexture : TextureInfo)
    (pvrTex pvrTex' : NativeTexturePVR Texels)
    (pixelsIn : pixelDataTraversal Texels) (fb fb' : acquireFeedback_t) (deallocate : bool) :
  SetPixelDataToTexture pvrTex pixelsIn fb = PvrReturns pvrTex' fb' ->
  exists mainLayer metaHeader rest,
    head (mipmaps pixelsIn) = Some mainLayer /\
    SerializeTexture theTexture pvrTex'
    = inr (StepEnterContext :: StepWriteHeader metaHeader :: rest) /\
    header_width metaHeader = layerWidth mainLayer /\
    header_height metaHeader = layerHeight mainLayer /\
    header_hasAlpha metaHeader = hasAlpha pixelsIn /\
    header_internalFormat metaHeader = choose_internalFormat (hasAlpha pixelsIn) mainLayer /\
    header_unk1 metaHeader = pvr_unk1 pvrTex /\
    header_unk8 metaHeader = pvr_unk8 pvrTex /\
    GetTextureInfo pvrTex'
    = mk_batched_info (to_uint32 (Z.of_nat (length (mipmaps pixelsIn))))
        (layerWidth mainLayer) (layerHeight mainLayer) /\
    SerializeTexture theTexture (pvr_UnsetPixelDataFromTexture pvrTex' deallocate)
    = inl MsgPvrNoMipmapLayers /\
    GetTextureInfo (pvr_UnsetPixelDataFromTexture pvrTex' deallocate) = mk_batched_info 0 0 0.
Proof.
  intros Hset.
  destruct (SetPixelDataToTexture_returns _ _ _ _ _ Hset)
    as (mainMipLayer & rest & cpt & bw & bh & Hm & Hc & Hcpt & Hdim & ->).
  exists mainMipLayer. rewrite Hm.
  unfold SerializeTexture, GetTextureInfo, pvr_UnsetPixelDataFromTexture.
  cbn [pvr_mipmaps map head length pvr_hasAlpha pvr_internalFormat pvr_unk1 pvr_unk8].
  eexists _, _. split; [reflexivity|]. split; [reflexivity|].
  cbn [header_width header_height header_hasAlpha header_internalFormat header_unk1
       header_unk8 CompressMipmapToPVR layerWidth layerHeight].
  rewrite length_map.
  repeat split; reflexivity.
Qed.

Lemma formatString_no_NUL (internalFormat : ePVRInternalFormat) :
  Forall (fun c => c <> Ascii.zero) (list_ascii_of_string (formatString internalFormat)).
Proof.
  destruct internalFormat; vm_compute; repeat constructor; discriminate.
Qed.

Lemma firstn_repeat_zero (n m : nat) :
  (n <= m)%nat -> firstn n (repeat Ascii.zero m) = repeat Ascii.zero n.
Proof.
  revert m. induction n as [|n IH]; intros [|m] Hle; cbn; try reflexivity; try lia.
  f_equal. apply IH. lia.
Qed.

(** X23.  GetTextureFormatString reports the length of the format string,
    between 4 and 13, whatever buffer it is given, also for a null buffer.
    It writes exactly [bufLen] characters and leaves the rest of the buffer:
    if the string is shorter than [bufLen], the string and then NULs; if not,
    the first [bufLen] characters of the string and no NUL, so that the
    buffer is not terminated. *)
Theorem GetTextureFormatString_result (nativeTex : NativeTexturePVR Texels)
    (buf : list Ascii.ascii) (bufLen : nat) :
  (bufLen <= length buf)%nat ->
  let str := formatString (pvr_internalFormat nativeTex) in
  exists buf',
    GetTextureFormatString nativeTex (Some buf) bufLen = (Some buf', String.length str) /\
    GetTextureFormatString nativeTex None bufLen = (None, String.length str) /\
    (4 <= String.length str <= 13)%nat /\
    length buf' = length buf /\
    skipn bufLen buf' = skipn bufLen buf /\
    ((String.length str < bufLen)%nat ->
       firstn bufLen buf'
       = list_ascii_of_string str ++ repeat Ascii.zero (bufLen - String.length str)) /\
    ((bufLen <= String.length str)%nat ->
       firstn bufLen buf' = firstn bufLen (list_ascii_of_string str) /\
       Forall (fun c => c <> Ascii.zero) (firstn bufLen buf')).
Proof.
  intros Hlen str.
  unfold GetTextureFormatString. fold str.
  eexists. split; [reflexivity|]. split; [reflexivity|].
  assert (Hstr : length (list_ascii_of_string str) = String.length str).
  { clear. induction str as [|c s IH]; cbn; [reflexivity|f_equal; exact IH]. }
  assert (Hfirst : length (firstn bufLen (list_ascii_of_string str ++ repeat Ascii.zero bufLen))
                   = bufLen).
  { rewrite length_firstn, length_app, repeat_length. lia. }
  assert (Heq : firstn bufLen (strncpy buf str bufLen)
                = firstn bufLen (list_ascii_of_string str)
                  ++ firstn (bufLen - String.length str) (repeat Ascii.zero bufLen)).
  { unfold strncpy.
    rewrite firstn_app, Hfirst, Nat.sub_diag, firstn_O, app_nil_r, firstn_firstn,
      Nat.min_id, firstn_app, Hstr. reflexivity. }
  split; [unfold str; destruct (pvr_internalFormat nativeTex); vm_compute; lia|].
  split; [unfold strncpy; rewrite length_app, Hfirst, length_skipn; lia|].
  split; [unfold strncpy;
          rewrite skipn_app, Hfirst, Nat.sub_diag, (skipn_all2 (n := bufLen)) by lia;
          reflexivity|].
  split.
  - intros Hlt. rewrite Heq.
    rewrite firstn_all2 by lia.
    rewrite firstn_repeat_zero by lia. reflexivity.
  - intros Hle. rewrite Heq.
    replace (bufLen - String.length str)%nat with 0%nat by lia.
    rewrite firstn_O, app_nil_r.
    split; [reflexivity|].
    apply Forall_take. apply formatString_no_NUL.
Qed.

End PVRMoreFacts.

Lemma SetPixelDataToTexture_then_Get_witness :
  exists pvrTex' fb',
    SetPixelDataToTexture (H := sample_pvr_environment) empty_pvr_texture scenario_pixels
      (mkFeedback true true) = PvrReturns pvrTex' fb' /\
    exists pixelsOut flags,
      GetPixelDataFromTexture (decoding := sample_pvr_decoding) pvrTex'
      = inr (pixelsOut, flags) /\
      hasAlpha pixelsOut = true /\
      layout pixelsOut = mk_raster_layout RASTER_8888 32 4 COLOR_RGBA PALETTE_NONE 0 /\
      compressionType pixelsOut = RWCOMPRESS_NONE /\
      map (fun l => (width l, height l, layerWidth l, layerHeight l)) (mipmaps pixelsOut)
      = [(8, 8, 8, 8)].
Proof.
  eexists _, _. split; [vm_compute; reflexivity|].
  eapply (SetPixelDataToTexture_then_Get sample_pvr_environment sample_pvr_decoding
           empty_pvr_texture _ scenario_pixels (mkFeedback true true) _).
  vm_compute. reflexivity.
Defined.

Lemma Internalize_as_SetPixelDataToTexture_witness :
  exists pvrTex' fb',
    SetPixelDataToTexture (H := sample_pvr_environment) empty_pvr_texture scenario_pixels
      (mkFeedback true true) = PvrReturns pvrTex' fb' /\
    exists stored,
      pvr_mipmaps pvrTex' !! 0%nat = Some stored /\
      Internalize (environment := sample_pvr_environment) (decoding := sample_pvr_decoding)
        pvrTex' (mk_mipmapLayer 8 8 8 8 [1; 2; 3] 256) (layout scenario_pixels)
        (paletteData scenario_pixels) (compressionType scenario_pixels) true
      = inr (stored, false).
Proof.
  eexists _, _. split; [vm_compute; reflexivity|].
  eapply (Internalize_as_SetPixelDataToTexture sample_pvr_environment sample_pvr_decoding
           empty_pvr_texture _ scenario_pixels (mkFeedback true true) _ 0%nat
           (mk_mipmapLayer 8 8 8 8 [1; 2; 3] 256) true).
  - vm_compute. reflexivity.
  - reflexivity.
Defined.

Lemma SetPixelDataToTexture_then_Serialize_witness :
  exists pvrTex' fb',
    SetPixelDataToTexture (H := sample_pvr_environment) empty_pvr_texture scenario_pixels
      (mkFeedback true true) = PvrReturns pvrTex' fb' /\
    exists mainLayer metaHeader rest,
      head (mipmaps scenario_pixels) = Some mainLayer /\
      SerializeTexture tt pvrTex' = inr (StepEnterContext :: StepWriteHeader metaHeader :: rest) /\
      header_width metaHeader = layerWidth mainLayer /\
      header_height metaHeader = layerHeight mainLayer /\
      header_hasAlpha metaHeader = hasAlpha scenario_pixels /\
      header_internalFormat metaHeader
      = choose_internalFormat (hasAlpha scenario_pixels) mainLayer /\
      header_unk1 metaHeader = pvr_unk1 empty_pvr_texture /\
      header_unk8 metaHeader = pvr_unk8 empty_pvr_texture /\
      GetTextureInfo pvrTex'
      = mk_batched_info (to_uint32 (Z.of_nat (length (mipmaps scenario_pixels))))
          (layerWidth mainLayer) (layerHeight mainLayer) /\
      SerializeTexture tt (pvr_UnsetPixelDataFromTexture pvrTex' true)
      = inl MsgPvrNoMipmapLayers /\
      GetTextureInfo (pvr_UnsetPixelDataFromTexture pvrTex' true) = mk_batched_info 0 0 0.
Proof.
  eexists _, _. split; [vm_compute; reflexivity|].
  eapply (SetPixelDataToTexture_then_Serialize sample_pvr_environment tt
           empty_pvr_texture _ scenario_pixels (mkFeedback true true) _ true).
  vm_compute. reflexivity.
Defined.

Lemma GetTextureFormatString_result_witness :
  let nativeTex : NativeTexturePVR (list Z) :=
    mk_NativeTexturePVR [] GL_COMPRESSED_RGBA_PVRTC_4BPPV1_IMG true 0 0 in
  let buf := repeat Ascii.Space 8 in
  let str := formatString (pvr_internalFormat nativeTex) in
  exists buf',
    GetTextureFormatString nativeTex (Some buf) 8 = (Some buf', String.length str) /\
    GetTextureFormatString nativeTex None 8 = (None, String.length str) /\
    (4 <= String.length str <= 13)%nat /\
    length buf' = length buf /\
    skipn 8 buf' = skipn 8 buf /\
    ((String.length str < 8)%nat ->
       firstn 8 buf' = list_ascii_of_string str ++ repeat Ascii.zero (8 - String.length str)) /\
    ((8 <= String.length str)%nat ->
       firstn 8 buf' = firstn 8 (list_ascii_of_string str) /\
       Forall (fun c => c <> Ascii.zero) (firstn 8 buf')).
Proof.
  apply (GetTextureFormatString_result
           (mk_NativeTexturePVR (Texels := list Z) []
              GL_COMPRESSED_RGBA_PVRTC_4BPPV1_IMG true 0 0)
           (repeat Ascii.Space 8) 8).
  cbn. lia.
Defined.

(** ** Stream compression *)

Section StreamCompressionFacts.
Context {Manager Provider Repository : Type} {manager_eq_dec : EqDecision Manager}
        (compression : compressionEnvironment Manager Provider Repository).

Lemma find_compressor_flag (managers : list Manager) (needsStreamReset : bool)
    (compressed s' : Stream) (theManager : option Manager) (r : bool) :
  find_compressor managers needsStreamReset compressed = Returns (theManager, r) s' ->
  (managers = [] -> theManager = None /\ r = needsStreamReset /\ s' = compressed) /\
  (managers <> [] -> r = true) /\
  (needsStreamReset = true -> r = true).
Proof.
  revert needsStreamReset compressed.
  induction managers as [|manager rest IH]; intros needsStreamReset compressed Hfind.
  - cbn in Hfind. injection Hfind as <- <- <-.
    split; [intros _; repeat split|]. split; [congruence|auto].
  - cbn [find_compressor] in Hfind.
    split; [discriminate|].
    destruct (IsStreamCompressed manager _) as [[|] c|e c]; [| |discriminate].
    + injection Hfind as _ <- _. auto.
    + apply IH in Hfind. destruct Hfind as (_ & _ & Ht). auto.
Qed.

(** X24.  Which manager CreateDecompressedStream picks: the first, in the
    order of registration, whose [IsStreamCompressed] accepts.  Every manager
    before it was asked and returned false; it saw the stream as the last of
    them left it, sought back to offset 0, or exactly as the caller passed
    it if there is none before it; the managers registered behind it are
    not asked and have no influence on the outcome. *)
Theorem find_compressor_first_accepting (managers : list Manager) (needsStreamReset : bool)
    (compressed s' : Stream) (theManager : Manager) (r : bool) :
  find_compressor managers needsStreamReset compressed = Returns (Some theManager, r) s' ->
  exists before after r0 s0,
    managers = before ++ theManager :: after /\
    find_compressor before needsStreamReset compressed = Returns (None, r0) s0 /\
    IsStreamCompressed theManager (if r0 then seek s0 0 RWSEEK_BEG else s0)
    = PluginReturns true s' /\
    forall after',
      find_compressor (before ++ theManager :: after') needsStreamReset compressed
      = Returns (Some theManager, r) s'.
Proof.
  revert needsStreamReset compressed.
  induction managers as [|manager rest IH]; intros needsStreamReset compressed Hfind;
    [discriminate|].
  cbn [find_compressor] in Hfind.
  destruct (IsStreamCompressed manager
              (if needsStreamReset then seek compressed 0 RWSEEK_BEG else compressed))
    as [[|] c|e c] eqn:Hprobe; [| |discriminate].
  - injection Hfind as <- <- <-.
    exists [], rest, needsStreamReset, compressed.
    split; [reflexivity|]. split; [reflexivity|]. split; [exact Hprobe|].
    intros after'. cbn [app find_compressor]. rewrite Hprobe. reflexivity.
  - destruct (IH _ _ Hfind) as (before & after & r0 & s0 & -> & Hbefore & Haccept & Hafter).
    exists (manager :: before), after, r0, s0.
    split; [reflexivity|].
    split; [cbn [find_compressor]; rewrite Hprobe; exact Hbefore|].
    split; [exact Haccept|].
    intros after'. cbn [app find_compressor]. rewrite Hprobe. apply Hafter.
Qed.

(** X25.  Where CreateDecompressedStream leaves a stream that it hands back.
    With no manager registered the stream is returned untouched and nothing
    is created.  With at least one manager registered the stream comes back
    with its seek pointer at offset 0, wherever it stood when it was passed
    in. *)
Theorem CreateDecompressedStream_rewinds (env : streamCompressionEnv Manager Repository)
    (compressed : Stream) (s : decompression_state Manager Provider Repository) :
  CreateDecompressedStream (Some env) compressed = Returns ResultCompressed s ->
  (compressors env = [] -> st_compressed s = compressed /\ st_ops s = []) /\
  (compressors env <> [] -> cursor (st_compressed s) = 0).
Proof.
  unfold CreateDecompressedStream.
  destruct (find_compressor (compressors env) false compressed)
    as [[theManager r] c|e c|] eqn:Hfind; [|discriminate|discriminate].
  destruct (find_compressor_flag _ _ _ _ _ _ Hfind) as (Hnil & Hcons & _).
  intros Hres. split.
  - intros Hempty. destruct (Hnil Hempty) as (-> & -> & ->).
    injection Hres as <-. split; reflexivity.
  - intros Hne. rewrite (Hcons Hne) in Hres.
    destruct theManager as [theManager|]; [|injection Hres as <-; reflexivity].
    destruct (GetRepository env) as [[repo|] env'];
      [|injection Hres as <-; reflexivity].
    destruct (GenerateRandomFile repo) as [decFile|];
      [|injection Hres as <-; reflexivity].
    destruct (CreateProvider theManager) as [[compressor|] u|e u];
      [|injection Hres as <-; reflexivity|discriminate].
    destruct (Decompress compressor _ decFile) as [[|] [c' d']|e [c' d']];
      [discriminate|injection Hres as <-; reflexivity|discriminate].
Qed.

Lemma find_compressor_defined (managers : list Manager) (needsStreamReset : bool)
    (compressed : Stream) :
  find_compressor managers needsStreamReset compressed <> Undefined.
Proof.
  revert needsStreamReset compressed.
  induction managers as [|m l IH]; intros b c; cbn [find_compressor]; [discriminate|].
  destruct (IsStreamCompressed m _) as [[|] c'|e c']; [discriminate|apply IH|discriminate].
Qed.

Lemma find_compressor_throws (managers : list Manager) (needsStreamReset : bool)
    (compressed : Stream) (e : exn) (s' : Stream) :
  find_compressor managers needsStreamReset compressed = Throws e s' ->
  exists code, e = PluginException code.
Proof.
  revert needsStreamReset compressed.
  induction managers as [|m l IH]; intros b c; cbn [find_compressor]; [discriminate|].
  destruct (IsStreamCompressed m _) as [[|] c'|code c'].
  - discriminate.
  - apply IH.
  - intros Heq. injection Heq as <- _. eauto.
Qed.

(** X26.  CreateDecompressedStream leaks nothing, whether it returns or
    throws.  Every provider it has created it has destroyed.  When it returns
    a temporary file, it has generated one file, which it has not deleted
    but wrapped, with the seek pointer at 0 and the temporary root of the
    environment as its translator, and it has deleted the stream it was
    passed.  In every other case, an exception of a plug-in included, it has
    deleted the file it generated, if any, and has not deleted the stream
    it was passed.  The registered managers stay as they are, and a
    temporary root that exists is kept. *)
Theorem CreateDecompressedStream_resources
    (env : option (streamCompressionEnv Manager Repository)) (compressed : Stream) :
  match CreateDecompressedStream env compressed with
  | Undefined => False
  | Returns resultFile s =>
      count_ops creates_provider (st_ops s) = count_ops destroys_provider (st_ops s) /\
      match resultFile with
      | ResultTemporary sourceTrans actualFile =>
          count_ops generates_file (st_ops s) = 1%nat /\
          count_ops deletes_decFile (st_ops s) = 0%nat /\
          count_ops deletes_compressed (st_ops s) = 1%nat /\
          cursor actualFile = 0 /\
          (tmpRoot <$> st_env s) = Some (Some sourceTrans)
      | ResultCompressed =>
          count_ops generates_file (st_ops s) = count_ops deletes_decFile (st_ops s) /\
          count_ops deletes_compressed (st_ops s) = 0%nat
      end /\
      (compressors <$> st_env s) = (compressors <$> env) /\
      (forall root, (tmpRoot <$> env) = Some (Some root) ->
                    (tmpRoot <$> st_env s) = Some (Some root))
  | Throws e s =>
      (exists code, e = PluginException code) /\
      count_ops creates_provider (st_ops s) = count_ops destroys_provider (st_ops s) /\
      count_ops generates_file (st_ops s) = count_ops deletes_decFile (st_ops s) /\
      count_ops deletes_compressed (st_ops s) = 0%nat /\
      (compressors <$> st_env s) = (compressors <$> env) /\
      (forall root, (tmpRoot <$> env) = Some (Some root) ->
                    (tmpRoot <$> st_env s) = Some (Some root))
  end.
Proof.
  unfold CreateDecompressedStream.
  destruct env as [env|]; [|cbn; repeat split; auto].
  pose proof (find_compressor_defined (compressors env) false compressed) as Hdef.
  pose proof (find_compressor_throws (compressors env) false compressed) as Hexn.
  destruct (find_compressor (compressors env) false compressed)
    as [[theManager r] c|e c|] eqn:Hfind; [| |congruence].
  2: { cbn. split; [exact (Hexn e c eq_refl)|]. repeat split; auto. }
  destruct theManager as [theManager|]; [|cbn; repeat split; auto].
  assert (Hrepo : compressors (snd (GetRepository env)) = compressors env /\
                  (forall root, tmpRoot env = Some root ->
                                tmpRoot (snd (GetRepository env)) = Some root) /\
                  tmpRoot (snd (GetRepository env)) = fst (GetRepository env)).
  { unfold GetRepository. destruct (tmpRoot env) as [root|] eqn:Hroot; cbn [fst snd tmpRoot compressors].
    - repeat split; auto; congruence.
    - repeat split; auto; congruence. }
  destruct (GetRepository env) as [repo env'] eqn:HG.
  cbn [fst snd] in Hrepo. destruct Hrepo as (Hcomp & Hkeep & Hroot).
  assert (Henv : (compressors <$> Some env') = (compressors <$> Some env) /\
                 (forall root, (tmpRoot <$> Some env) = Some (Some root) ->
                               (tmpRoot <$> Some env') = Some (Some root))).
  { cbn. split; [f_equal; exact Hcomp|]. intros root [= Hr]. f_equal. apply Hkeep, Hr. }
  destruct repo as [repo|]; [|cbn; repeat split; apply Henv].
  destruct (GenerateRandomFile repo) as [decFile|]; [|cbn; repeat split; apply Henv].
  destruct (CreateProvider theManager) as [[compressor|] u|e u].
  - destruct (Decompress compressor _ decFile) as [[|] [c' d']|e [c' d']].
    + cbn. repeat split; first [exact (proj1 Henv)|exact (proj2 Henv)|f_equal; exact Hroot].
    + cbn. repeat split; apply Henv.
    + cbn. split; [eauto|]. repeat split; apply Henv.
  - cbn. repeat split; apply Henv.
  - cbn. split; [eauto|]. repeat split; apply Henv.
Qed.

Lemma find_and_erase_spec (manager : Manager) (l : list Manager) :
  match find_and_erase manager l with
  | Some l' => exists before after,
      l = before ++ manager :: after /\ (manager ∉ before) /\ l' = before ++ after
  | None => manager ∉ l
  end.
Proof.
  induction l as [|m rest IH]; cbn [find_and_erase].
  - apply not_elem_of_nil.
  - destruct (decide (m = manager)) as [->|Hne].
    + exists [], rest. split; [reflexivity|]. split; [apply not_elem_of_nil|reflexivity].
    + destruct (find_and_erase manager rest) as [l'|].
      * destruct IH as (before & after & -> & Hnot & ->).
        exists (m :: before), after. split; [reflexivity|].
        split; [|reflexivity].
        rewrite not_elem_of_cons. split; [congruence|exact Hnot].
      * rewrite not_elem_of_cons. split; [congruence|exact IH].
Qed.

Lemma find_and_erase_app (manager : Manager) (l : list Manager) :
  find_and_erase manager (l ++ [manager])
  = Some (match find_and_erase manager l with
          | Some l' => l' ++ [manager]
          | None => l
          end).
Proof.
  induction l as [|m rest IH]; cbn [app find_and_erase].
  - rewrite decide_True by reflexivity. reflexivity.
  - destruct (decide (m = manager)) as [->|Hne]; [reflexivity|].
    rewrite IH. destruct (find_and_erase manager rest); reflexivity.
Qed.

(** X27.  UnregisterStreamCompressionManager removes one registration of a
    manager, the earliest, and keeps the order of all others; it fails,
    leaving the environment as it is, exactly when the manager is not
    registered.  Unregistering directly after registering always succeeds;
    it gives back the environment as it was if the manager was not registered
    before, and otherwise leaves the manager registered once less than after
    the registration, with its last registration at the end of the order. *)
Theorem UnregisterStreamCompressionManager_result
    (env : streamCompressionEnv Manager Repository) (manager : Manager) :
  match UnregisterStreamCompressionManager (Some env) manager with
  | (true, env') =>
      exists before after,
        compressors env = before ++ manager :: after /\ (manager ∉ before) /\
        env' = Some (mk_streamCompressionEnv (before ++ after) (tmpRoot env))
  | (false, env') => (manager ∉ compressors env) /\ env' = Some env
  end /\
  UnregisterStreamCompressionManager
    (snd (RegisterStreamCompressionManager (Some env) manager)) manager
  = (true,
     match UnregisterStreamCompressionManager (Some env) manager with
     | (true, Some env') =>
         Some (mk_streamCompressionEnv (compressors env' ++ [manager]) (tmpRoot env))
     | _ => Some env
     end).
Proof.
  unfold UnregisterStreamCompressionManager, RegisterStreamCompressionManager.
  cbn [snd compressors tmpRoot].
  rewrite find_and_erase_app.
  pose proof (find_and_erase_spec manager (compressors env)) as Hspec.
  destruct (find_and_erase manager (compressors env)) as [l'|].
  - destruct Hspec as (before & after & Hl & Hnot & ->).
    split; [exists before, after; auto|reflexivity].
  - split; [auto|]. destruct env; reflexivity.
Qed.

End StreamCompressionFacts.

Lemma find_compressor_first_accepting_witness :
  exists before after r0 s0,
    [1; 2; 3]%nat = before ++ 2%nat :: after /\
    find_compressor (compression := sample_compression) before false (mkStream [2; 9] 0)
    = Returns (None, r0) s0 /\
    IsStreamCompressed (compressionEnvironment := sample_compression) 2%nat
      (if r0 then seek s0 0 RWSEEK_BEG else s0)
    = PluginReturns true (mkStream [2; 9] 1) /\
    forall after',
      find_compressor (compression := sample_compression) (before ++ 2%nat :: after') false
        (mkStream [2; 9] 0)
      = Returns (Some 2%nat, true) (mkStream [2; 9] 1).
Proof.
  apply (find_compressor_first_accepting sample_compression [1; 2; 3]%nat false
           (mkStream [2; 9] 0) (mkStream [2; 9] 1) 2%nat true).
  vm_compute. reflexivity.
Defined.

Lemma CreateDecompressedStream_rewinds_witness :
  exists s,
    CreateDecompressedStream (compression := sample_compression)
      (Some (mk_streamCompressionEnv [1; 2; 3]%nat None)) (mkStream [7; 7] 1)
    = Returns ResultCompressed s /\
    cursor (st_compressed s) = 0.
Proof.
  eexists.
  assert (H : CreateDecompressedStream (compression := sample_compression)
                (Some (mk_streamCompressionEnv [1; 2; 3]%nat None)) (mkStream [7; 7] 1)
              = Returns ResultCompressed _) by (vm_compute; reflexivity).
  split; [exact H|].
  apply (proj2 (CreateDecompressedStream_rewinds sample_compression _ _ _ H)).
  discriminate.
Defined.

(** ** The registry of native image formats: visiting order *)


